(** * Pelorus: a GraphQL schema adapter for Waterline collections

    A shallow embedding of [src/adapter.js] (and of the type converter of
    the older [src/lib/adapter.js]) together with the properties that the
    specification states about it.

    Conventions of the embedding.
    - A JavaScript object used as a record or as a map is an association
      list in property-enumeration order.  Only own properties are
      modelled.  An object that the adapter fills keeps its properties in
      insertion order as long as no name is an array index (JavaScript
      enumerates those first); the statements about order say so.
    - A JavaScript number is an IEEE-754 double, i.e. a primitive [float].
    - Strings are byte strings; [toLowerCase] and [_.capitalize] act on
      the ASCII letters, which is what they do on GraphQL names.
    - A thrown exception is the [Throw] outcome; module-level state
      ([internals.defaults]) and the console are threaded explicitly.
    - Libraries that the adapter calls (lodash, Joi, graphql-js, the
      Waterline store) are modelled by what the adapter relies on.  Of
      graphql-js this is what every version does when it is handed the
      adapter's objects: [GraphQLList] refuses [undefined], and the
      schema constructor calls the [fields] thunk of every type it
      reaches.  A type has no identity beyond its name and what its
      thunk closes over, so the checks that later or earlier versions
      add (a field without a type, a root type without fields, two type
      objects of one name left by an earlier build) are not modelled:
      no statement below concludes that a schema is returned except at
      a concrete input. *)

From Stdlib Require Import List String Ascii Bool Arith ZArith Lia.
From Stdlib Require Import PrimFloat Uint63.
Import ListNotations.
Set Warnings "-register-all".
Open Scope string_scope.
Open Scope list_scope.

(* ================================================================= *)
(** ** JavaScript values, objects and exceptions *)

Module Js.

(** Exceptions that can escape the adapter. *)
Inductive Error : Type :=
| ValidationError (message : string)   (* thrown by [Joi.assert] *)
| TypeError (message : string)         (* thrown by the JS runtime *)
| RangeError (message : string)        (* call-stack exhaustion *)
| LibraryError (message : string).     (* raised inside graphql-js *)

(** The double quote, for the messages that have one. *)
Definition dquote : string := String "034"%char EmptyString.

Inductive Outcome (A : Type) : Type :=
| Value (a : A)
| Throw (e : Error).
Arguments Value {A} a.
Arguments Throw {A} e.

Definition bind {A B} (m : Outcome A) (k : A -> Outcome B) : Outcome B :=
  match m with
  | Value a => k a
  | Throw e => Throw e
  end.

Definition fmap {A B} (f : A -> B) (m : Outcome A) : Outcome B :=
  bind m (fun a => Value (f a)).

Definition isValue {A} (m : Outcome A) : bool :=
  match m with Value _ => true | Throw _ => false end.

(** [Array.prototype.map] with a callback that may throw: elements are
    visited from left to right and the first exception aborts the loop. *)
Fixpoint mapM {A B} (f : A -> Outcome B) (l : list A) : Outcome (list B) :=
  match l with
  | [] => Value []
  | x :: rest =>
      bind (f x) (fun y => bind (mapM f rest) (fun ys => Value (y :: ys)))
  end.

(** [Array.prototype.reduce] with a callback that may throw. *)
Fixpoint reduceM {A S} (f : S -> A -> Outcome S) (l : list A) (acc : S)
  : Outcome S :=
  match l with
  | [] => Value acc
  | x :: rest => bind (f acc x) (fun acc' => reduceM f rest acc')
  end.

(** *** Strings *)

Definition lower_ascii (c : ascii) : ascii :=
  let n := nat_of_ascii c in
  if ((65 <=? n) && (n <=? 90))%nat then ascii_of_nat (n + 32) else c.

Definition upper_ascii (c : ascii) : ascii :=
  let n := nat_of_ascii c in
  if ((97 <=? n) && (n <=? 122))%nat then ascii_of_nat (n - 32) else c.

(** [String.prototype.toLowerCase] *)
Fixpoint toLowerCase (s : string) : string :=
  match s with
  | EmptyString => EmptyString
  | String c rest => String (lower_ascii c) (toLowerCase rest)
  end.

(** lodash [_.capitalize]: first character to upper case, the remaining
    ones to lower case (lodash 4; lodash 3 left the remaining ones alone,
    which makes no difference to the names of the query fields, see
    [toLowerCase_capitalize]). *)
Definition capitalize (s : string) : string :=
  match toLowerCase s with
  | EmptyString => EmptyString
  | String c rest => String (upper_ascii c) rest
  end.

Definition is_digit (c : ascii) : bool :=
  let n := nat_of_ascii c in ((48 <=? n) && (n <=? 57))%nat.

Fixpoint all_digits (s : string) : bool :=
  match s with
  | EmptyString => true
  | String c rest => is_digit c && all_digits rest
  end.

(** An array index: a decimal numeral without a leading zero.  A property
    so named is enumerated before the others, in numeric order. *)
Definition is_array_index (k : string) : bool :=
  match k with
  | EmptyString => false
  | String c rest =>
      if Ascii.eqb c "0"%char then String.eqb rest ""
      else is_digit c && all_digits rest
  end.

(** *** Values *)

Inductive JsVal : Type :=
| VUndefined
| VNull
| VBool (b : bool)
| VNum (x : float)
| VStr (s : string)
| VArr (items : list JsVal)
| VObj (props : list (string * JsVal)).

(** An object as a map: own properties in enumeration order. *)
Definition Obj (V : Type) : Type := list (string * V).

Fixpoint obj_get {V} (o : Obj V) (k : string) : option V :=
  match o with
  | [] => None
  | (k', v) :: rest => if String.eqb k' k then Some v else obj_get rest k
  end.

(** [o.hasOwnProperty(k)], for an [o] that does not shadow the method. *)
Definition hasOwnProperty {V} (o : Obj V) (k : string) : bool :=
  match obj_get o k with Some _ => true | None => false end.

(** [o[k] = v] on a plain object: an existing property keeps its place
    in the enumeration order, a new one goes last.  The name
    [__proto__] is an accessor of [Object.prototype]: assigning to it
    creates no own property. *)
Fixpoint obj_put {V} (o : Obj V) (k : string) (v : V) : Obj V :=
  match o with
  | [] => [(k, v)]
  | (k', v') :: rest =>
      if String.eqb k' k then (k', v) :: rest else (k', v') :: obj_put rest k v
  end.

Definition obj_set {V} (o : Obj V) (k : string) (v : V) : Obj V :=
  if String.eqb k "__proto__" then o else obj_put o k v.

Definition keys {V} (o : Obj V) : list string := map fst o.

(** lodash [_.assign(target, source)] *)
Definition assign {V} (target source : Obj V) : Obj V :=
  fold_left (fun acc kv => obj_set acc (fst kv) (snd kv)) source target.

(** [v[k]] as an rvalue: reading a property of [undefined] or [null]
    throws; a primitive has no own property of interest. *)
Definition get (v : JsVal) (k : string) : Outcome JsVal :=
  match v with
  | VUndefined =>
      Throw (TypeError ("Cannot read property '" ++ k ++ "' of undefined"))
  | VNull =>
      Throw (TypeError ("Cannot read property '" ++ k ++ "' of null"))
  | VObj props =>
      Value (match obj_get props k with Some x => x | None => VUndefined end)
  | _ => Value VUndefined
  end.

(** ToBoolean *)
Definition truthy (v : JsVal) : bool :=
  match v with
  | VUndefined | VNull => false
  | VBool b => b
  | VNum x => negb (PrimFloat.eqb x 0%float) && PrimFloat.eqb x x
  | VStr s => negb (String.eqb s "")
  | VArr _ | VObj _ => true
  end.

(** [===] on the values that can be compared by content; two object
    references are never identified. *)
Definition strict_eqb (a b : JsVal) : bool :=
  match a, b with
  | VUndefined, VUndefined => true
  | VNull, VNull => true
  | VBool x, VBool y => Bool.eqb x y
  | VNum x, VNum y => PrimFloat.eqb x y
  | VStr x, VStr y => String.eqb x y
  | _, _ => false
  end.

End Js.

Import Js.

Declare Scope js_scope.
Delimit Scope js_scope with js.
Notation "x <- m ;; k" := (Js.bind m (fun x => k))
  (at level 61, m at next level, right associativity) : js_scope.
Open Scope js_scope.

(* ================================================================= *)
(** ** The graphql-js library, as far as the adapter uses it *)

Module GraphQl.

(** Literal syntax nodes ([graphql/language] value nodes).  [OtherNode]
    stands for every node whose [kind] is none of the seven below, such
    as a [Variable] or a [NullValue] node. *)
Inductive Node : Type :=
| IntValue (value : string)
| FloatValue (value : string)
| BooleanValue (value : bool)
| StringValue (value : string)
| EnumValue (value : string)
| ListValue (values : list Node)
| ObjectValue (fields : list (string * Node))  (* name.value, value *)
| OtherNode (kind : string).

(** [GraphQlLanguage.Kind] *)
Module Kind.
Definition INT := "IntValue".
Definition FLOAT := "FloatValue".
Definition BOOLEAN := "BooleanValue".
Definition STRING := "StringValue".
Definition ENUM := "EnumValue".
Definition LIST := "ListValue".
Definition OBJECT := "ObjectValue".
End Kind.

(** [tree.kind] *)
Definition kind (tree : Node) : string :=
  match tree with
  | IntValue _ => Kind.INT
  | FloatValue _ => Kind.FLOAT
  | BooleanValue _ => Kind.BOOLEAN
  | StringValue _ => Kind.STRING
  | EnumValue _ => Kind.ENUM
  | ListValue _ => Kind.LIST
  | ObjectValue _ => Kind.OBJECT
  | OtherNode k => k
  end.

(** [tree.value], [tree.values] and [tree.fields]; a node of another
    shape does not have the property. *)
Definition value (tree : Node) : JsVal :=
  match tree with
  | IntValue v | FloatValue v | StringValue v | EnumValue v => VStr v
  | BooleanValue b => VBool b
  | _ => VUndefined
  end.

Definition values (tree : Node) : option (list Node) :=
  match tree with ListValue vs => Some vs | _ => None end.

Definition fields (tree : Node) : option (list (string * Node)) :=
  match tree with ObjectValue fs => Some fs | _ => None end.

(** Nesting depth of a literal, i.e. the depth of the call stack that
    parsing it needs. *)
Fixpoint depth (tree : Node) : nat :=
  match tree with
  | ListValue vs => S (fold_right (fun v d => Nat.max (depth v) d) 0 vs)
  | ObjectValue fs => S (fold_right (fun f d => Nat.max (depth (snd f)) d) 0 fs)
  | _ => 0
  end.

(** The built-in scalars whose [parseLiteral] the adapter delegates to.
    Their behaviour belongs to the library (and differs between its
    versions on out-of-range numbers), so it is an interface here. *)
Class Scalars : Type := {
  GraphQLInt_parseLiteral : Node -> Outcome JsVal;
  GraphQLFloat_parseLiteral : Node -> Outcome JsVal;
  GraphQLBoolean_parseLiteral : Node -> Outcome JsVal;
  GraphQLString_parseLiteral : Node -> Outcome JsVal
}.

(** Type descriptors.  An object type keeps what its [fields] thunk
    closes over; the thunk itself is [Adapter.type_fields]. *)
Inductive GType (C : Type) : Type :=
| GraphQLString
| GraphQLInt
| GraphQLBoolean
| GraphQLFloat
| GraphQLJson                       (* the adapter's [JSON] scalar *)
| GraphQLNonNull (ofType : GType C)
| GraphQLList (ofType : GType C)
| GraphQLObjectType (name description : string) (closure : C)
| NoType.                           (* [undefined]: registry miss *)
Arguments GraphQLString {C}.
Arguments GraphQLInt {C}.
Arguments GraphQLBoolean {C}.
Arguments GraphQLFloat {C}.
Arguments GraphQLJson {C}.
Arguments GraphQLNonNull {C} ofType.
Arguments GraphQLList {C} ofType.
Arguments GraphQLObjectType {C} name description closure.
Arguments NoType {C}.

(** [new GraphQLList(type)]: the constructor refuses [undefined]. *)
Definition new_GraphQLList {C} (type : GType C) : Outcome (GType C) :=
  match type with
  | NoType =>
      Throw (LibraryError
               "Can only create List of a GraphQLType but got: undefined.")
  | _ => Value (GraphQLList type)
  end.

(** The type that a field type wraps. *)
Fixpoint named_type {C} (type : GType C) : GType C :=
  match type with
  | GraphQLNonNull ofType | GraphQLList ofType => named_type ofType
  | _ => type
  end.

(** The name of the object type that a type wraps, if it wraps one. *)
Definition object_name {C} (type : GType C) : list string :=
  match named_type type with
  | GraphQLObjectType name _ _ => [name]
  | _ => []
  end.

End GraphQl.

Import GraphQl.

(* ================================================================= *)
(** ** Waterline collections (the adapter's input) *)

Module Waterline.

(** An attribute's rules object, with the properties the adapter reads.
    [None] is an absent property. *)
Record Rules : Type := {
  model : option string;
  collection : option string;
  via : option string;
  type : option string;
  required : bool;
  primaryKey : option bool;
  unique : option bool
}.

(** [collection.adapter.identity], [collection._attributes] and
    [collection.primaryKey]. *)
Record Collection : Type := {
  identity : string;
  _attributes : Obj Rules;
  collection_primaryKey : string
}.

(** What a query-field resolver hands back: the deferred store query
    [collection.findOne(criteria).populateAll()] or
    [collection.find(criteria).populateAll()]. *)
Inductive Query : Type :=
| findOne (c : Collection) (criteria : Obj JsVal)
| find (c : Collection) (criteria : Obj JsVal).

(** Reference semantics of the store for key-pair criteria (the only
    criteria the relation resolvers build): a record matches when each
    criterion equals the record's attribute of that name.  A [where]
    key wraps the criteria. *)
Definition matches (criteria : Obj JsVal) (record : JsVal) : bool :=
  forallb (fun kv =>
             match get record (fst kv) with
             | Value x => strict_eqb x (snd kv)
             | Throw _ => false
             end) criteria.

Definition unwrap_where (criteria : Obj JsVal) : Obj JsVal :=
  match obj_get criteria "where" with
  | Some (VObj w) => w
  | _ => criteria
  end.

Definition run_find (records : list JsVal) (criteria : Obj JsVal)
  : list JsVal :=
  filter (matches (unwrap_where criteria)) records.

(** What the store answers to a deferred query over the records [table]
    of the queried collection; [findOne] answers with the first match. *)
Definition run (table : list JsVal) (q : Query) : list JsVal :=
  match q with
  | find _ criteria => run_find table criteria
  | findOne _ criteria => firstn 1 (run_find table criteria)
  end.

End Waterline.

Import Waterline.

(* ================================================================= *)
(** ** The adapter ([src/adapter.js]) *)

Module Adapter.

Definition OutputType : Type := GType Collection.

(** An argument descriptor [{name, type}]. *)
Record Arg : Type := { arg_name : string; arg_type : OutputType }.

(** A query field [{type, args, resolve}]; [resolve] is the closure
    [(object, criteria) => ...] over the field's collection. *)
Record QueryField : Type := {
  queryField_type : OutputType;
  args : Obj Arg;
  resolve : JsVal -> Obj JsVal -> Query
}.

(** The [collections] option: a mapping or a sequence. *)
Inductive Collections : Type :=
| AsObject (o : Obj Collection)
| AsArray (a : list Collection).

(** [internals.defaults]: the two options and the two registries. *)
Record Defaults : Type := {
  collections : Collections;
  exposeQueryLanguage : bool;
  modelQueries : Obj QueryField;
  types : Obj OutputType
}.

(** [internals.defaults.types = ts] and
    [internals.defaults.modelQueries = mq]: the registries are objects
    that the two builders update in place. *)
Definition set_types (ts : Obj OutputType) (d : Defaults) : Defaults :=
  {| collections := collections d;
     exposeQueryLanguage := exposeQueryLanguage d;
     modelQueries := modelQueries d;
     types := ts |}.

Definition set_modelQueries (mq : Obj QueryField) (d : Defaults) : Defaults :=
  {| collections := collections d;
     exposeQueryLanguage := exposeQueryLanguage d;
     modelQueries := mq;
     types := types d |}.

(** The module's state when it is loaded (lines 18-23). *)
Definition initial_defaults : Defaults :=
  {| collections := AsObject [];
     exposeQueryLanguage := false;
     modelQueries := [];
     types := [] |}.

(** A configuration object as a caller can pass it: each of the four
    property names may be absent. *)
Record Config : Type := {
  config_collections : option Collections;
  config_exposeQueryLanguage : option bool;
  config_modelQueries : option (Obj QueryField);
  config_types : option (Obj OutputType)
}.

(** The module's state and the console. *)
Record World : Type := { defaults : Defaults; console : list string }.

Definition initial_world : World :=
  {| defaults := initial_defaults; console := [] |}.

(** Computations over the module's state that may throw; what was
    written before an exception stays written. *)
Definition M (A : Type) : Type := World -> Outcome A * World.

Definition ret {A} (a : A) : M A := fun w => (Value a, w).

Definition throw {A} (e : Error) : M A := fun w => (Throw e, w).

Definition bindM {A B} (m : M A) (k : A -> M B) : M B :=
  fun w =>
    match m w with
    | (Value a, w') => k a w'
    | (Throw e, w') => (Throw e, w')
    end.

Definition lift {A} (o : Outcome A) : M A := fun w => (o, w).

Definition read : M Defaults := fun w => (Value (defaults w), w).

Definition write (d : Defaults) : M unit :=
  fun w => (Value tt, {| defaults := d; console := console w |}).

(** [console.warn(message)] *)
Definition warn (message : string) : M unit :=
  fun w => (Value tt, {| defaults := defaults w;
                         console := console w ++ [message] |}).

(** lodash [_.forEach] over the values of a collection, with a callback
    that never returns [false]. *)
Fixpoint forEach {A} (f : A -> M unit) (l : list A) : M unit :=
  match l with
  | [] => ret tt
  | x :: rest => bindM (f x) (fun _ => forEach f rest)
  end.

(** The same loop, threading the local variables [acc] that the
    callback assigns to. *)
Fixpoint forEachS {A S} (f : S -> A -> M S) (l : list A) (acc : S) : M S :=
  match l with
  | [] => ret acc
  | x :: rest => bindM (f acc x) (fun acc' => forEachS f rest acc')
  end.

(** The values [_.forEach(collections, ...)] visits, and
    [collections[name]]. *)
Definition collection_values (cs : Collections) : list Collection :=
  match cs with
  | AsObject o => map snd o
  | AsArray a => a
  end.

Definition collections_get (cs : Collections) (name : string)
  : option Collection :=
  match cs with
  | AsObject o => obj_get o name
  | AsArray _ => None
  end.

(** [internals.configSchema] (lines 13-16), as [Joi.assert] applies it:
    [collections] is required and is an object or an array (both by
    typing here), [exposeQueryLanguage] is an optional boolean, and a
    Joi object schema does not allow keys that it does not list. *)
Definition configSchema (config : Config) : option Error :=
  match config_collections config with
  | None => Some (ValidationError "collections is required")
  | Some _ =>
      match config_modelQueries config, config_types config with
      | Some _, _ => Some (ValidationError "modelQueries is not allowed")
      | None, Some _ => Some (ValidationError "types is not allowed")
      | None, None => None
      end
  end.

(** lodash [_.defaults(config, source)]: every property that [config]
    lacks is copied from [source] into [config], and [config] is
    returned. *)
Definition lodash_defaults (config : Config) (source : Defaults) : Defaults :=
  {| collections :=
       match config_collections config with
       | Some c => c | None => collections source end;
     exposeQueryLanguage :=
       match config_exposeQueryLanguage config with
       | Some b => b | None => exposeQueryLanguage source end;
     modelQueries :=
       match config_modelQueries config with
       | Some q => q | None => modelQueries source end;
     types :=
       match config_types config with
       | Some t => t | None => types source end |}.

(** After line 48 [internals.defaults] is the caller's configuration
    object itself, so this is what that object has become. *)
Definition as_config (d : Defaults) : Config :=
  {| config_collections := Some (collections d);
     config_exposeQueryLanguage := Some (exposeQueryLanguage d);
     config_modelQueries := Some (modelQueries d);
     config_types := Some (types d) |}.

(** *** [internals.convertToGraphQlType] (lines 224-239) *)
Definition convertToGraphQlType (type : option string) : Outcome OutputType :=
  match type with
  | None =>
      Throw (TypeError "Cannot read property 'toLowerCase' of undefined")
  | Some type =>
      let tag := toLowerCase type in
      if String.eqb tag "integer" then Value GraphQLInt
      else if String.eqb tag "boolean" then Value GraphQLBoolean
      else if String.eqb tag "float" then Value GraphQLFloat
      else if String.eqb tag "json" then Value GraphQLJson
      else Value GraphQLString
  end.

(** *** [internals.getParser] (lines 245-271)

    [parseLiteral] is [internals.GraphQLJson.parseLiteral], which the
    list and object parsers call back into. *)
Section Parser.
Context {scalars : Scalars}.

Definition Parser : Type := Node -> Outcome JsVal.

Definition getParser (parseLiteral : Parser) (kind : string)
  : option Parser :=
  if String.eqb kind Kind.INT then
    Some (fun tree => GraphQLInt_parseLiteral tree)
  else if String.eqb kind Kind.FLOAT then
    Some (fun tree => GraphQLFloat_parseLiteral tree)
  else if String.eqb kind Kind.BOOLEAN then
    Some (fun tree => GraphQLBoolean_parseLiteral tree)
  else if String.eqb kind Kind.STRING then
    Some (fun tree => GraphQLString_parseLiteral tree)
  else if String.eqb kind Kind.ENUM then
    Some (fun tree =>
            match value tree with
            | VStr s => Value (VStr s)
            | VBool b => Value (VStr (if b then "true" else "false"))
            | _ => Value (VStr "undefined")
            end)
  else if String.eqb kind Kind.LIST then
    Some (fun tree =>
            match values tree with
            | None =>
                Throw (TypeError "Cannot read property 'map' of undefined")
            | Some nodes => fmap VArr (mapM parseLiteral nodes)
            end)
  else if String.eqb kind Kind.OBJECT then
    Some (fun tree =>
            match fields tree with
            | None =>
                Throw (TypeError "Cannot read property 'reduce' of undefined")
            | Some fs =>
                fmap VObj
                  (reduceM (fun fields field =>
                              v <- parseLiteral (snd field) ;;
                              Value (obj_set fields (fst field) v))
                           fs [])
            end)
  else None.

(** *** [internals.GraphQLJson.parseLiteral] (lines 30-34)

    [getParser] returning [null] makes [parser.call] throw.  The function
    refers to itself through [internals.GraphQLJson]; [stack] bounds the
    depth of that recursion, as the call stack does. *)
Definition parseLiteral_body (parseLiteral : Parser) (tree : Node)
  : Outcome JsVal :=
  match getParser parseLiteral (kind tree) with
  | None => Throw (TypeError "Cannot read property 'call' of null")
  | Some parser => parser tree
  end.

Fixpoint parseLiteral_within (stack : nat) (tree : Node) : Outcome JsVal :=
  match stack with
  | 0 => Throw (RangeError "Maximum call stack size exceeded")
  | S stack' => parseLiteral_body (parseLiteral_within stack') tree
  end.

(** With room for the literal's nesting depth the bound is never hit
    (see [parseLiteral_unfold] and [parseLiteral_stack_irrelevant]). *)
Definition GraphQLJson_parseLiteral (tree : Node) : Outcome JsVal :=
  parseLiteral_within (S (depth tree)) tree.

(** [serialize] and [parseValue] of the [JSON] scalar (lines 28-29). *)
Definition GraphQLJson_serialize (value : JsVal) : JsVal := value.
Definition GraphQLJson_parseValue (value : JsVal) : JsVal := value.

End Parser.

(** *** Registries *)

(** [internals.defaults.types[name]]; a miss is [undefined]. *)
Definition types_get (d : Defaults) (name : string) : OutputType :=
  match obj_get (types d) name with
  | Some t => t
  | None => NoType
  end.

(** [new GraphQl.GraphQLList(internals.defaults.types[name])].  Under
    the name [__proto__] the registry answers with its prototype, which
    is an object and not [undefined], and which [buildType] sets to the
    type of a collection of that identity; own properties being all
    that is modelled, the list is then taken to be made. *)
Definition list_of_registered (d : Defaults) (name : string)
  : Outcome OutputType :=
  if String.eqb name "__proto__" then Value (GraphQLList (types_get d name))
  else new_GraphQLList (types_get d name).

(** [internals.defaults.modelQueries[name].resolve(object, criteria)] *)
Definition modelQueries_resolve (d : Defaults) (name : string)
           (object : JsVal) (criteria : Obj JsVal) : Outcome Query :=
  match obj_get (modelQueries d) name with
  | None => Throw (TypeError "Cannot read property 'resolve' of undefined")
  | Some field => Value (resolve field object criteria)
  end.

(** *** [internals.buildType] (lines 77-145) *)

(** The resolver of a [model] attribute (lines 97-116).  It runs at
    query time and reads whatever [internals.defaults] is then. *)
Definition resolve_model (key model : string) (d : Defaults)
           (object : JsVal) (criteria : Obj JsVal) : Outcome Query :=
  fieldValue <- get object key ;;
  match collections_get (collections d) model with
  | None =>
      Throw (TypeError "Cannot read property 'primaryKey' of undefined")
  | Some referenced =>
      let pk := collection_primaryKey referenced in
      identifier <- get fieldValue pk ;;
      identifier <-
        (if negb (truthy identifier) then
           identifier <- get object pk ;;
           if negb (truthy identifier) then get object key
           else Value identifier
         else Value identifier) ;;
      let criteria := obj_set criteria pk identifier in
      modelQueries_resolve d (toLowerCase model) object criteria
  end.

(** The resolver of a [collection] attribute (lines 124-132);
    [collection] is the collection whose type is being built. *)
Definition resolve_collection (collection : Collection) (rules : Rules)
           (d : Defaults) (object : JsVal) (criteria : Obj JsVal)
  : Outcome Query :=
  match via rules with
  | None =>
      Throw (TypeError "Cannot read property 'toLowerCase' of undefined")
  | Some via =>
      parentKey <- get object (collection_primaryKey collection) ;;
      let criteria := obj_set criteria (toLowerCase via) parentKey in
      match Waterline.collection rules with
      | None =>
          Throw (TypeError "Cannot read property 'toLowerCase' of undefined")
      | Some name =>
          modelQueries_resolve d (toLowerCase name ++ "s") object
                               [("where", VObj criteria)]
      end
  end.

(** An output field [{type, resolve}]. *)
Record Field : Type := {
  field_type : OutputType;
  field_resolve : option (Defaults -> JsVal -> Obj JsVal -> Outcome Query)
}.

(** The [fields] thunk of a collection's output type (lines 86-143),
    evaluated against the module's state [d] of that moment.  The list
    of line 123 cannot be made of a type that is not registered. *)
Definition type_fields (collection : Collection) (d : Defaults)
  : Outcome (Obj Field) :=
  reduceM
    (fun fields attribute =>
       let key := fst attribute in
       let rules := snd attribute in
       match model rules with
       | Some model =>
           Value (obj_set fields key
                    {| field_type := types_get d (capitalize model);
                       field_resolve := Some (resolve_model key model) |})
       | None =>
           match Waterline.collection rules with
           | Some name =>
               list_type <- list_of_registered d (capitalize name) ;;
               Value (obj_set fields key
                        {| field_type := list_type;
                           field_resolve :=
                             Some (resolve_collection collection rules) |})
           | None =>
               t <- convertToGraphQlType (type rules) ;;
               Value (obj_set fields key
                        {| field_type :=
                             if required rules then GraphQLNonNull t else t;
                           field_resolve := None |})
           end
       end)
    (_attributes collection) [].

Definition buildType (collection : Collection) : M unit :=
  let collectionIdentity := capitalize (identity collection) in
  bindM read (fun d =>
  write (set_types
           (obj_set (types d) collectionIdentity
              (GraphQLObjectType
                 (capitalize collectionIdentity)
                 ("This represents a/an " ++ capitalize collectionIdentity)
                 collection))
           d)).

(** *** [internals.buildQueryFields] (lines 152-216)

    The list of line 210 is made of the collection's own type, which
    [buildType] must have registered: otherwise the constructor throws
    and line 215 is not reached. *)

(** The initial [findManyArgs] (lines 157-178). *)
Definition builtin_findManyArgs (exposeQueryLanguage : bool) : Obj Arg :=
  [("limit", {| arg_name := "limit"; arg_type := GraphQLInt |});
   ("skip", {| arg_name := "skip"; arg_type := GraphQLInt |});
   ("sort", {| arg_name := "sort"; arg_type := GraphQLString |})]
  ++ (if exposeQueryLanguage
      then [("where", {| arg_name := "where"; arg_type := GraphQLJson |})]
      else []).

(** [rules.hasOwnProperty('primaryKey') && rules.primaryKey ||
     rules.hasOwnProperty('unique') && rules.unique] *)
Definition identifying (rules : Rules) : bool :=
  match primaryKey rules with
  | Some true => true
  | _ => match unique rules with Some true => true | _ => false end
  end.

(** [findManyArgs.hasOwnProperty(key)]: the method is looked up on
    [findManyArgs] itself, where an attribute of that name hides it. *)
Definition findManyArgs_hasOwnProperty (findManyArgs : Obj Arg) (key : string)
  : Outcome bool :=
  if hasOwnProperty findManyArgs "hasOwnProperty"
  then Throw (TypeError "findManyArgs.hasOwnProperty is not a function")
  else Value (hasOwnProperty findManyArgs key).

(** The warning of line 200. *)
Definition collision_warning (collectionIdentity key : string) : string :=
  "Field '" ++ toLowerCase collectionIdentity ++ "." ++ key
    ++ "' will not be individually queryable. Use 'where' instead".

(** One round of the loop over the attributes (lines 180-201); the
    accumulator is [(findOneArgs, findManyArgs)]. *)
Definition classify_attribute (collectionIdentity : string) (expose : bool)
           (acc : Obj Arg * Obj Arg) (attribute : string * Rules)
  : M (Obj Arg * Obj Arg) :=
  let findOneArgs := fst acc in
  let findManyArgs := snd acc in
  let key := fst attribute in
  let rules := snd attribute in
  bindM (lift (findManyArgs_hasOwnProperty findManyArgs key)) (fun taken =>
  if negb taken then
    match Waterline.collection rules with
    | None =>
        bindM (lift (convertToGraphQlType (type rules))) (fun t =>
        let arg := {| arg_name := key; arg_type := t |} in
        if identifying rules
        then ret (obj_set findOneArgs key arg, findManyArgs)
        else ret (findOneArgs, obj_set findManyArgs key arg))
    | Some _ => ret acc
    end
  else if expose then
    bindM (warn (collision_warning collectionIdentity key)) (fun _ => ret acc)
  else ret acc).

Definition buildQueryFields (collection : Collection) : M unit :=
  let collectionAttributes := _attributes collection in
  let collectionIdentity := capitalize (identity collection) in
  bindM read (fun d0 =>
  let expose := exposeQueryLanguage d0 in
  bindM (forEachS (classify_attribute collectionIdentity expose)
                  collectionAttributes
                  ([], builtin_findManyArgs expose)) (fun acc =>
  let findOneArgs := fst acc in
  let findManyArgs := snd acc in
  bindM read (fun d =>
  let fields : Obj QueryField := [] in
  let fields :=
    obj_set fields (toLowerCase collectionIdentity)
      {| queryField_type := types_get d collectionIdentity;
         args := findOneArgs;
         resolve := fun object criteria => findOne collection criteria |} in
  bindM (lift (list_of_registered d collectionIdentity)) (fun list_type =>
  let fields :=
    obj_set fields (toLowerCase collectionIdentity ++ "s")
      {| queryField_type := list_type;
         args := findManyArgs;
         resolve := fun object criteria => find collection criteria |} in
  write (set_modelQueries (assign (modelQueries d) fields) d))))).

(** *** [internals.getQueries] (lines 60-70)

    The result is the root object type; its [fields] thunk reads the
    query-field registry when the schema is constructed. *)
Record RootType : Type := {
  root_name : string;
  root_description : string;
  root_fields : Defaults -> Obj QueryField
}.

Definition getQueries : M RootType :=
  bindM read (fun d =>
  bindM (forEach buildType (collection_values (collections d))) (fun _ =>
  bindM read (fun d =>
  bindM (forEach buildQueryFields (collection_values (collections d))) (fun _ =>
  ret {| root_name := "Schema";
         root_description := "Root of the Schema";
         root_fields := fun d => modelQueries d |})))).

(** A built schema: the root type's name and the fields its thunk gave
    to the [GraphQLSchema] constructor ([new GraphQl.GraphQLSchema], line
    50). *)
Record Schema : Type := {
  query_name : string;
  query_fields : Obj QueryField
}.

(** The constructor's walk over the types ([typeMapReducer]): depth
    first from a field's type, each name once.  It calls the [fields]
    thunk of an object type when it first meets it, and an exception of
    the thunk is the constructor's; an object type that bears the root
    type's name is a second type of that name, which the constructor
    refuses.  [stack] bounds the nesting of the walk, as the call stack
    does; [seen] are the names met so far. *)
Fixpoint collect_type (stack : nat) (d : Defaults) (root : string)
         (seen : list string) (type : OutputType) : Outcome (list string) :=
  match named_type type with
  | GraphQLObjectType name _ closure =>
      if String.eqb name root then
        Throw (LibraryError
                 ("Schema must contain unique named types but contains "
                  ++ "multiple types named " ++ dquote ++ name ++ dquote
                  ++ "."))
      else if existsb (String.eqb name) seen then Value seen
      else
        match stack with
        | 0 => Throw (RangeError "Maximum call stack size exceeded")
        | S stack' =>
            fields <- type_fields closure d ;;
            reduceM (fun seen field =>
                       collect_type stack' d root seen (field_type (snd field)))
                    fields (name :: seen)
        end
  | _ => Value seen
  end.

(** Room for every type that the registries can lead to: with it the
    walk from the registry's fields never runs out of stack (lemma
    [collect_type_within_stack]). *)
Definition stack_for (d : Defaults) : nat :=
  S (List.length (types d) + List.length (modelQueries d)).

Definition GraphQLSchema (query : RootType) : M Schema :=
  bindM read (fun d =>
  let fields := root_fields query d in
  bindM (lift (reduceM (fun seen field =>
                          collect_type (stack_for d) d (root_name query) seen
                                       (queryField_type (snd field)))
                       fields [])) (fun _ =>
  ret {| query_name := root_name query;
         query_fields := fields |})).

(** *** [getGraphQlSchema] (lines 44-53) *)
Definition getGraphQlSchema (config : Config) : M Schema :=
  match configSchema config with
  | Some e => throw e
  | None =>
      bindM read (fun d =>
      bindM (write (lodash_defaults config d)) (fun _ =>
      bindM getQueries GraphQLSchema))
  end.

(** What a caller can see of a schema: the root field names, and the
    argument names of each root field. *)
Definition field_names (s : Schema) : list string := keys (query_fields s).

Definition argument_names (s : Schema) : Obj (list string) :=
  map (fun kv => (fst kv, keys (args (snd kv)))) (query_fields s).

End Adapter.

Import Adapter.

(* ================================================================= *)
(** ** The older adapter ([src/lib/adapter.js]): its type converter *)

Module Lib.

(** [convertToGraphQLType(rules)] (lines 283-296): it has no [JSON]
    scalar, and reads [rules.type] itself. *)
Definition convertToGraphQLType (rules : Rules) : Outcome OutputType :=
  match type rules with
  | None =>
      Throw (TypeError "Cannot read property 'toLowerCase' of undefined")
  | Some type =>
      let tag := toLowerCase type in
      if String.eqb tag "string" then Value GraphQLString
      else if String.eqb tag "integer" then Value GraphQLInt
      else if String.eqb tag "boolean" then Value GraphQLBoolean
      else if String.eqb tag "float" then Value GraphQLFloat
      else Value GraphQLString
  end.

End Lib.

(* ================================================================= *)
(** ** A reference instance of the library's scalars

    graphql-js on literals written without an exponent and short enough
    to be exact as a double: [GraphQLInt] parses with [parseInt(value, 10)]
    and answers [null] outside 32 bits, [GraphQLFloat] parses with
    [parseFloat], [GraphQLBoolean] and [GraphQLString] return the node's
    value.  A node of another kind gives [null]. *)

Module Reference.

Fixpoint digits (s : string) (acc : Z) : option Z :=
  match s with
  | EmptyString => Some acc
  | String c rest =>
      if is_digit c
      then digits rest (10 * acc + Z.of_nat (nat_of_ascii c - 48))%Z
      else None
  end.

Definition natural (s : string) : option Z :=
  match s with
  | EmptyString => None
  | _ => digits s 0%Z
  end.

Definition integer (s : string) : option Z :=
  match s with
  | String "-"%char rest => option_map Z.opp (natural rest)
  | _ => natural s
  end.

Definition number_of_Z (z : Z) : float :=
  if (z <? 0)%Z
  then PrimFloat.opp (PrimFloat.of_uint63 (Uint63.of_Z (- z)))
  else PrimFloat.of_uint63 (Uint63.of_Z z).

(** The text before and after the first ['.']. *)
Fixpoint split_point (s : string) : string * option string :=
  match s with
  | EmptyString => (EmptyString, None)
  | String c rest =>
      if Ascii.eqb c "."%char then (EmptyString, Some rest)
      else let r := split_point rest in (String c (fst r), snd r)
  end.

Definition unsigned_decimal (s : string) : option float :=
  match split_point s with
  | (whole, None) => option_map number_of_Z (natural whole)
  | (whole, Some fraction) =>
      match natural whole, natural fraction with
      | Some w, Some f =>
          let scale := (10 ^ Z.of_nat (String.length fraction))%Z in
          Some (PrimFloat.div (number_of_Z (w * scale + f)) (number_of_Z scale))
      | _, _ => None
      end
  end.

Definition decimal (s : string) : option float :=
  match s with
  | String "-"%char rest => option_map PrimFloat.opp (unsigned_decimal rest)
  | _ => unsigned_decimal s
  end.

Definition int_parseLiteral (tree : Node) : Outcome JsVal :=
  match tree with
  | IntValue v =>
      match integer v, decimal v with
      | Some z, Some x =>
          if ((- 2147483648 <=? z) && (z <=? 2147483647))%Z
          then Value (VNum x)
          else Value VNull
      | _, _ => Value VNull
      end
  | _ => Value VNull
  end.

Definition float_parseLiteral (tree : Node) : Outcome JsVal :=
  match tree with
  | IntValue v | FloatValue v =>
      match decimal v with
      | Some x => Value (VNum x)
      | None => Throw (LibraryError "literal outside the reference instance")
      end
  | _ => Value VNull
  end.

Definition boolean_parseLiteral (tree : Node) : Outcome JsVal :=
  match tree with
  | BooleanValue b => Value (VBool b)
  | _ => Value VNull
  end.

Definition string_parseLiteral (tree : Node) : Outcome JsVal :=
  match tree with
  | StringValue s => Value (VStr s)
  | _ => Value VNull
  end.

#[export] Instance scalars : Scalars := {|
  GraphQLInt_parseLiteral := int_parseLiteral;
  GraphQLFloat_parseLiteral := float_parseLiteral;
  GraphQLBoolean_parseLiteral := boolean_parseLiteral;
  GraphQLString_parseLiteral := string_parseLiteral
|}.

End Reference.

(* ================================================================= *)
(** ** Closed forms of what the builders compute

    These are not part of the adapter: they say, without loops or state,
    what the theorems below prove the adapter's loops to produce. *)

Module Expected.

(** Distinct names that behave as the entries of a map: [__proto__] and
    [hasOwnProperty] carry a meaning of their own on the objects that the
    adapter fills, and an array index does not keep its place. *)
Definition insertion_ordered (names : list string) : Prop :=
  Forall (fun k => is_array_index k = false) names.

Definition plain_names (names : list string) : Prop :=
  NoDup names
  /\ ~ In "__proto__" names
  /\ ~ In "hasOwnProperty" names
  /\ insertion_ordered names.

(** The attribute's name is that of a built-in argument. *)
Definition collides (expose : bool) (key : string) : bool :=
  hasOwnProperty (builtin_findManyArgs expose) key.

(** The attribute becomes an argument of one of the two query fields. *)
Definition is_argument (expose : bool) (attribute : string * Rules) : bool :=
  negb (collides expose (fst attribute))
  && match collection (snd attribute) with None => true | Some _ => false end.

Definition has_type (rules : Rules) : bool :=
  match type rules with Some _ => true | None => false end.

(** Every attribute that becomes an argument has a type tag. *)
Definition arguments_typed (expose : bool) (attributes : Obj Rules) : Prop :=
  forall attribute,
    In attribute attributes ->
    is_argument expose attribute = true -> has_type (snd attribute) = true.

Definition scalar_of (type : option string) : OutputType :=
  match convertToGraphQlType type with
  | Value t => t
  | Throw _ => NoType
  end.

Definition arg_of (attribute : string * Rules) : string * Arg :=
  (fst attribute,
   {| arg_name := fst attribute;
      arg_type := scalar_of (type (snd attribute)) |}).

Definition findOneArgs_of (expose : bool) (attributes : Obj Rules) : Obj Arg :=
  map arg_of
      (filter (fun a => is_argument expose a && identifying (snd a)) attributes).

Definition findManyArgs_of (expose : bool) (attributes : Obj Rules) : Obj Arg :=
  builtin_findManyArgs expose
  ++ map arg_of
       (filter (fun a => is_argument expose a && negb (identifying (snd a)))
               attributes).

Definition warnings_of (expose : bool) (c : Collection) : list string :=
  if expose
  then map (collision_warning (capitalize (identity c)))
           (filter (collides expose) (keys (_attributes c)))
  else [].

(** The two query fields of a collection, given the option and the type
    registry at the time they are built. *)
Definition singular_name (c : Collection) : string :=
  toLowerCase (capitalize (identity c)).

Definition plural_name (c : Collection) : string :=
  (toLowerCase (capitalize (identity c)) ++ "s")%string.

Definition singular_field (expose : bool) (ts : Obj OutputType) (c : Collection)
  : QueryField :=
  {| queryField_type :=
       match obj_get ts (capitalize (identity c)) with
       | Some t => t | None => NoType end;
     args := findOneArgs_of expose (_attributes c);
     resolve := fun object criteria => findOne c criteria |}.

Definition plural_field (expose : bool) (ts : Obj OutputType) (c : Collection)
  : QueryField :=
  {| queryField_type :=
       GraphQLList match obj_get ts (capitalize (identity c)) with
                   | Some t => t | None => NoType end;
     args := findManyArgs_of expose (_attributes c);
     resolve := fun object criteria => find c criteria |}.

Definition query_fields_of (expose : bool) (ts : Obj OutputType) (c : Collection)
  : Obj QueryField :=
  obj_set (obj_set [] (singular_name c) (singular_field expose ts c))
          (plural_name c) (plural_field expose ts c).

Definition output_type_of (c : Collection) : OutputType :=
  GraphQLObjectType
    (capitalize (capitalize (identity c)))
    ("This represents a/an " ++ capitalize (capitalize (identity c)))
    c.

Definition register_type (ts : Obj OutputType) (c : Collection)
  : Obj OutputType :=
  obj_set ts (capitalize (identity c)) (output_type_of c).

Definition register_queries (expose : bool) (ts : Obj OutputType)
           (mq : Obj QueryField) (c : Collection) : Obj QueryField :=
  assign mq (query_fields_of expose ts c).

(** The output field that the [fields] thunk makes of one attribute
    (lines 93-139). *)
Definition field_of (collection : Collection) (d : Defaults)
           (attribute : string * Rules) : Outcome Field :=
  let key := fst attribute in
  let rules := snd attribute in
  match model rules with
  | Some model =>
      Value {| field_type := types_get d (capitalize model);
               field_resolve := Some (resolve_model key model) |}
  | None =>
      match Waterline.collection rules with
      | Some name =>
          list_type <- list_of_registered d (capitalize name) ;;
          Value {| field_type := list_type;
                   field_resolve := Some (resolve_collection collection rules) |}
      | None =>
          t <- convertToGraphQlType (type rules) ;;
          Value {| field_type := if required rules then GraphQLNonNull t else t;
                   field_resolve := None |}
      end
  end.

(** A collection that [buildQueryFields] gets through. *)
Definition buildable (expose : bool) (c : Collection) : Prop :=
  plain_names (keys (_attributes c))
  /\ arguments_typed expose (_attributes c).

(** The module's state after a build that got through. *)
Definition built (config : Config) (d : Defaults) : Defaults :=
  let d1 := lodash_defaults config d in
  let cs := collection_values (collections d1) in
  let ts := fold_left register_type cs (types d1) in
  set_modelQueries
    (fold_left (register_queries (exposeQueryLanguage d1) ts) cs
               (modelQueries d1))
    (set_types ts d1).

(** [w] with [internals.defaults] changed by [f]. *)
Definition updated (f : Defaults -> Defaults) (w : World) : World :=
  {| defaults := f (defaults w); console := console w |}.

(** [w] with [messages] added to the console. *)
Definition logged (messages : list string) (w : World) : World :=
  {| defaults := defaults w; console := console w ++ messages |}.

(** The exceptions the loops of a build can throw, and the exceptions a
    build can end with. *)
Definition loop_error (e : Error) : Prop :=
  e = TypeError "Cannot read property 'toLowerCase' of undefined"
  \/ e = TypeError "findManyArgs.hasOwnProperty is not a function"
  \/ e = LibraryError
           "Can only create List of a GraphQLType but got: undefined.".

Definition build_error (e : Error) : Prop :=
  (exists message, e = ValidationError message)
  \/ loop_error e
  \/ e = LibraryError
           ("Schema must contain unique named types but contains "
            ++ "multiple types named " ++ dquote ++ "Schema" ++ dquote ++ ".").

(** The root type that [getQueries] returns (lines 65-69). *)
Definition root_type : RootType :=
  {| root_name := "Schema";
     root_description := "Root of the Schema";
     root_fields := fun d => modelQueries d |}.

(** The names of the object types that the registries hold: the walk
    of the schema constructor meets no other. *)
Definition registered_names (d : Defaults) : list string :=
  flat_map (fun entry => object_name (snd entry)) (types d)
  ++ flat_map (fun entry => object_name (queryField_type (snd entry)))
              (modelQueries d).

(** The registry has a type for the collection, as it has once
    [buildType] has run for it. *)
Definition type_registered (d : Defaults) (c : Collection) : Prop :=
  types_get d (capitalize (identity c)) <> NoType.

(** Line 210 gets its list type for the collection: its type is
    registered, or its name is read from the prototype. *)
Definition list_made (d : Defaults) (c : Collection) : Prop :=
  capitalize (identity c) = "__proto__" \/ type_registered d c.

(** [m] throws nothing but exceptions in [P]. *)
Definition throws_only {A} (P : Error -> Prop) (m : M A) : Prop :=
  forall w e w', m w = (Throw e, w') -> P e.

(** The argument names of the field registered under [n], if any. *)
Definition args_view (mq : Obj QueryField) (n : string) : option (list string) :=
  option_map (fun f => keys (args f)) (obj_get mq n).

(** The argument names under [n] after the collections [cs] registered
    their fields over an entry with argument names [before]: those of the
    last collection that derives the name [n]. *)
Definition last_registered (expose : bool) (n : string) (cs : list Collection)
           (before : option (list string)) : option (list string) :=
  fold_left (fun acc c =>
               match args_view (query_fields_of expose [] c) n with
               | Some names => Some names
               | None => acc
               end) cs before.

(** Every name registered in [w] is still registered in [w']. *)
Definition registries_grow (w w' : World) : Prop :=
  (forall n, In n (keys (modelQueries (defaults w))) ->
             In n (keys (modelQueries (defaults w'))))
  /\ (forall n, In n (keys (types (defaults w))) ->
                In n (keys (types (defaults w')))).

(** The kinds [getParser] knows. *)
Definition supported_kinds : list string :=
  [Kind.INT; Kind.FLOAT; Kind.BOOLEAN; Kind.STRING;
   Kind.ENUM; Kind.LIST; Kind.OBJECT].

End Expected.

Import Expected.

(* ================================================================= *)
(** ** Sample collections and configurations *)

Module Examples.

Definition scalar (t : string) : Rules :=
  {| model := None; collection := None; via := None; type := Some t;
     required := false; primaryKey := None; unique := None |}.

Definition key_of (t : string) : Rules :=
  {| model := None; collection := None; via := None; type := Some t;
     required := false; primaryKey := Some true; unique := None |}.

Definition unique_of (t : string) : Rules :=
  {| model := None; collection := None; via := None; type := Some t;
     required := false; primaryKey := None; unique := Some true |}.

(** [{model: m, type: t}]: a foreign key held by this collection. *)
Definition belongsTo (m t : string) : Rules :=
  {| model := Some m; collection := None; via := None; type := Some t;
     required := false; primaryKey := None; unique := None |}.

(** [{collection: c, via: f}] *)
Definition hasMany (c f : string) : Rules :=
  {| model := None; collection := Some c; via := Some f; type := None;
     required := false; primaryKey := None; unique := None |}.

Definition User : Collection :=
  {| identity := "user";
     _attributes := [("id", key_of "integer");
                     ("firstName", scalar "string");
                     ("email", unique_of "string");
                     ("articles", hasMany "article" "author")];
     collection_primaryKey := "id" |}.

Definition Article : Collection :=
  {| identity := "article";
     _attributes := [("id", key_of "integer");
                     ("title", scalar "string");
                     ("author", belongsTo "user" "integer")];
     collection_primaryKey := "id" |}.

(** A collection whose identity is the plural of [User]'s. *)
Definition Users : Collection :=
  {| identity := "users";
     _attributes := [("id", key_of "integer"); ("label", scalar "string")];
     collection_primaryKey := "id" |}.

(** Attributes that bear the names of the built-in arguments. *)
Definition Page : Collection :=
  {| identity := "page";
     _attributes := [("id", key_of "integer");
                     ("sort", scalar "integer");
                     ("where", scalar "integer");
                     ("limit", unique_of "integer")];
     collection_primaryKey := "id" |}.

(** The literal [{a: 1, b: [true, "x"], c: 2.5}] and its native value. *)
Definition sample_literal : Node :=
  ObjectValue [("a", IntValue "1");
               ("b", ListValue [BooleanValue true; StringValue "x"]);
               ("c", FloatValue "2.5")].


(** Comments refer to their author through [authorId]. *)
Definition Comment : Collection :=
  {| identity := "comment";
     _attributes := [("id", key_of "integer");
                     ("text", scalar "string");
                     ("authorId", belongsTo "author" "integer")];
     collection_primaryKey := "id" |}.

Definition Author : Collection :=
  {| identity := "author";
     _attributes := [("id", key_of "integer");
                     ("comments", hasMany "comment" "authorId")];
     collection_primaryKey := "id" |}.

Definition forum : Collections :=
  AsObject [("author", Author); ("comment", Comment)].

Definition comments : list JsVal :=
  [VObj [("id", VNum 1%float); ("text", VStr "first"); ("authorId", VNum 5%float)];
   VObj [("id", VNum 2%float); ("text", VStr "second"); ("authorId", VNum 6%float)]].

(** Articles, for the blog. *)
Definition articles : list JsVal :=
  [VObj [("id", VNum 10%float); ("title", VStr "On maps"); ("author", VNum 3%float)];
   VObj [("id", VNum 11%float); ("title", VStr "On charts"); ("author", VNum 4%float)];
   VObj [("id", VNum 12%float); ("title", VStr "On stars"); ("author", VNum 3%float)]].

(** Two collections that refer to no other; the plural of the first is
    the identity of the second. *)
Definition Tag : Collection :=
  {| identity := "tag";
     _attributes := [("id", key_of "integer"); ("label", scalar "string")];
     collection_primaryKey := "id" |}.

Definition Tags : Collection :=
  {| identity := "tags";
     _attributes := [("id", key_of "integer"); ("count", scalar "integer")];
     collection_primaryKey := "id" |}.

(** [{collections: cs}] and [{collections: cs, exposeQueryLanguage: b}] *)
Definition config_of (cs : Collections) : Config :=
  {| config_collections := Some cs;
     config_exposeQueryLanguage := None;
     config_modelQueries := None;
     config_types := None |}.

Definition config_with (cs : Collections) (expose : bool) : Config :=
  {| config_collections := Some cs;
     config_exposeQueryLanguage := Some expose;
     config_modelQueries := None;
     config_types := None |}.

Definition blog : Collections :=
  AsObject [("user", User); ("article", Article)].

(** The world after [getGraphQlSchema(config)] was run in [w]. *)
Definition after (config : Config) (w : World) : World :=
  snd (getGraphQlSchema config w).

(** The schema that [getGraphQlSchema(config)] returns in [w], if any. *)
Definition schema_of (config : Config) (w : World) : option Schema :=
  match fst (getGraphQlSchema config w) with
  | Value s => Some s
  | Throw _ => None
  end.

End Examples.

(* ================================================================= *)
(** ** Collections in the order of a build *)

(** [c] is the last of [cs] for which [p] holds. *)
Definition last_such (p : Collection -> Prop) (cs : list Collection)
           (c : Collection) : Prop :=
  exists before after,
    cs = before ++ c :: after /\ p c /\ forall c', In c' after -> ~ p c'.

(** An attribute that is neither a [model] nor a [collection]. *)
Definition is_scalar (rules : Rules) : bool :=
  match model rules, Waterline.collection rules with
  | None, None => true
  | _, _ => false
  end.

(** The collections that a build with [config] in world [w] goes
    through, and the option it builds with. *)
Definition built_collections (config : Config) (w : World) : list Collection :=
  collection_values (collections (lodash_defaults config (defaults w))).

Definition built_expose (config : Config) (w : World) : bool :=
  exposeQueryLanguage (lodash_defaults config (defaults w)).

(* ================================================================= *)
(** ** The older adapter ([src/lib/adapter.js]): the rest of the module

    The module is written against lodash 3, where [_.omit] takes a
    predicate.  Its state is [this.defaults]; the functions below pass it
    explicitly. *)

Module LibAdapter.

(** *** lodash predicates *)

Definition isUndefined (v : JsVal) : bool :=
  match v with VUndefined => true | _ => false end.

Definition isNull (v : JsVal) : bool :=
  match v with VNull => true | _ => false end.

Definition isNumber (v : JsVal) : bool :=
  match v with VNum _ => true | _ => false end.

(** [_.isEmpty]: a string or an array is empty when its length is zero,
    anything else when it has no own enumerable property. *)
Definition isEmpty (v : JsVal) : bool :=
  match v with
  | VUndefined | VNull | VBool _ | VNum _ => true
  | VStr s => String.eqb s ""
  | VArr [] => true
  | VArr _ => false
  | VObj [] => true
  | VObj _ => false
  end.

(** [delete o[k]] *)
Definition obj_delete {V} (o : Obj V) (k : string) : Obj V :=
  filter (fun kv => negb (String.eqb (fst kv) k)) o.

(** *** [handleDateFilter] (lines 303-319) *)

(** [new Date(value)] *)
Inductive Date : Type := newDate (value : JsVal).

(** A value of the filters object: a criterion as it was received, or
    the [createdAt] object that [handleDateFilter] makes, which has a
    date under ['>'], under ['<'], under both or under neither. *)
Inductive FilterValue : Type :=
| Criterion (v : JsVal)
| Range (bounds : Obj Date).

(** [_.isEmpty(filters[k])] *)
Definition isEmpty_at (filters : Obj FilterValue) (k : string) : bool :=
  match obj_get filters k with
  | None => true
  | Some (Criterion v) => isEmpty v
  | Some (Range []) => true
  | Some (Range _) => false
  end.

(** [filters[k]] as the argument of [new Date] *)
Definition criterion_at (filters : Obj FilterValue) (k : string) : JsVal :=
  match obj_get filters k with
  | Some (Criterion v) => v
  | _ => VUndefined
  end.

(** [filters.createdAt[bound] = new Date(filters[k]); delete filters[k]] *)
Definition move_bound (bound k : string) (filters : Obj FilterValue)
  : Obj FilterValue :=
  let date := newDate (criterion_at filters k) in
  let createdAt :=
    match obj_get filters "createdAt" with
    | Some (Range bounds) => Range (obj_set bounds bound date)
    | _ => Range [(bound, date)]
    end in
  obj_delete (obj_set filters "createdAt" createdAt) k.

Definition handleDateFilter (filters : Obj FilterValue) : Obj FilterValue :=
  let filters := obj_set filters "createdAt" (Range []) in
  let filters :=
    if negb (isEmpty_at filters "start")
    then move_bound ">" "start" filters else filters in
  let filters :=
    if negb (isEmpty_at filters "end")
    then move_bound "<" "end" filters else filters in
  filters.

(** The predicate given to [_.omit] on lines 171-173 (and 190, 214, 232):
    [_.isUndefined(value) || _.isNumber(value) ? _.isNull(value)
                                                : _.isEmpty(value)]. *)
Definition omitted (value : FilterValue) : bool :=
  match value with
  | Criterion v =>
      if isUndefined v || isNumber v then isNull v else isEmpty v
  | Range [] => true
  | Range _ => false
  end.

(** lodash 3 [_.omit(object, predicate)] *)
Definition omit (object : Obj FilterValue) (predicate : FilterValue -> bool)
  : Obj FilterValue :=
  filter (fun kv => negb (predicate (snd kv))) object.

(** The criteria as a resolver receives them. *)
Definition received (criteria : Obj JsVal) : Obj FilterValue :=
  map (fun kv => (fst kv, Criterion (snd kv))) criteria.

(** [_.omit(handleDateFilter(criteria), ...)], the filters of every
    resolver but the singular one. *)
Definition filters_of (criteria : Obj JsVal) : Obj FilterValue :=
  omit (handleDateFilter (received criteria)) omitted.

(** *** Store queries and query fields *)

(** [collection.findOne(criteria).populateAll()],
    [collection.find(filters).populateAll(...)] with the arguments of
    [populateAll] (none, or the empty string and [parent]), and
    [collection.count(filters)]. *)
Inductive Query : Type :=
| findOne (c : Collection) (criteria : Obj JsVal)
| find (c : Collection) (filters : Obj FilterValue) (populate : option JsVal)
| count (c : Collection) (filters : Obj FilterValue).

(** A query field; [args] is absent on the counting field until the
    date arguments are added.  [resolve] takes [(object, criteria,
    parent)]. *)
Record QueryField : Type := {
  queryField_type : OutputType;
  args : option (Obj Arg);
  resolve : JsVal -> Obj JsVal -> JsVal -> Query
}.

(** [this.defaults] (lines 11-14), with the two registries that
    [getQueries] creates on it. *)
Record Defaults : Type := {
  collections : Collections;
  usefulFunctions : bool;
  types : Obj OutputType;
  queryFields : Obj QueryField
}.

Definition initial_defaults : Defaults :=
  {| collections := AsObject [];
     usefulFunctions := true;
     types := [];
     queryFields := [] |}.

(** The [params] object. *)
Record Params : Type := {
  params_collections : option Collections;
  params_usefulFunctions : option bool
}.

Definition set_types (ts : Obj OutputType) (d : Defaults) : Defaults :=
  {| collections := collections d;
     usefulFunctions := usefulFunctions d;
     types := ts;
     queryFields := queryFields d |}.

Definition set_queryFields (qf : Obj QueryField) (d : Defaults) : Defaults :=
  {| collections := collections d;
     usefulFunctions := usefulFunctions d;
     types := types d;
     queryFields := qf |}.

(** lodash 3 [_.capitalize]: the first character to upper case, the
    others as they are. *)
Definition capitalize (s : string) : string :=
  match s with
  | EmptyString => EmptyString
  | String c rest => String (upper_ascii c) rest
  end.

(** *** [buildType] (lines 82-128) *)

Definition types_get (d : Defaults) (name : string) : OutputType :=
  match obj_get (types d) name with
  | Some t => t
  | None => NoType
  end.

(** [new GraphQL.GraphQLList(self.defaults.types[name])], with the
    name [__proto__] as in the adapter. *)
Definition list_of_registered (d : Defaults) (name : string)
  : Outcome OutputType :=
  if String.eqb name "__proto__" then Value (GraphQLList (types_get d name))
  else new_GraphQLList (types_get d name).

(** The resolver of a [model] attribute (lines 97-101). *)
Definition resolve_model (model : string) (d : Defaults) (object : JsVal)
  : Outcome Query :=
  match obj_get (queryFields d) (toLowerCase model) with
  | None => Throw (TypeError "Cannot read property 'resolve' of undefined")
  | Some field =>
      id <- get object "id" ;;
      Value (resolve field object [("id", id)] VUndefined)
  end.

(** The resolver of a [collection] attribute (lines 106-113). *)
Definition resolve_collection (rules : Rules) (d : Defaults) (object : JsVal)
  : Outcome Query :=
  let criteria : Obj JsVal := [] in
  match via rules with
  | None =>
      Throw (TypeError "Cannot read property 'toLowerCase' of undefined")
  | Some via =>
      id <- get object "id" ;;
      let criteria := obj_set criteria (toLowerCase via) id in
      match Waterline.collection rules with
      | None =>
          Throw (TypeError "Cannot read property 'toLowerCase' of undefined")
      | Some name =>
          match obj_get (queryFields d) (toLowerCase name ++ "s") with
          | None =>
              Throw (TypeError "Cannot read property 'resolve' of undefined")
          | Some field =>
              Value (resolve field object [] (VObj [("where", VObj criteria)]))
          end
      end
  end.

Record Field : Type := {
  field_type : OutputType;
  field_resolve : option (Defaults -> JsVal -> Outcome Query)
}.

(** The [fields] thunk of lines 90-123. *)
Definition type_fields (collection : Collection) (d : Defaults)
  : Outcome (Obj Field) :=
  reduceM
    (fun fields attribute =>
       let key := fst attribute in
       let rules := snd attribute in
       match model rules with
       | Some model =>
           Value (obj_set fields key
                    {| field_type := types_get d (capitalize model);
                       field_resolve := Some (resolve_model model) |})
       | None =>
           match Waterline.collection rules with
           | Some name =>
               list_type <- list_of_registered d (capitalize name) ;;
               Value (obj_set fields key
                        {| field_type := list_type;
                           field_resolve := Some (resolve_collection rules) |})
           | None =>
               t <- Lib.convertToGraphQLType rules ;;
               Value (obj_set fields key
                        {| field_type :=
                             if required rules then GraphQLNonNull t else t;
                           field_resolve := None |})
           end
       end)
    (_attributes collection) [].

Definition buildType (collection : Collection) (d : Defaults) : Defaults :=
  let collectionIdentity := capitalize (identity collection) in
  set_types
    (obj_set (types d) collectionIdentity
       (GraphQLObjectType
          (capitalize collectionIdentity)
          ("This represents a/an " ++ capitalize collectionIdentity)
          collection))
    d.

(** *** [buildQueryFields] (lines 135-259) *)

Definition date_arg (name : string) : Arg :=
  {| arg_name := name; arg_type := GraphQLString |}.

(** The body of the loop of lines 242-256. *)
Definition with_date_args (field : QueryField) : QueryField :=
  let args0 :=
    match args field with
    | None => []
    | Some [] => []
    | Some a => a
    end in
  {| queryField_type := queryField_type field;
     args := Some (obj_set (obj_set args0 "start" (date_arg "start"))
                           "end" (date_arg "end"));
     resolve := resolve field |}.

(** Lines 194-198 and 218-222: the filters of the two ordered lists. *)
Definition ordered_filters (order : string) (criteria : Obj JsVal)
  : Obj FilterValue :=
  let filters := filters_of criteria in
  let filters := obj_set filters "sort" (Criterion (VStr order)) in
  let filters :=
    obj_set filters "limit"
            (match obj_get filters "count" with
             | Some value => value
             | None => Criterion VUndefined
             end) in
  obj_delete filters "count".

Definition count_arg : Obj Arg :=
  [("count", {| arg_name := "count"; arg_type := GraphQLNonNull GraphQLInt |})].

(** The local [fields] of [buildQueryFields] when it is assigned to the
    registry (line 258); [useful] is [this.defaults.usefulFunctions] and
    [ts] is [this.defaults.types].  The lower-case identity is taken not
    to be [__proto__], which would make the first assignment change the
    prototype of [fields]. *)
Definition query_fields_of (useful : bool) (ts : Obj OutputType)
           (collection : Collection) : Obj QueryField :=
  let collectionIdentity := capitalize (identity collection) in
  let own_type :=
    match obj_get ts collectionIdentity with Some t => t | None => NoType end in
  let list_type := GraphQLList own_type in
  let fields : Obj QueryField := [] in
  let fields :=
    obj_set fields (toLowerCase collectionIdentity)
      {| queryField_type := own_type;
         args := Some [("id", {| arg_name := "id";
                                 arg_type := GraphQLNonNull GraphQLString |})];
         resolve := fun object criteria parent => findOne collection criteria |} in
  let fields :=
    obj_set fields (toLowerCase collectionIdentity ++ "s")
      {| queryField_type := list_type;
         args := Some [("limit", {| arg_name := "limit"; arg_type := GraphQLInt |});
                       ("skip", {| arg_name := "skip"; arg_type := GraphQLInt |});
                       ("sort", {| arg_name := "sort"; arg_type := GraphQLString |})];
         resolve := fun object criteria parent =>
                      find collection (filters_of criteria) (Some parent) |} in
  let fields :=
    if useful then
      let fields :=
        obj_set fields ("getLatest" ++ collectionIdentity ++ "s")
          {| queryField_type := list_type;
             args := Some count_arg;
             resolve := fun object criteria parent =>
                          find collection
                               (ordered_filters "createdAt DESC" criteria)
                               None |} in
      let fields :=
        obj_set fields ("getFirst" ++ collectionIdentity ++ "s")
          {| queryField_type := list_type;
             args := Some count_arg;
             resolve := fun object criteria parent =>
                          find collection
                               (ordered_filters "createdAt ASC" criteria)
                               None |} in
      obj_set fields ("count" ++ collectionIdentity ++ "s")
        {| queryField_type := GraphQLInt;
           args := None;
           resolve := fun object criteria parent =>
                        count collection (filters_of criteria) |}
    else fields in
  (* lines 242-256: every field but the singular one gets the date
     arguments *)
  map (fun kv =>
         (fst kv,
          if String.eqb (fst kv) (toLowerCase collectionIdentity) then snd kv
          else with_date_args (snd kv)))
      fields.

(** The list of the collection's own type is made on line 155 (and
    again on lines 182 and 206); the registry is not touched when the
    constructor refuses. *)
Definition buildQueryFields (collection : Collection) (d : Defaults)
  : Outcome Defaults :=
  _ <- list_of_registered d (capitalize (identity collection)) ;;
  Value (set_queryFields
           (assign (queryFields d)
                   (query_fields_of (usefulFunctions d) (types d) collection))
           d).

(** [_.forEach] over the collections, [this.defaults] being passed
    along: an exception ends the loop and leaves what the calls before
    it have done. *)
Fixpoint forEach (f : Collection -> Defaults -> Outcome Defaults)
         (cs : list Collection) (d : Defaults) : Outcome unit * Defaults :=
  match cs with
  | [] => (Value tt, d)
  | c :: cs =>
      match f c d with
      | Value d' => forEach f cs d'
      | Throw e => (Throw e, d)
      end
  end.

(** *** [getQueries] (lines 43-68), [getGraphQLSchema] (lines 22-36) *)

Record Schema : Type := {
  query_name : string;
  query_fields : Obj QueryField
}.

Definition getQueries (d : Defaults) : Outcome unit * Defaults :=
  let d := set_queryFields [] (set_types [] d) in
  let d := fold_left (fun d c => buildType c d)
                     (collection_values (collections d)) d in
  forEach buildQueryFields (collection_values (collections d)) d.

(** [_.isEmpty(params.collections)] *)
Definition no_collections (cs : option Collections) : bool :=
  match cs with
  | None => true
  | Some (AsObject []) => true
  | Some (AsArray []) => true
  | Some _ => false
  end.

(** What a call of [getGraphQLSchema] comes to: the error text or a
    schema, which it returns, or an exception, which it throws. *)
Inductive Result : Type :=
| ErrorText (text : string)
| Built (schema : Schema)
| Thrown (e : Error).

(** [new GraphQL.GraphQLSchema({query: Query})] (lines 30-32), with the
    walk of the types as in the adapter: the root type is named
    [Schema], and its fields are the registry's. *)
Fixpoint collect_type (stack : nat) (d : Defaults) (root : string)
         (seen : list string) (type : OutputType) : Outcome (list string) :=
  match named_type type with
  | GraphQLObjectType name _ closure =>
      if String.eqb name root then
        Throw (LibraryError
                 ("Schema must contain unique named types but contains "
                  ++ "multiple types named " ++ dquote ++ name ++ dquote ++ "."))
      else if existsb (String.eqb name) seen then Value seen
      else
        match stack with
        | 0 => Throw (RangeError "Maximum call stack size exceeded")
        | S stack' =>
            fields <- type_fields closure d ;;
            reduceM (fun seen field =>
                       collect_type stack' d root seen (field_type (snd field)))
                    fields (name :: seen)
        end
  | _ => Value seen
  end.

(** Room for every type that the registries can lead to. *)
Definition stack_for (d : Defaults) : nat :=
  S (List.length (types d) + List.length (queryFields d)).

Definition GraphQLSchema (d : Defaults) : Outcome Schema :=
  let fields := queryFields d in
  _ <- reduceM (fun seen field =>
                  collect_type (stack_for d) d "Schema" seen
                               (queryField_type (snd field)))
               fields [] ;;
  Value {| query_name := "Schema"; query_fields := fields |}.

Definition lodash_defaults (params : Params) (source : Defaults) : Defaults :=
  {| collections :=
       match params_collections params with
       | Some c => c | None => collections source end;
     usefulFunctions :=
       match params_usefulFunctions params with
       | Some b => b | None => usefulFunctions source end;
     types := types source;
     queryFields := queryFields source |}.

Definition getGraphQLSchema (params : Params) (d : Defaults)
  : Result * Defaults :=
  if no_collections (params_collections params)
  then (ErrorText "Error: Empty object collections", d)
  else
    let (queries, d) := getQueries (lodash_defaults params d) in
    (match queries with
     | Throw e => Thrown e
     | Value _ =>
         match GraphQLSchema d with
         | Value schema => Built schema
         | Throw e => Thrown e
         end
     end, d).

(** [getMutations] (lines 75-77) and [buildMutation] (lines 266-273) *)
Definition getMutations : bool := false.
Definition buildMutation : bool := false.

Definition field_names (s : Schema) : list string := keys (query_fields s).

End LibAdapter.

(* ================================================================= *)
(** ** Closed forms for the older adapter *)

Module LibExpected.

Import LibAdapter.

(** The [createdAt] bounds that the criteria call for. *)
Definition date_bounds (criteria : Obj JsVal) : Obj Date :=
  let at_ k := match obj_get criteria k with Some v => v | None => VUndefined end in
  (if negb (isEmpty (at_ "start")) then [(">", newDate (at_ "start"))] else [])
  ++ (if negb (isEmpty (at_ "end")) then [("<", newDate (at_ "end"))] else []).

(** The criterion [k: v] reaches the store as it is. *)
Definition forwarded (k : string) (v : JsVal) : bool :=
  negb (String.eqb k "createdAt")
  && negb ((String.eqb k "start" || String.eqb k "end") && negb (isEmpty v))
  && negb (omitted (Criterion v)).

(** The names of the query fields of a collection. *)
Definition singular_name (c : Collection) : string :=
  toLowerCase (capitalize (identity c)).

Definition plural_name (c : Collection) : string :=
  (toLowerCase (capitalize (identity c)) ++ "s")%string.

Definition latest_name (c : Collection) : string :=
  ("getLatest" ++ capitalize (identity c) ++ "s")%string.

Definition first_name (c : Collection) : string :=
  ("getFirst" ++ capitalize (identity c) ++ "s")%string.

Definition count_name (c : Collection) : string :=
  ("count" ++ capitalize (identity c) ++ "s")%string.

Definition names_of (useful : bool) (c : Collection) : list string :=
  [singular_name c; plural_name c]
  ++ (if useful then [latest_name c; first_name c; count_name c] else []).

(** The names of the arguments of a query field. *)
Definition argument_names (field : QueryField) : list string :=
  match args field with
  | Some a => keys a
  | None => []
  end.

(** The collection can be given to [buildQueryFields]. *)
Definition buildable (c : Collection) : Prop :=
  singular_name c <> "__proto__".

(** The type that [buildType] registers for a collection, and the type
    found under its name in a registry. *)
Definition output_type_of (c : Collection) : OutputType :=
  GraphQLObjectType
    (capitalize (capitalize (identity c)))
    ("This represents a/an " ++ capitalize (capitalize (identity c)))
    c.

Definition own_type (ts : Obj OutputType) (c : Collection) : OutputType :=
  match obj_get ts (capitalize (identity c)) with
  | Some t => t
  | None => NoType
  end.

(** The five query fields as they are registered. *)
Definition singular_field (ts : Obj OutputType) (c : Collection) : QueryField :=
  {| queryField_type := own_type ts c;
     args := Some [("id", {| arg_name := "id";
                             arg_type := GraphQLNonNull GraphQLString |})];
     resolve := fun object criteria parent => findOne c criteria |}.

Definition plural_field (ts : Obj OutputType) (c : Collection) : QueryField :=
  {| queryField_type := GraphQLList (own_type ts c);
     args := Some [("limit", {| arg_name := "limit"; arg_type := GraphQLInt |});
                   ("skip", {| arg_name := "skip"; arg_type := GraphQLInt |});
                   ("sort", {| arg_name := "sort"; arg_type := GraphQLString |});
                   ("start", date_arg "start");
                   ("end", date_arg "end")];
     resolve := fun object criteria parent =>
                  find c (filters_of criteria) (Some parent) |}.

Definition ordered_field (order : string) (ts : Obj OutputType) (c : Collection)
  : QueryField :=
  {| queryField_type := GraphQLList (own_type ts c);
     args := Some [("count", {| arg_name := "count";
                                arg_type := GraphQLNonNull GraphQLInt |});
                   ("start", date_arg "start");
                   ("end", date_arg "end")];
     resolve := fun object criteria parent =>
                  find c (ordered_filters order criteria) None |}.

Definition count_field (c : Collection) : QueryField :=
  {| queryField_type := GraphQLInt;
     args := Some [("start", date_arg "start"); ("end", date_arg "end")];
     resolve := fun object criteria parent => count c (filters_of criteria) |}.

Definition fields_of (useful : bool) (ts : Obj OutputType) (c : Collection)
  : Obj QueryField :=
  [(singular_name c, singular_field ts c); (plural_name c, plural_field ts c)]
  ++ (if useful
      then [(latest_name c, ordered_field "createdAt DESC" ts c);
            (first_name c, ordered_field "createdAt ASC" ts c);
            (count_name c, count_field c)]
      else []).

(** The two registries after the collections [cs] were built from
    nothing. *)
Definition register_type (ts : Obj OutputType) (c : Collection)
  : Obj OutputType :=
  obj_set ts (capitalize (identity c)) (output_type_of c).

Definition built_types (cs : list Collection) : Obj OutputType :=
  fold_left register_type cs [].

Definition built_fields (useful : bool) (cs : list Collection)
  : Obj QueryField :=
  fold_left (fun qf c => assign qf (query_fields_of useful (built_types cs) c))
            cs [].

(** The output field that the [fields] thunk makes of one attribute
    (lines 94-119). *)
Definition field_of (d : Defaults) (attribute : string * Rules)
  : Outcome Field :=
  let rules := snd attribute in
  match model rules with
  | Some model =>
      Value {| field_type := types_get d (capitalize model);
               field_resolve := Some (resolve_model model) |}
  | None =>
      match Waterline.collection rules with
      | Some name =>
          list_type <- list_of_registered d (capitalize name) ;;
          Value {| field_type := list_type;
                   field_resolve := Some (resolve_collection rules) |}
      | None =>
          t <- Lib.convertToGraphQLType rules ;;
          Value {| field_type := if required rules then GraphQLNonNull t else t;
                   field_resolve := None |}
      end
  end.

(** The names of the object types that the registries hold. *)
Definition registered_names (d : Defaults) : list string :=
  flat_map (fun entry => object_name (snd entry)) (types d)
  ++ flat_map (fun entry => object_name (queryField_type (snd entry)))
              (queryFields d).

(** The scalar of a type tag in the older adapter. *)
Definition scalar_of_tag (tag : string) : OutputType :=
  let tag := toLowerCase tag in
  if String.eqb tag "integer" then GraphQLInt
  else if String.eqb tag "boolean" then GraphQLBoolean
  else if String.eqb tag "float" then GraphQLFloat
  else GraphQLString.

(** [usefulFunctions] as a build with [params] in state [d] sees it. *)
Definition useful_in (params : Params) (d : Defaults) : bool :=
  match params_usefulFunctions params with
  | Some b => b
  | None => usefulFunctions d
  end.

(** The state after [getGraphQLSchema(params)] was run in [d]. *)
Definition after (params : Params) (d : Defaults) : Defaults :=
  snd (getGraphQLSchema params d).


End LibExpected.

Module MoreExamples.

Import Examples LibAdapter.

(** Notes, whose [body] has no type. *)
Definition Note : Collection :=
  {| identity := "note";
     _attributes := [("id", key_of "integer");
                     ("sort", scalar "string");
                     ("body", {| model := None; collection := None;
                                 via := None; type := None;
                                 required := false; primaryKey := None;
                                 unique := None |});
                     ("author", belongsTo "user" "integer")];
     collection_primaryKey := "id" |}.

(** Objects, which have an attribute named like a method of every
    object. *)
Definition Thing : Collection :=
  {| identity := "thing";
     _attributes := [("id", key_of "integer");
                     ("hasOwnProperty", scalar "boolean");
                     ("label", scalar "string")];
     collection_primaryKey := "id" |}.

Definition notebook : Collections :=
  AsObject [("user", User); ("note", Note); ("article", Article)].

(** [{collections: blog}] for the older adapter *)
Definition lib_blog : Params :=
  {| params_collections := Some blog; params_usefulFunctions := None |}.

End MoreExamples.

(* ================================================================= *)
(** ** Literals that the [JSON] scalar parses *)

Module Literals.

(** No node outside the seven shapes bears the kind of one of them. *)
Fixpoint well_kinded (tree : Node) : bool :=
  match tree with
  | ListValue nodes => forallb well_kinded nodes
  | ObjectValue fs => forallb (fun field => well_kinded (snd field)) fs
  | OtherNode k =>
      negb (existsb (String.eqb k) supported_kinds)
  | _ => true
  end.

Section Parseable.
Context {scalars : Scalars}.

(** Every node of the literal is of a supported kind, and the built-in
    scalars accept its numbers, booleans and strings. *)
Fixpoint parseable (tree : Node) : bool :=
  match tree with
  | IntValue _ => isValue (GraphQLInt_parseLiteral tree)
  | FloatValue _ => isValue (GraphQLFloat_parseLiteral tree)
  | BooleanValue _ => isValue (GraphQLBoolean_parseLiteral tree)
  | StringValue _ => isValue (GraphQLString_parseLiteral tree)
  | EnumValue _ => true
  | ListValue nodes => forallb parseable nodes
  | ObjectValue fs => forallb (fun field => parseable (snd field)) fs
  | OtherNode _ => false
  end.

End Parseable.

(** The literal [{a: 1, b: 2, a: [3]}] *)
Definition repeated_literal : Node :=
  ObjectValue [("a", IntValue "1"); ("b", IntValue "2");
               ("a", ListValue [IntValue "3"])].

(** The literal [{a: [1, $x]}], with a variable inside *)
Definition open_literal : Node :=
  ObjectValue [("a", ListValue [IntValue "1"; OtherNode "Variable"])].

End Literals.

(* ================================================================= *)
(** * Properties *)

Import Examples.

(** ** Strings and objects *)

Lemma lower_ascii_idempotent (c : ascii) :
  lower_ascii (lower_ascii c) = lower_ascii c.
Proof. destruct c as [[] [] [] [] [] [] [] []]; reflexivity. Qed.

Lemma lower_upper_ascii (c : ascii) :
  lower_ascii (upper_ascii (lower_ascii c)) = lower_ascii c.
Proof. destruct c as [[] [] [] [] [] [] [] []]; reflexivity. Qed.

Lemma toLowerCase_idempotent (s : string) :
  toLowerCase (toLowerCase s) = toLowerCase s.
Proof.
  induction s as [|c s IH]; simpl; [reflexivity|].
  now rewrite lower_ascii_idempotent, IH.
Qed.

(** The registry key of a query field only depends on the identity's
    lower-casing, whatever [_.capitalize] does to the first letter. *)
Lemma toLowerCase_capitalize (s : string) :
  toLowerCase (capitalize s) = toLowerCase s.
Proof.
  unfold capitalize. destruct s as [|c s]; simpl; [reflexivity|].
  now rewrite lower_upper_ascii, toLowerCase_idempotent.
Qed.

Lemma append_s_differs (s : string) : s <> (s ++ "s")%string.
Proof.
  intro H. apply (f_equal String.length) in H.
  assert (L : String.length (s ++ "s") = S (String.length s))
    by (clear H; induction s; simpl; congruence).
  rewrite L in H. lia.
Qed.

Section Objects.
Context {V : Type}.
Implicit Types (o : Obj V) (k : string) (v : V).

Lemma obj_get_None_iff o k : obj_get o k = None <-> ~ In k (keys o).
Proof.
  induction o as [|[k' v'] o IH]; simpl; [tauto|].
  destruct (String.eqb_spec k' k) as [->|Hne].
  - split; [discriminate | intros H; exfalso; apply H; now left].
  - rewrite IH. split; [intros H [E|I]; [now apply Hne | now apply H] | tauto].
Qed.

Lemma obj_get_In o k v : obj_get o k = Some v -> In (k, v) o.
Proof.
  induction o as [|[k' v'] o IH]; simpl; [discriminate|].
  destruct (String.eqb_spec k' k) as [->|Hne].
  - intros [= ->]. now left.
  - intros H. right. now apply IH.
Qed.

Lemma In_obj_get o k v : NoDup (keys o) -> In (k, v) o -> obj_get o k = Some v.
Proof.
  induction o as [|[k' v'] o IH]; simpl; [tauto|].
  intros Hnd [E|I].
  - injection E as -> ->. now rewrite String.eqb_refl.
  - inversion Hnd as [|? ? Hnotin Hnd']; subst.
    destruct (String.eqb_spec k' k) as [->|Hne].
    + exfalso. apply Hnotin. change (In (fst (k, v)) (map fst o)).
      now apply in_map.
    + now apply IH.
Qed.

Lemma hasOwnProperty_false_iff o k : hasOwnProperty o k = false <-> ~ In k (keys o).
Proof.
  unfold hasOwnProperty. rewrite <- obj_get_None_iff.
  destruct (obj_get o k); split; congruence.
Qed.

Lemma hasOwnProperty_true_iff o k : hasOwnProperty o k = true <-> In k (keys o).
Proof.
  destruct (hasOwnProperty o k) eqn:E.
  - split; [intros _|reflexivity].
    destruct (in_dec string_dec k (keys o)) as [I|N]; [exact I|].
    apply hasOwnProperty_false_iff in N. congruence.
  - apply hasOwnProperty_false_iff in E. split; [discriminate | tauto].
Qed.

(** A new property goes last. *)
Lemma obj_put_fresh o k v : ~ In k (keys o) -> obj_put o k v = o ++ [(k, v)].
Proof.
  induction o as [|[k' v'] o IH]; simpl; [reflexivity|].
  intros H. destruct (String.eqb_spec k' k) as [->|Hne]; [tauto|].
  rewrite IH; tauto.
Qed.

Lemma obj_get_put_same o k v : obj_get (obj_put o k v) k = Some v.
Proof.
  induction o as [|[k' v'] o IH]; simpl.
  - now rewrite String.eqb_refl.
  - destruct (String.eqb_spec k' k) as [->|Hne]; simpl.
    + now rewrite String.eqb_refl.
    + destruct (String.eqb_spec k' k); [contradiction | exact IH].
Qed.

Lemma obj_get_put_other o k k' v :
  k <> k' -> obj_get (obj_put o k v) k' = obj_get o k'.
Proof.
  intros Hne. induction o as [|[k0 v0] o IH]; simpl.
  - destruct (String.eqb_spec k k'); [contradiction | reflexivity].
  - destruct (String.eqb_spec k0 k) as [->|Hne0]; simpl.
    + destruct (String.eqb_spec k k'); [contradiction | reflexivity].
    + now rewrite IH.
Qed.

(** An overwritten property keeps its place: the names do not change. *)
Lemma keys_put_present o k v : In k (keys o) -> keys (obj_put o k v) = keys o.
Proof.
  induction o as [|[k' v'] o IH]; simpl; [tauto|].
  intros H. destruct (String.eqb_spec k' k) as [->|Hne]; simpl; [reflexivity|].
  f_equal. apply IH. destruct H; [contradiction | assumption].
Qed.

Lemma keys_put_fresh o k v : ~ In k (keys o) -> keys (obj_put o k v) = keys o ++ [k].
Proof.
  intros H. rewrite obj_put_fresh by assumption.
  unfold keys. now rewrite map_app.
Qed.

Lemma In_keys_put o k v k' :
  In k' (keys (obj_put o k v)) <-> k' = k \/ In k' (keys o).
Proof.
  destruct (in_dec string_dec k (keys o)) as [I|N].
  - rewrite keys_put_present by assumption.
    split; [tauto | intros [->|H]; assumption].
  - rewrite keys_put_fresh by assumption. rewrite in_app_iff. simpl.
    split; [intros [H|[H|[]]]; auto | intros [H|H]; auto].
Qed.

Lemma NoDup_keys_put o k v : NoDup (keys o) -> NoDup (keys (obj_put o k v)).
Proof.
  intros Hnd. destruct (in_dec string_dec k (keys o)) as [I|N].
  - now rewrite keys_put_present.
  - rewrite keys_put_fresh by assumption.
    apply NoDup_app; [assumption | repeat constructor; simpl; tauto |].
    intros x Hx [<-|[]]. contradiction.
Qed.

Lemma obj_set_plain o k v : k <> "__proto__" -> obj_set o k v = obj_put o k v.
Proof.
  intros H. unfold obj_set.
  destruct (String.eqb_spec k "__proto__"); [contradiction | reflexivity].
Qed.

Lemma NoDup_keys_set o k v : NoDup (keys o) -> NoDup (keys (obj_set o k v)).
Proof.
  intros H. unfold obj_set. destruct (String.eqb k "__proto__"); [assumption|].
  now apply NoDup_keys_put.
Qed.

Lemma NoDup_keys_assign (target source : Obj V) :
  NoDup (keys target) -> NoDup (keys (assign target source)).
Proof.
  unfold assign. revert target.
  induction source as [|[k v] source IH]; simpl; intros target H; [assumption|].
  apply IH. now apply NoDup_keys_set.
Qed.

End Objects.

(* ================================================================= *)
(** ** The type converter *)

(** Every comparison of the goal against a tag that [H] excludes fails. *)
Ltac eqb_excluded H :=
  repeat match goal with |- context [String.eqb ?a ?b] =>
    let E := fresh "E" in
    destruct (String.eqb_spec a b) as [E|E];
      [exfalso; apply H; rewrite E; simpl; tauto|] end.

Lemma convertToGraphQlType_Some (tag : string) :
  convertToGraphQlType (Some tag) =
  Value (if String.eqb (toLowerCase tag) "integer" then GraphQLInt
         else if String.eqb (toLowerCase tag) "boolean" then GraphQLBoolean
         else if String.eqb (toLowerCase tag) "float" then GraphQLFloat
         else if String.eqb (toLowerCase tag) "json" then GraphQLJson
         else GraphQLString).
Proof.
  unfold convertToGraphQlType.
  repeat match goal with |- context [String.eqb ?a ?b] =>
    destruct (String.eqb a b) end; reflexivity.
Qed.

(** C7, as stated, fails on an absent tag: both converters call
    [toLowerCase] on it, which throws. *)
Lemma convertToGraphQlType_absent_tag_throws :
  convertToGraphQlType None <> Value GraphQLString
  /\ convertToGraphQlType None =
     Throw (TypeError "Cannot read property 'toLowerCase' of undefined")
  /\ Lib.convertToGraphQLType (hasMany "article" "author") =
     Throw (TypeError "Cannot read property 'toLowerCase' of undefined").
Proof. repeat split; discriminate. Qed.

(** C7 (amended): on every tag that is a string the converter returns a
    scalar; tags that only differ in case convert alike; [integer],
    [boolean], [float] and [json] map to their scalars and every other
    string, [string] included, to the string scalar.  The older converter
    does the same without a JSON scalar.  An absent tag is the one
    failure path. *)
Theorem convertToGraphQlType_total_on_strings :
  (forall tag : string, exists t, convertToGraphQlType (Some tag) = Value t)
  /\ (forall tag tag' : string,
        toLowerCase tag = toLowerCase tag' ->
        convertToGraphQlType (Some tag) = convertToGraphQlType (Some tag'))
  /\ (forall tag : string,
        (toLowerCase tag = "integer" ->
         convertToGraphQlType (Some tag) = Value GraphQLInt)
        /\ (toLowerCase tag = "boolean" ->
            convertToGraphQlType (Some tag) = Value GraphQLBoolean)
        /\ (toLowerCase tag = "float" ->
            convertToGraphQlType (Some tag) = Value GraphQLFloat)
        /\ (toLowerCase tag = "json" ->
            convertToGraphQlType (Some tag) = Value GraphQLJson)
        /\ (~ In (toLowerCase tag) ["integer"; "boolean"; "float"; "json"] ->
            convertToGraphQlType (Some tag) = Value GraphQLString))
  /\ convertToGraphQlType (Some "String") = Value GraphQLString
  /\ convertToGraphQlType (Some "INTEGER") = Value GraphQLInt
  /\ convertToGraphQlType (Some "Json") = Value GraphQLJson
  /\ (forall rules tag,
        type rules = Some tag ->
        Lib.convertToGraphQLType rules =
        (if String.eqb (toLowerCase tag) "json" then Value GraphQLString
         else convertToGraphQlType (Some tag)))
  /\ convertToGraphQlType None =
     Throw (TypeError "Cannot read property 'toLowerCase' of undefined").
Proof.
  split; [|split; [|split; [|repeat split]]].
  - intros tag. rewrite convertToGraphQlType_Some. eauto.
  - intros tag tag' E. rewrite !convertToGraphQlType_Some. now rewrite E.
  - intros tag. rewrite convertToGraphQlType_Some.
    repeat split; intros H; try (rewrite H; reflexivity).
    eqb_excluded H. reflexivity.
  - intros rules tag E. unfold Lib.convertToGraphQLType. rewrite E.
    rewrite convertToGraphQlType_Some.
    repeat match goal with |- context [String.eqb ?a ?b] =>
      destruct (String.eqb a b) eqn:? end;
      try reflexivity;
      repeat match goal with H : String.eqb _ _ = true |- _ =>
        apply String.eqb_eq in H end;
      congruence.
Qed.

(* ================================================================= *)
(** ** The literal parser *)

Lemma mapM_ext_in {A B} (f g : A -> Outcome B) (l : list A) :
  (forall x, In x l -> f x = g x) -> mapM f l = mapM g l.
Proof.
  induction l as [|x l IH]; simpl; intros H; [reflexivity|].
  rewrite (H x) by now left. rewrite IH; [reflexivity|].
  intros y Hy. apply H. now right.
Qed.

Lemma reduceM_ext_in {A S} (f g : S -> A -> Outcome S) (l : list A) (acc : S) :
  (forall s x, In x l -> f s x = g s x) -> reduceM f l acc = reduceM g l acc.
Proof.
  revert acc. induction l as [|x l IH]; simpl; intros acc H; [reflexivity|].
  rewrite (H acc x) by now left. destruct (g acc x); simpl; [|reflexivity].
  apply IH. intros s y Hy. apply H. now right.
Qed.

Lemma depth_ListValue (nodes : list Node) (node : Node) :
  In node nodes -> depth node < depth (ListValue nodes).
Proof.
  simpl. induction nodes as [|x nodes IH]; simpl; [tauto|].
  intros [->|H]; [lia|]. specialize (IH H). lia.
Qed.

Lemma depth_ObjectValue (fs : list (string * Node)) (field : string * Node) :
  In field fs -> depth (snd field) < depth (ObjectValue fs).
Proof.
  simpl. induction fs as [|x fs IH]; simpl; [tauto|].
  intros [->|H]; [lia|]. specialize (IH H). lia.
Qed.

Section ParserFacts.
Context {scalars : Scalars}.

Lemma parseLiteral_body_ext (p q : Parser) (tree : Node) :
  (forall t, depth t < depth tree -> p t = q t) ->
  parseLiteral_body p tree = parseLiteral_body q tree.
Proof.
  intros H. unfold parseLiteral_body, getParser.
  destruct tree as [v|v|b|v|v|nodes|fs|k]; try reflexivity.
  - cbn. f_equal. apply mapM_ext_in.
    intros x Hx. apply H. now apply depth_ListValue.
  - cbn. f_equal. apply reduceM_ext_in.
    intros s x Hx. rewrite H; [reflexivity|]. now apply depth_ObjectValue.
  - cbn [kind values fields].
    repeat match goal with |- context [String.eqb ?a ?b] =>
      destruct (String.eqb a b) end; reflexivity.
Qed.

Lemma parseLiteral_within_stable (n m : nat) (tree : Node) :
  depth tree < n -> depth tree < m ->
  parseLiteral_within n tree = parseLiteral_within m tree.
Proof.
  revert m tree. induction n as [|n IH]; intros m tree Hn Hm; [lia|].
  destruct m as [|m]; [lia|].
  change (parseLiteral_body (parseLiteral_within n) tree
          = parseLiteral_body (parseLiteral_within m) tree).
  apply parseLiteral_body_ext. intros t Ht. apply IH; lia.
Qed.

(** The stack bound plays no part once it exceeds the nesting depth. *)
Lemma parseLiteral_stack_irrelevant (n : nat) (tree : Node) :
  depth tree < n -> parseLiteral_within n tree = GraphQLJson_parseLiteral tree.
Proof.
  intros H. unfold GraphQLJson_parseLiteral.
  apply parseLiteral_within_stable; lia.
Qed.

(** [GraphQLJson.parseLiteral] satisfies the equation of lines 30-34. *)
Lemma parseLiteral_unfold (tree : Node) :
  GraphQLJson_parseLiteral tree = parseLiteral_body GraphQLJson_parseLiteral tree.
Proof.
  unfold GraphQLJson_parseLiteral at 1.
  change (parseLiteral_body (parseLiteral_within (depth tree)) tree
          = parseLiteral_body GraphQLJson_parseLiteral tree).
  apply parseLiteral_body_ext. intros t Ht. now apply parseLiteral_stack_irrelevant.
Qed.

Lemma parseLiteral_IntValue v :
  GraphQLJson_parseLiteral (IntValue v) = GraphQLInt_parseLiteral (IntValue v).
Proof. now rewrite parseLiteral_unfold. Qed.

Lemma parseLiteral_FloatValue v :
  GraphQLJson_parseLiteral (FloatValue v) = GraphQLFloat_parseLiteral (FloatValue v).
Proof. now rewrite parseLiteral_unfold. Qed.

Lemma parseLiteral_BooleanValue b :
  GraphQLJson_parseLiteral (BooleanValue b)
  = GraphQLBoolean_parseLiteral (BooleanValue b).
Proof. now rewrite parseLiteral_unfold. Qed.

Lemma parseLiteral_StringValue v :
  GraphQLJson_parseLiteral (StringValue v)
  = GraphQLString_parseLiteral (StringValue v).
Proof. now rewrite parseLiteral_unfold. Qed.

Lemma parseLiteral_EnumValue v :
  GraphQLJson_parseLiteral (EnumValue v) = Value (VStr v).
Proof. now rewrite parseLiteral_unfold. Qed.

Lemma parseLiteral_ListValue nodes :
  GraphQLJson_parseLiteral (ListValue nodes)
  = fmap VArr (mapM GraphQLJson_parseLiteral nodes).
Proof. now rewrite parseLiteral_unfold. Qed.

Lemma parseLiteral_ObjectValue fs :
  GraphQLJson_parseLiteral (ObjectValue fs)
  = fmap VObj
      (reduceM (fun fields field =>
                  v <- GraphQLJson_parseLiteral (snd field) ;;
                  Value (obj_set fields (fst field) v)) fs []).
Proof. now rewrite parseLiteral_unfold. Qed.

Lemma getParser_unsupported (p : Parser) (k : string) :
  ~ In k supported_kinds -> getParser p k = None.
Proof.
  intros H. unfold getParser.
  eqb_excluded H. reflexivity.
Qed.

End ParserFacts.

(** ** Objects built in a loop *)

Section ObjectLoops.
Context {A V : Type} (g : string * A -> Outcome V).


(** The loop throws exactly when [g] does on some entry. *)
Lemma reduceM_set_throws (entries : list (string * A)) :
  forall (acc : Obj V) (e : Error),
    mapM g entries = Throw e ->
    reduceM (fun o entry => v <- g entry ;; Value (obj_set o (fst entry) v))
            entries acc
    = Throw e.
Proof.
  induction entries as [|[k a] entries IH]; simpl; intros acc e Hm.
  - discriminate.
  - destruct (g (k, a)) as [v|e'] eqn:Eg; simpl in *; [|congruence].
    destruct (mapM g entries) as [vs'|e'] eqn:Em; simpl in *; [discriminate|].
    injection Hm as <-. now apply IH.
Qed.

End ObjectLoops.

Lemma mapM_length {A B} (f : A -> Outcome B) (l : list A) (r : list B) :
  mapM f l = Value r -> List.length r = List.length l.
Proof.
  revert r. induction l as [|x l IH]; simpl; intros r H.
  - now injection H as <-.
  - destruct (f x); simpl in H; [|discriminate].
    destruct (mapM f l); simpl in H; [|discriminate].
    injection H as <-. simpl. f_equal. now apply IH.
Qed.

Lemma mapM_map {A B C} (f : B -> Outcome C) (h : A -> B) (l : list A) :
  mapM f (map h l) = mapM (fun x => f (h x)) l.
Proof.
  induction l as [|x l IH]; simpl; [reflexivity|]. now rewrite IH.
Qed.


Section ParserResults.
Context {scalars : Scalars}.

Lemma parseLiteral_unsupported (tree : Node) :
  ~ In (kind tree) supported_kinds ->
  GraphQLJson_parseLiteral tree
  = Throw (TypeError "Cannot read property 'call' of null").
Proof.
  intros H. rewrite parseLiteral_unfold. unfold parseLiteral_body.
  now rewrite getParser_unsupported.
Qed.



End ParserResults.



(* ================================================================= *)
(** ** The query-field builder *)

Lemma logged_nil (w : World) : logged [] w = w.
Proof. destruct w. unfold logged. simpl. now rewrite app_nil_r. Qed.

Lemma logged_logged (a b : list string) (w : World) :
  logged b (logged a w) = logged (a ++ b) w.
Proof. unfold logged. simpl. now rewrite app_assoc. Qed.

Lemma builtin_has_no_hasOwnProperty (expose : bool) :
  ~ In "hasOwnProperty" (keys (builtin_findManyArgs expose)).
Proof. destruct expose; simpl; intuition discriminate. Qed.

Lemma collides_iff (expose : bool) (k : string) :
  collides expose k = true <-> In k (keys (builtin_findManyArgs expose)).
Proof. apply hasOwnProperty_true_iff. Qed.

Lemma convertToGraphQlType_typed (rules : Rules) :
  has_type rules = true ->
  convertToGraphQlType (type rules) = Value (scalar_of (type rules)).
Proof.
  unfold has_type, scalar_of. destruct (type rules) as [t|]; [|discriminate].
  intros _. now rewrite convertToGraphQlType_Some.
Qed.

(** One round of the loop of lines 180-201. *)
Lemma classify_attribute_step (ci : string) (expose : bool)
      (one many : Obj Arg) (k : string) (rules : Rules) (w : World) :
  ~ In "hasOwnProperty" (keys many) ->
  (In k (keys many) <-> collides expose k = true) ->
  ~ In k (keys one) ->
  k <> "__proto__" ->
  (is_argument expose (k, rules) = true -> has_type rules = true) ->
  classify_attribute ci expose (one, many) (k, rules) w
  = (Value
       (if is_argument expose (k, rules) && identifying rules
        then one ++ [arg_of (k, rules)] else one,
        if is_argument expose (k, rules) && negb (identifying rules)
        then many ++ [arg_of (k, rules)] else many),
     logged (if expose && collides expose k
             then [collision_warning ci k] else []) w).
Proof.
  intros Hown Hmany Hone Hproto Htyped.
  unfold classify_attribute, findManyArgs_hasOwnProperty, bindM, lift.
  cbv zeta. cbn [fst snd].
  apply hasOwnProperty_false_iff in Hown. rewrite Hown.
  unfold is_argument in *. cbn [fst snd] in *.
  destruct (hasOwnProperty many k) eqn:Etaken.
  - apply hasOwnProperty_true_iff in Etaken. apply Hmany in Etaken.
    rewrite Etaken. cbn [negb andb].
    destruct expose; cbn [andb]; unfold warn, ret; cbn.
    + reflexivity.
    + now rewrite logged_nil.
  - assert (Ec : collides expose k = false).
    { apply not_true_is_false. intros E.
      apply Hmany in E. apply hasOwnProperty_false_iff in Etaken. contradiction. }
    rewrite Ec in *. rewrite andb_false_r. cbn [negb andb] in *.
    rewrite logged_nil.
    destruct (collection rules) as [name|]; cbn [andb].
    + reflexivity.
    + rewrite convertToGraphQlType_typed by now apply Htyped.
      destruct (identifying rules); cbn [negb]; unfold ret;
        rewrite obj_set_plain by assumption;
        rewrite obj_put_fresh; try reflexivity; try assumption.
      now apply hasOwnProperty_false_iff.
Qed.

(** The whole loop: it files the attributes that become arguments under
    [findOneArgs] or [findManyArgs] in declaration order, and warns about
    the colliding ones when the query language is exposed. *)
Lemma classify_attributes_loop (ci : string) (expose : bool) (attrs : Obj Rules) :
  forall (one many : Obj Arg) (w : World),
    plain_names (keys attrs) ->
    arguments_typed expose attrs ->
    ~ In "hasOwnProperty" (keys many) ->
    (forall k, In k (keys attrs) -> ~ In k (keys one)) ->
    (forall k, In k (keys attrs) ->
               (In k (keys many) <-> collides expose k = true)) ->
    forEachS (classify_attribute ci expose) attrs (one, many) w
    = (Value
         (one ++ map arg_of
                  (filter (fun a => is_argument expose a && identifying (snd a))
                          attrs),
          many ++ map arg_of
                   (filter (fun a => is_argument expose a
                                     && negb (identifying (snd a)))
                           attrs)),
       logged (if expose
               then map (collision_warning ci)
                        (filter (collides expose) (keys attrs))
               else []) w).
Proof.
  induction attrs as [|[k rules] attrs IH];
    intros one many w (Hnd & Hproto & Hhop & Hidx) Htyped Hown Hone Hmany.
  - cbn. rewrite !app_nil_r.
    destruct expose; now rewrite logged_nil.
  - cbn [forEachS]. unfold bindM.
    cbn [keys map fst] in *.
    inversion Hnd as [|? ? Hk Hnd']; subst.
    rewrite classify_attribute_step.
    + rewrite IH.
      * rewrite logged_logged. f_equal.
        -- f_equal. cbn [filter fst snd].
           destruct (is_argument expose (k, rules));
             destruct (identifying rules); cbn [andb negb map];
             rewrite <- ?app_assoc; reflexivity.
        -- f_equal. cbn [filter].
           destruct expose; cbn [andb]; [|reflexivity].
           destruct (collides true k); reflexivity.
      * repeat split; [assumption | | |];
          [intros I; apply Hproto; now right
          |intros I; apply Hhop; now right
          |now inversion Hidx].
      * intros a Ha. apply Htyped. now right.
      * destruct (is_argument expose (k, rules) && negb (identifying rules));
          [|assumption].
        unfold keys. rewrite map_app, in_app_iff. cbn.
        intros [I|[E|[]]]; [now apply Hown | apply Hhop; now left].
      * intros k' Hk'.
        assert (k' <> k) by (intros ->; contradiction).
        destruct (is_argument expose (k, rules) && identifying rules).
        -- unfold keys. rewrite map_app, in_app_iff. cbn.
           intros [I|[E|[]]]; [|congruence].
           revert I. apply Hone. now right.
        -- apply Hone. now right.
      * intros k' Hk'.
        assert (k' <> k) by (intros ->; contradiction).
        rewrite <- (Hmany k') by now right.
        destruct (is_argument expose (k, rules) && negb (identifying rules));
          [|reflexivity].
        unfold keys. rewrite map_app, in_app_iff. cbn.
        split; [intros [I|[E|[]]]; [assumption | congruence] | tauto].
    + assumption.
    + apply Hmany. now left.
    + apply Hone. now left.
    + intros ->. apply Hproto. now left.
    + intros Harg. apply (Htyped (k, rules)); [now left | assumption].
Qed.

Lemma world_eta (w : World) :
  {| defaults := defaults w; console := console w |} = w.
Proof. now destruct w. Qed.

Lemma set_types_same (d : Defaults) : set_types (types d) d = d.
Proof. now destruct d. Qed.

Lemma set_modelQueries_same (d : Defaults) :
  set_modelQueries (modelQueries d) d = d.
Proof. now destruct d. Qed.

(** The list of line 210 is made when the collection's type is
    registered. *)
Lemma list_of_registered_value (d : Defaults) (c : Collection) :
  list_made d c ->
  list_of_registered d (capitalize (identity c))
  = Value (GraphQLList (types_get d (capitalize (identity c)))).
Proof.
  unfold list_made, type_registered, list_of_registered, new_GraphQLList.
  intros [E|N].
  - now rewrite E.
  - destruct (String.eqb (capitalize (identity c)) "__proto__");
      [reflexivity|].
    destruct (types_get d (capitalize (identity c))); congruence.
Qed.

Lemma list_of_registered_throws (d : Defaults) (name : string) (e : Error) :
  list_of_registered d name = Throw e ->
  e = LibraryError "Can only create List of a GraphQLType but got: undefined."
  /\ name <> "__proto__"
  /\ types_get d name = NoType.
Proof.
  unfold list_of_registered, new_GraphQLList.
  destruct (String.eqb_spec name "__proto__") as [E|N]; [discriminate|].
  destruct (types_get d name); try discriminate.
  intros [= <-]. auto.
Qed.

Lemma list_of_registered_unregistered (d : Defaults) (c : Collection) :
  ~ list_made d c ->
  list_of_registered d (capitalize (identity c))
  = Throw (LibraryError
             "Can only create List of a GraphQLType but got: undefined.").
Proof.
  unfold list_made, type_registered, list_of_registered, new_GraphQLList. intros H.
  destruct (String.eqb_spec (capitalize (identity c)) "__proto__") as [E|N];
    [tauto|].
  destruct (types_get d (capitalize (identity c))); try reflexivity;
    exfalso; apply H; right; discriminate.
Qed.

Lemma buildQueryFields_buildable (c : Collection) (w : World) :
  buildable (exposeQueryLanguage (defaults w)) c ->
  list_made (defaults w) c ->
  buildQueryFields c w
  = (Value tt,
     logged (warnings_of (exposeQueryLanguage (defaults w)) c)
       (updated (fun d =>
                   set_modelQueries
                     (register_queries (exposeQueryLanguage d) (types d)
                                       (modelQueries d) c) d) w)).
Proof.
  intros [Hplain Htyped] Hregistered.
  unfold buildQueryFields, bindM, read. cbv zeta.
  rewrite (classify_attributes_loop _ _ _ [] _ w Hplain Htyped).
  - unfold lift. cbn [defaults logged fst snd].
    rewrite (list_of_registered_value _ _ Hregistered). reflexivity.
  - apply builtin_has_no_hasOwnProperty.
  - intros k _ [].
  - intros k _. symmetry. apply collides_iff.
Qed.

(** Without the type, the loop over the attributes runs, and then the
    list of line 210 cannot be made: nothing is registered. *)
Lemma buildQueryFields_unregistered (c : Collection) (w : World) :
  buildable (exposeQueryLanguage (defaults w)) c ->
  ~ list_made (defaults w) c ->
  buildQueryFields c w
  = (Throw (LibraryError
              "Can only create List of a GraphQLType but got: undefined."),
     logged (warnings_of (exposeQueryLanguage (defaults w)) c) w).
Proof.
  intros [Hplain Htyped] Hregistered.
  unfold buildQueryFields, bindM, read. cbv zeta.
  rewrite (classify_attributes_loop _ _ _ [] _ w Hplain Htyped).
  - unfold lift. cbn [defaults logged fst snd].
    rewrite (list_of_registered_unregistered _ _ Hregistered). reflexivity.
  - apply builtin_has_no_hasOwnProperty.
  - intros k _ [].
  - intros k _. symmetry. apply collides_iff.
Qed.

Lemma buildType_registers (c : Collection) (w : World) :
  buildType c w
  = (Value tt, updated (fun d => set_types (register_type (types d) c) d) w).
Proof. reflexivity. Qed.

(** The first pass of [getQueries] (line 62). *)
Lemma forEach_buildType (cs : list Collection) :
  forall w,
    forEach buildType cs w
    = (Value tt,
       updated (fun d => set_types (fold_left register_type cs (types d)) d) w).
Proof.
  induction cs as [|c cs IH]; intros w.
  - cbn. unfold updated. now rewrite set_types_same, world_eta.
  - cbn [forEach]. unfold bindM. rewrite buildType_registers, IH. reflexivity.
Qed.

(** The second pass of [getQueries] (line 63). *)
Lemma forEach_buildQueryFields (cs : list Collection) :
  forall w,
    (forall c, In c cs -> buildable (exposeQueryLanguage (defaults w)) c) ->
    (forall c, In c cs -> list_made (defaults w) c) ->
    forEach buildQueryFields cs w
    = (Value tt,
       logged (flat_map (warnings_of (exposeQueryLanguage (defaults w))) cs)
         (updated (fun d =>
                     set_modelQueries
                       (fold_left
                          (register_queries (exposeQueryLanguage d) (types d))
                          cs (modelQueries d)) d) w)).
Proof.
  induction cs as [|c cs IH]; intros w H Hr.
  - cbn. unfold updated. now rewrite set_modelQueries_same, world_eta, logged_nil.
  - cbn [forEach]. unfold bindM.
    rewrite buildQueryFields_buildable
      by (first [apply H | apply Hr]; now left).
    rewrite IH;
      [|intros c' Hc'; apply H; now right
       |intros c' Hc'; apply (Hr c'); now right].
    cbn [flat_map]. unfold logged, updated. cbn. now rewrite app_assoc.
Qed.

(* ================================================================= *)
(** ** The query-field registry *)

Section Assign.
Context {V : Type}.
Implicit Types (o target source : Obj V) (k : string) (v : V).

Lemma obj_get_set_same o k v :
  k <> "__proto__" -> obj_get (obj_set o k v) k = Some v.
Proof. intros H. rewrite obj_set_plain by assumption. apply obj_get_put_same. Qed.

Lemma obj_get_set_other o k k' v :
  k <> k' -> obj_get (obj_set o k v) k' = obj_get o k'.
Proof.
  intros H. unfold obj_set. destruct (String.eqb k "__proto__"); [reflexivity|].
  now apply obj_get_put_other.
Qed.

Lemma no_proto_set o k v :
  ~ In "__proto__" (keys o) -> ~ In "__proto__" (keys (obj_set o k v)).
Proof.
  intros H. unfold obj_set.
  destruct (String.eqb_spec k "__proto__") as [->|Hne]; [assumption|].
  rewrite In_keys_put. intros [E|I]; [now apply Hne | contradiction].
Qed.

(** [_.assign]: the source's properties win, the others stay. *)
Lemma obj_get_assign target source k :
  NoDup (keys source) ->
  ~ In "__proto__" (keys source) ->
  obj_get (assign target source) k
  = match obj_get source k with
    | Some v => Some v
    | None => obj_get target k
    end.
Proof.
  unfold assign. revert target.
  induction source as [|[k0 v0] source IH]; intros target Hnd Hp; [reflexivity|].
  cbn [fold_left fst snd]. cbn [keys map fst] in Hnd, Hp.
  inversion Hnd as [|? ? Hk0 Hnd']; subst.
  rewrite IH; [| exact Hnd' | intros I; apply Hp; now right]. cbn [obj_get].
  destruct (String.eqb_spec k0 k) as [->|Hne].
  - assert (E : obj_get source k = None) by now apply obj_get_None_iff.
    rewrite E. apply obj_get_set_same. intros ->. apply Hp. now left.
  - destruct (obj_get source k); [reflexivity|].
    now apply obj_get_set_other.
Qed.

End Assign.

Lemma plural_name_not_proto (c : Collection) : plural_name c <> "__proto__".
Proof.
  unfold plural_name. generalize (toLowerCase (capitalize (identity c))).
  intros s H.
  do 9 (destruct s as [|? s]; [discriminate H|]; cbn in H;
        injection H as _ H).
  destruct s; discriminate H.
Qed.

Lemma singular_name_not_plural (c : Collection) : singular_name c <> plural_name c.
Proof. apply append_s_differs. Qed.

Section QueryFields.
Variables (expose : bool) (ts : Obj OutputType) (c : Collection).

Lemma query_fields_singular :
  singular_name c <> "__proto__" ->
  obj_get (query_fields_of expose ts c) (singular_name c)
  = Some (singular_field expose ts c).
Proof.
  intros H. unfold query_fields_of.
  rewrite obj_get_set_other
    by (intros E; symmetry in E; revert E; apply singular_name_not_plural).
  now apply obj_get_set_same.
Qed.

Lemma query_fields_plural :
  obj_get (query_fields_of expose ts c) (plural_name c)
  = Some (plural_field expose ts c).
Proof. apply obj_get_set_same, plural_name_not_proto. Qed.

Lemma query_fields_other (n : string) :
  n <> singular_name c -> n <> plural_name c ->
  obj_get (query_fields_of expose ts c) n = None.
Proof.
  intros H1 H2. unfold query_fields_of.
  rewrite !obj_get_set_other by congruence. reflexivity.
Qed.

Lemma query_fields_NoDup : NoDup (keys (query_fields_of expose ts c)).
Proof. unfold query_fields_of. do 2 apply NoDup_keys_set. constructor. Qed.

Lemma query_fields_no_proto : ~ In "__proto__" (keys (query_fields_of expose ts c)).
Proof. unfold query_fields_of. do 2 apply no_proto_set. intros []. Qed.

Lemma obj_get_register_queries (mq : Obj QueryField) (n : string) :
  obj_get (register_queries expose ts mq c) n
  = match obj_get (query_fields_of expose ts c) n with
    | Some f => Some f
    | None => obj_get mq n
    end.
Proof.
  unfold register_queries.
  apply obj_get_assign; [apply query_fields_NoDup | apply query_fields_no_proto].
Qed.

End QueryFields.

(* ================================================================= *)
(** ** Arguments of the two query fields (C5, C6) *)

Lemma keys_map_arg_of (attrs : Obj Rules) : keys (map arg_of attrs) = keys attrs.
Proof. unfold keys. rewrite map_map. reflexivity. Qed.

Lemma In_keys_filter {V} (p : string * V -> bool) (o : Obj V) (k : string) :
  In k (keys (filter p o)) -> In k (keys o).
Proof.
  unfold keys. rewrite !in_map_iff.
  intros [a [E I]]. apply filter_In in I. exists a. tauto.
Qed.

Lemma NoDup_keys_filter {V} (p : string * V -> bool) (o : Obj V) :
  NoDup (keys o) -> NoDup (keys (filter p o)).
Proof.
  induction o as [|[k v] o IH]; cbn; intros H; [constructor|].
  inversion H as [|? ? Hk Hnd]; subst.
  destruct (p (k, v)); cbn; [|now apply IH].
  constructor; [|now apply IH].
  intros I. apply Hk. now apply (In_keys_filter p).
Qed.

Lemma obj_get_app_l {V} (o o' : Obj V) (k : string) (v : V) :
  obj_get o k = Some v -> obj_get (o ++ o') k = Some v.
Proof.
  induction o as [|[k0 v0] o IH]; cbn; [discriminate|].
  destruct (String.eqb k0 k); [trivial | exact IH].
Qed.

Lemma obj_get_app_r {V} (o o' : Obj V) (k : string) :
  ~ In k (keys o) -> obj_get (o ++ o') k = obj_get o' k.
Proof.
  induction o as [|[k0 v0] o IH]; cbn; intros H; [reflexivity|].
  destruct (String.eqb_spec k0 k) as [->|Hne]; [tauto|].
  apply IH. tauto.
Qed.

Lemma is_argument_iff (expose : bool) (a : string * Rules) :
  is_argument expose a = true
  <-> collection (snd a) = None
      /\ ~ In (fst a) (keys (builtin_findManyArgs expose)).
Proof.
  unfold is_argument. rewrite andb_true_iff, negb_true_iff.
  unfold collides. rewrite hasOwnProperty_false_iff.
  destruct (collection (snd a)); split; intros [H1 H2];
    (split; [congruence || assumption | congruence || assumption]).
Qed.

Lemma collides_names (expose : bool) (k : string) :
  collides expose k = true
  <-> k = "limit" \/ k = "skip" \/ k = "sort" \/ (expose = true /\ k = "where").
Proof.
  rewrite collides_iff. destruct expose; cbn; intuition congruence.
Qed.

Lemma findManyArgs_NoDup (expose : bool) (attrs : Obj Rules) :
  NoDup (keys attrs) -> NoDup (keys (findManyArgs_of expose attrs)).
Proof.
  intros H. unfold findManyArgs_of, keys. rewrite map_app.
  apply NoDup_app.
  - destruct expose; cbn; repeat constructor; cbn; intuition discriminate.
  - change (NoDup (keys (map arg_of
             (filter (fun a => is_argument expose a && negb (identifying (snd a)))
                     attrs)))).
    rewrite keys_map_arg_of. now apply NoDup_keys_filter.
  - intros k Hb Hf.
    change (In k (keys (map arg_of
             (filter (fun a => is_argument expose a && negb (identifying (snd a)))
                     attrs)))) in Hf.
    rewrite keys_map_arg_of in Hf. unfold keys in Hf.
    apply in_map_iff in Hf. destruct Hf as [a [<- Ha]].
    apply filter_In in Ha. destruct Ha as [_ Ha].
    apply andb_true_iff in Ha. destruct Ha as [Ha _].
    apply is_argument_iff in Ha. now apply Ha.
Qed.

(** The registry after [buildQueryFields(c)] holds [c]'s two fields. *)
Lemma buildQueryFields_registers (c : Collection) (w : World) :
  buildable (exposeQueryLanguage (defaults w)) c ->
  list_made (defaults w) c ->
  let expose := exposeQueryLanguage (defaults w) in
  let registry := modelQueries (defaults (snd (buildQueryFields c w))) in
  (singular_name c <> "__proto__" ->
   obj_get registry (singular_name c)
   = Some (singular_field expose (types (defaults w)) c))
  /\ obj_get registry (plural_name c)
     = Some (plural_field expose (types (defaults w)) c).
Proof.
  intros H Hr. rewrite buildQueryFields_buildable by assumption. cbn.
  rewrite !obj_get_register_queries. split.
  - intros Hn. now rewrite query_fields_singular.
  - now rewrite query_fields_plural.
Qed.

(** C5, as stated, fails: in the schema of the blog, [author], a
    belongsTo attribute of [Article], is an argument of [articles]; and
    in the schema of [Page] alone, [limit], a unique attribute, is no
    argument of [page]. *)
Lemma relation_attribute_among_arguments :
  option_map argument_names (schema_of (config_of blog) initial_world)
  = Some [("user", ["id"; "email"]);
          ("users", ["limit"; "skip"; "sort"; "firstName"]);
          ("article", ["id"]);
          ("articles", ["limit"; "skip"; "sort"; "title"; "author"])]
  /\ option_map argument_names
                (schema_of (config_of (AsArray [Page])) initial_world)
     = Some [("page", ["id"]);
             ("pages", ["limit"; "skip"; "sort"; "where"])].
Proof. split; vm_compute; reflexivity. Qed.

(** C5 (amended): take a collection whose type [buildType] has
    registered, whose attribute names are distinct and ordinary (none is
    [__proto__], [hasOwnProperty] or an array index) and whose attributes
    that become arguments have a type.  Then [buildQueryFields] gets
    through, and the attributes that become arguments are those without
    a [collection] property (hasMany) whose name is not a built-in
    argument's; a belongsTo attribute is one of them.  The singular
    field's arguments are exactly those of them whose [primaryKey] or
    whose [unique] flag is set, in declaration order; the plural
    field's are the built-ins followed by exactly the remaining ones, in
    declaration order.  A hasMany attribute is in neither partition, and
    an attribute with the [primaryKey] or the [unique] flag set is never
    in the plural field's partition. *)
Theorem buildQueryFields_partitions_arguments
        (c : Collection) (w : World)
        (Hbuildable : buildable (exposeQueryLanguage (defaults w)) c)
        (Hregistered : type_registered (defaults w) c)
        (Hname : singular_name c <> "__proto__") :
  let expose := exposeQueryLanguage (defaults w) in
  let registry := modelQueries (defaults (snd (buildQueryFields c w))) in
  let identifying_part :=
    filter (fun a => is_argument expose a && identifying (snd a))
           (_attributes c) in
  let filterable_part :=
    filter (fun a => is_argument expose a && negb (identifying (snd a)))
           (_attributes c) in
  fst (buildQueryFields c w) = Value tt
  /\ option_map (fun f => keys (args f)) (obj_get registry (singular_name c))
     = Some (keys identifying_part)
  /\ option_map (fun f => keys (args f)) (obj_get registry (plural_name c))
     = Some (keys (builtin_findManyArgs expose) ++ keys filterable_part)
  /\ (forall a,
        is_argument expose a = true
        <-> collection (snd a) = None
            /\ ~ In (fst a) (keys (builtin_findManyArgs expose)))
  /\ (forall k rules,
        In (k, rules) (_attributes c) ->
        collection rules <> None ->
        ~ In k (keys identifying_part) /\ ~ In k (keys filterable_part))
  /\ (forall k rules,
        In (k, rules) (_attributes c) ->
        primaryKey rules = Some true ->
        ~ In k (keys filterable_part))
  /\ (forall rules,
        identifying rules = true
        <-> primaryKey rules = Some true \/ unique rules = Some true)
  /\ (forall k rules,
        In (k, rules) (_attributes c) ->
        unique rules = Some true ->
        ~ In k (keys filterable_part)).
Proof.
  intros expose registry identifying_part filterable_part.
  destruct (buildQueryFields_registers c w Hbuildable (or_intror Hregistered))
    as [Hs Hp].
  specialize (Hs Hname).
  assert (Hflags : forall rules,
             identifying rules = true
             <-> primaryKey rules = Some true \/ unique rules = Some true).
  { intros rules. unfold identifying.
    destruct (primaryKey rules) as [[]|]; destruct (unique rules) as [[]|];
      intuition discriminate. }
  pose proof Hbuildable as [[Hnd _] _].
  assert (Hsole : forall k rules p,
             In (k, rules) (_attributes c) ->
             In k (keys (filter p (_attributes c))) ->
             p (k, rules) = true).
  { intros k rules p Hin Hk. unfold keys in Hk. apply in_map_iff in Hk.
    destruct Hk as [[k' rules'] [E I]]. cbn in E. subst k'.
    apply filter_In in I. destruct I as [I Hp'].
    assert (Some rules' = Some rules) as [= ->]; [|assumption].
    rewrite <- (In_obj_get _ _ _ Hnd I). now apply In_obj_get. }
  refine (conj _ (conj _ (conj _ (conj _ (conj _ (conj _ (conj Hflags _))))))).
  - rewrite buildQueryFields_buildable; [reflexivity | assumption | now right].
  - subst registry. rewrite Hs. cbn [option_map args singular_field].
    unfold findOneArgs_of. now rewrite keys_map_arg_of.
  - subst registry. rewrite Hp. cbn [option_map args plural_field].
    unfold findManyArgs_of, keys.
    rewrite map_app. do 2 f_equal. apply keys_map_arg_of.
  - intros a. apply is_argument_iff.
  - intros k rules Hin Hcoll. split; intros I; apply (Hsole _ _ _ Hin) in I;
      apply andb_true_iff in I; destruct I as [I _];
      apply is_argument_iff in I; cbn in I; tauto.
  - intros k rules Hin Hpk I. apply (Hsole _ _ _ Hin) in I.
    apply andb_true_iff in I. destruct I as [_ I].
    unfold identifying in I. cbn in I. rewrite Hpk in I. discriminate.
  - intros k rules Hin Hu I. apply (Hsole _ _ _ Hin) in I.
    apply andb_true_iff in I. destruct I as [_ I]. cbn [snd] in I.
    assert (identifying rules = true) as E by (apply Hflags; now right).
    rewrite E in I. discriminate.
Qed.

(** Every attribute of the sample collections that becomes an argument
    has a type, and their names are ordinary. *)
Ltac prove_buildable :=
  split;
  [ repeat split;
    [ repeat constructor; cbn; intuition discriminate
    | cbn; intuition discriminate
    | cbn; intuition discriminate
    | repeat constructor ]
  | intros a Ha; cbn in Ha;
    repeat (destruct Ha as [<-|Ha];
            [first [ intros _; reflexivity
                   | intros Harg; vm_compute in Harg; discriminate Harg ]|]);
    destruct Ha ].

Lemma Article_buildable (expose : bool) : buildable expose Article.
Proof. destruct expose; prove_buildable. Qed.

Lemma User_buildable (expose : bool) : buildable expose User.
Proof. destruct expose; prove_buildable. Qed.

Lemma Users_buildable (expose : bool) : buildable expose Users.
Proof. destruct expose; prove_buildable. Qed.

Lemma Page_buildable (expose : bool) : buildable expose Page.
Proof. destruct expose; prove_buildable. Qed.

Lemma buildQueryFields_partitions_arguments_witness :
  option_map (fun f => keys (args f))
    (obj_get (modelQueries
                (defaults (snd (buildQueryFields Article
                                  (snd (buildType Article initial_world))))))
             "articles")
  = Some ["limit"; "skip"; "sort"; "title"; "author"].
Proof.
  assert (Hregistered : type_registered
                          (defaults (snd (buildType Article initial_world)))
                          Article)
    by (vm_compute; discriminate).
  pose proof (proj1 (proj2 (proj2
                (buildQueryFields_partitions_arguments
                   Article (snd (buildType Article initial_world))
                   (Article_buildable false) Hregistered
                   ltac:(discriminate))))) as H.
  vm_compute in H. vm_compute. exact H.
Defined.

(** C6, as stated, fails with the query language not exposed: the
    attribute [where] of [Page] is then an argument of [pages] with the
    attribute's own type, and the attributes [sort] and [limit] are left
    out without any warning. *)
Lemma where_attribute_exposed_without_warning :
  option_map
    (fun s => option_map (fun f => obj_get (args f) "where")
                         (obj_get (query_fields s) "pages"))
    (schema_of (config_with (AsArray [Page]) false) initial_world)
  = Some (Some (Some {| arg_name := "where"; arg_type := GraphQLInt |}))
  /\ console (after (config_with (AsArray [Page]) false) initial_world) = [].
Proof. split; reflexivity. Qed.

(** C6 (amended): take a collection whose type [buildType] has
    registered, whose attribute names are distinct and ordinary (none is
    [__proto__], [hasOwnProperty] or an array index) and whose attributes
    that become arguments have a type.  The names that collide are
    [limit], [skip], [sort] and, only when the query language is
    exposed, [where].  An attribute with such a name is an argument of
    neither field; the plural field keeps each built-in argument as it
    was (so [sort] stays a string) and has no second argument of that
    name.  The console receives one warning per colliding attribute when
    the query language is exposed and nothing otherwise.  With the
    option off, a filterable attribute named [where] is an ordinary
    argument of the plural field. *)
Theorem buildQueryFields_collision_policy
        (c : Collection) (w : World)
        (Hbuildable : buildable (exposeQueryLanguage (defaults w)) c)
        (Hregistered : type_registered (defaults w) c) :
  let expose := exposeQueryLanguage (defaults w) in
  let w' := snd (buildQueryFields c w) in
  let registry := modelQueries (defaults w') in
  (forall k,
      collides expose k = true
      <-> k = "limit" \/ k = "skip" \/ k = "sort"
          \/ (expose = true /\ k = "where"))
  /\ (exists plural,
        obj_get registry (plural_name c) = Some plural
        /\ (forall k a,
              obj_get (builtin_findManyArgs expose) k = Some a ->
              obj_get (args plural) k = Some a)
        /\ obj_get (args plural) "sort"
           = Some {| arg_name := "sort"; arg_type := GraphQLString |}
        /\ NoDup (keys (args plural))
        /\ (expose = false ->
            forall rules,
              In ("where", rules) (_attributes c) ->
              collection rules = None ->
              identifying rules = false ->
              obj_get (args plural) "where"
              = Some {| arg_name := "where";
                        arg_type := scalar_of (type rules) |}))
  /\ (forall singular k,
        obj_get registry (singular_name c) = Some singular ->
        singular_name c <> "__proto__" ->
        collides expose k = true ->
        ~ In k (keys (args singular)))
  /\ console w'
     = console w
       ++ (if expose
           then map (collision_warning (capitalize (identity c)))
                    (filter (collides expose) (keys (_attributes c)))
           else []).
Proof.
  intros expose w' registry.
  destruct (buildQueryFields_registers c w Hbuildable (or_intror Hregistered))
    as [Hs Hp].
  pose proof Hbuildable as [[Hnd _] _].
  refine (conj _ (conj _ (conj _ _))).
  - apply collides_names.
  - exists (plural_field expose (types (defaults w)) c).
    refine (conj Hp (conj _ (conj _ (conj _ _)))).
    + intros k a H. cbn [args plural_field]. unfold findManyArgs_of.
      now apply obj_get_app_l.
    + cbn [args plural_field]. unfold findManyArgs_of.
      apply obj_get_app_l. now destruct expose.
    + cbn [args plural_field]. now apply findManyArgs_NoDup.
    + intros Hoff rules Hin Hcoll Hid. cbn [args plural_field].
      apply In_obj_get; [now apply findManyArgs_NoDup|].
      unfold findManyArgs_of. apply in_or_app. right.
      change ("where", {| arg_name := "where"; arg_type := scalar_of (type rules) |})
        with (arg_of ("where", rules)).
      apply in_map. apply filter_In. split; [assumption|].
      apply andb_true_iff. split.
      * apply is_argument_iff. cbn [fst snd]. split; [assumption|].
        rewrite Hoff. cbn. intuition discriminate.
      * cbn [snd]. now rewrite Hid.
  - intros singular k Hget Hname Hc. subst registry w'.
    rewrite (Hs Hname) in Hget. injection Hget as <-.
    cbn [args singular_field]. unfold findOneArgs_of.
    rewrite keys_map_arg_of. unfold keys. rewrite in_map_iff.
    intros [a [<- Ha]]. apply filter_In in Ha. destruct Ha as [_ Ha].
    apply andb_true_iff in Ha. destruct Ha as [Ha _].
    unfold is_argument in Ha. fold expose in Ha. rewrite Hc in Ha.
    discriminate.
  - subst w'.
    rewrite buildQueryFields_buildable; [reflexivity | assumption | now right].
Qed.

Lemma buildQueryFields_collision_policy_witness :
  let w := after (config_with (AsArray [Page]) true) initial_world in
  console (snd (buildQueryFields Page w))
  = console w
    ++ ["Field 'page.sort' will not be individually queryable. Use 'where' instead";
        "Field 'page.where' will not be individually queryable. Use 'where' instead";
        "Field 'page.limit' will not be individually queryable. Use 'where' instead"].
Proof.
  assert (Hregistered : type_registered
                          (defaults
                             (after (config_with (AsArray [Page]) true)
                                    initial_world))
                          Page)
    by (vm_compute; discriminate).
  pose proof (proj2 (proj2 (proj2
                (buildQueryFields_collision_policy
                   Page
                   (after (config_with (AsArray [Page]) true) initial_world)
                   (Page_buildable true) Hregistered)))) as H.
  vm_compute in H. vm_compute. exact H.
Defined.

(* ================================================================= *)
(** ** Name clashes in the query-field registry (C10) *)

Lemma configSchema_None (config : Config) :
  configSchema config = None ->
  (exists cs, config_collections config = Some cs)
  /\ config_modelQueries config = None
  /\ config_types config = None.
Proof.
  unfold configSchema.
  destruct (config_collections config) as [cs|]; [|discriminate].
  destruct (config_modelQueries config); [discriminate|].
  destruct (config_types config); [discriminate|].
  eauto.
Qed.

Lemma fold_register_queries_NoDup (expose : bool) (ts : Obj OutputType)
      (cs : list Collection) :
  forall mq, NoDup (keys mq) ->
             NoDup (keys (fold_left (register_queries expose ts) cs mq)).
Proof.
  induction cs as [|c cs IH]; intros mq H; [assumption|].
  cbn. apply IH. now apply NoDup_keys_assign.
Qed.

(** Collections that do not derive the name [n] leave its entry alone. *)
Lemma fold_register_queries_skip (expose : bool) (ts : Obj OutputType)
      (n : string) (cs : list Collection) :
  (forall c, In c cs -> n <> singular_name c /\ n <> plural_name c) ->
  forall mq,
    obj_get (fold_left (register_queries expose ts) cs mq) n = obj_get mq n.
Proof.
  induction cs as [|c cs IH]; intros H mq; [reflexivity|].
  cbn. rewrite IH by (intros c' Hc'; apply H; now right).
  rewrite obj_get_register_queries.
  destruct (H c (or_introl eq_refl)) as [H1 H2].
  now rewrite query_fields_other.
Qed.

(** The field that a collection registers under one of its two names. *)
Lemma query_fields_named (expose : bool) (ts : Obj OutputType)
      (c : Collection) (n : string) :
  n = singular_name c \/ n = plural_name c ->
  n <> "__proto__" ->
  obj_get (query_fields_of expose ts c) n
  = Some (if String.eqb n (singular_name c)
          then singular_field expose ts c
          else plural_field expose ts c).
Proof.
  intros [->| ->] Hp.
  - rewrite String.eqb_refl. now apply query_fields_singular.
  - destruct (String.eqb_spec (plural_name c) (singular_name c)) as [E|_].
    + symmetry in E. now apply singular_name_not_plural in E.
    + apply query_fields_plural.
Qed.

(** *** The two passes of a build *)

Lemma fold_register_type_keeps (cs : list Collection) (k : string) :
  forall ts,
    (exists c, obj_get ts k = Some (output_type_of c)) ->
    exists c, obj_get (fold_left register_type cs ts) k
              = Some (output_type_of c).
Proof.
  induction cs as [|c0 cs IH]; cbn [fold_left]; intros ts H; [exact H|].
  apply IH. unfold register_type.
  destruct (string_dec (capitalize (identity c0)) k) as [E|N].
  - unfold obj_set. destruct (String.eqb_spec (capitalize (identity c0))
                                              "__proto__") as [Ep|Np];
      [exact H|].
    exists c0. rewrite <- E. rewrite <- (obj_set_plain _ _ _ Np).
    now apply obj_get_set_same.
  - now rewrite obj_get_set_other.
Qed.

(** After the first pass every collection has a type in the registry. *)
Lemma registered_after_first_pass (cs : list Collection) (c : Collection)
      (d : Defaults) :
  In c cs ->
  list_made (set_types (fold_left register_type cs (types d)) d) c.
Proof.
  intros Hin. unfold list_made, type_registered, types_get. cbn [types set_types].
  destruct (string_dec (capitalize (identity c)) "__proto__") as [E|N];
    [now left | right].
  assert (H : exists c', obj_get (fold_left register_type cs (types d))
                                 (capitalize (identity c))
                         = Some (output_type_of c')).
  { generalize (types d). induction cs as [|c0 cs IH]; [destruct Hin|].
    intros ts. cbn [fold_left]. destruct Hin as [->|Hin].
    - apply fold_register_type_keeps. exists c. unfold register_type.
      now apply obj_get_set_same.
    - now apply IH. }
  destruct H as [c' ->]. discriminate.
Qed.

(** The two passes on buildable collections: every type, then every pair
    of query fields, with the collision warnings as the only output. *)
Lemma getQueries_builds (w : World) :
  (forall c, In c (collection_values (collections (defaults w))) ->
             buildable (exposeQueryLanguage (defaults w)) c) ->
  let cs := collection_values (collections (defaults w)) in
  let ts := fold_left register_type cs (types (defaults w)) in
  getQueries w
  = (Value root_type,
     logged (flat_map (warnings_of (exposeQueryLanguage (defaults w))) cs)
       (updated (fun d =>
                   set_modelQueries
                     (fold_left
                        (register_queries (exposeQueryLanguage d) ts)
                        cs (modelQueries d))
                     (set_types ts d)) w)).
Proof.
  intros Hbuildable cs ts.
  unfold getQueries. unfold bindM at 1, read at 1.
  unfold bindM at 1. rewrite forEach_buildType.
  unfold bindM at 1, read at 1. unfold bindM at 1.
  cbn [updated defaults set_types collections].
  rewrite forEach_buildQueryFields.
  - reflexivity.
  - exact Hbuildable.
  - intros c Hc. cbn [defaults].
    now apply registered_after_first_pass.
Qed.

(** The constructor leaves the module alone, and the schema it returns
    has the root fields that the thunk of line 68 gives. *)
Lemma GraphQLSchema_outcome (query : RootType) (w : World) :
  snd (GraphQLSchema query w) = w
  /\ forall schema w',
      GraphQLSchema query w = (Value schema, w') ->
      schema = {| query_name := root_name query;
                  query_fields := root_fields query (defaults w) |}.
Proof.
  unfold GraphQLSchema, bindM, read, lift, ret. cbv zeta.
  destruct (reduceM _ (root_fields query (defaults w)) []) as [seen|e].
  - split; [reflexivity|]. now intros schema w' [= <- _].
  - split; [reflexivity | discriminate].
Qed.

(** A build whose configuration passes validation and whose collections
    are all buildable gets to the constructor with the registries
    filled and with the collision warnings on the console. *)
Lemma getGraphQlSchema_builds (config : Config) (w : World) :
  configSchema config = None ->
  (forall c,
      In c (collection_values (collections (lodash_defaults config (defaults w)))) ->
      buildable (exposeQueryLanguage (lodash_defaults config (defaults w))) c) ->
  let w' :=
    logged
      (flat_map
         (warnings_of (exposeQueryLanguage (lodash_defaults config (defaults w))))
         (collection_values (collections (lodash_defaults config (defaults w)))))
      (updated (built config) w) in
  getQueries (updated (lodash_defaults config) w) = (Value root_type, w')
  /\ getGraphQlSchema config w = GraphQLSchema root_type w'
  /\ snd (getGraphQlSchema config w) = w'
  /\ forall schema w'',
      getGraphQlSchema config w = (Value schema, w'') ->
      w'' = w'
      /\ schema = {| query_name := "Schema";
                     query_fields := modelQueries (built config (defaults w)) |}.
Proof.
  intros Hvalid Hbuildable w'.
  assert (Hpasses : getQueries (updated (lodash_defaults config) w)
                    = (Value root_type, w')).
  { rewrite getQueries_builds by exact Hbuildable. reflexivity. }
  assert (Hrun : getGraphQlSchema config w = GraphQLSchema root_type w').
  { unfold getGraphQlSchema. rewrite Hvalid.
    unfold bindM at 1, read at 1. unfold bindM at 1, write at 1.
    unfold bindM at 1.
    change {| defaults := lodash_defaults config (defaults w);
              console := console w |}
      with (updated (lodash_defaults config) w).
    now rewrite Hpasses. }
  destruct (GraphQLSchema_outcome root_type w') as [Hstate Hschema].
  refine (conj Hpasses (conj Hrun (conj _ _))).
  - now rewrite Hrun.
  - intros schema w'' H. rewrite Hrun in H. split.
    + rewrite <- Hstate, H. reflexivity.
    + apply Hschema in H. exact H.
Qed.

(** C10: when two collections of a configuration derive the same
    query-field name [n] (as [tag]'s plural and [tags]' singular do),
    both passes of the build get through; the registry then has exactly
    one field named [n], which is the one registered by the later
    collection and resolves through that collection, not through the
    earlier one; the console only receives the collision warnings of the
    attributes, none about the clash; and a schema that the call returns
    exposes the registry's fields, so a single field of that name. *)
Theorem later_collection_overwrites_query_field
        (config : Config) (w : World)
        (earlier between later : list Collection) (c1 c2 : Collection)
        (n : string)
        (Hvalid : configSchema config = None)
        (Hcs : collection_values
                 (collections (lodash_defaults config (defaults w)))
               = earlier ++ c1 :: between ++ c2 :: later)
        (Hbuildable :
           forall c, In c (earlier ++ c1 :: between ++ c2 :: later) ->
                     buildable
                       (exposeQueryLanguage (lodash_defaults config (defaults w)))
                       c)
        (Hdistinct : c1 <> c2)
        (Hn1 : n = singular_name c1 \/ n = plural_name c1)
        (Hn2 : n = singular_name c2 \/ n = plural_name c2)
        (Hplain : n <> "__proto__")
        (Hlast : forall c, In c later ->
                           n <> singular_name c /\ n <> plural_name c)
        (Hregistry : NoDup (keys (modelQueries (defaults w)))) :
  let expose := exposeQueryLanguage (lodash_defaults config (defaults w)) in
  let ts := types (built config (defaults w)) in
  let w' := snd (getGraphQlSchema config w) in
  let registry := modelQueries (defaults w') in
  (exists query,
      getQueries (updated (lodash_defaults config) w) = (Value query, w'))
  /\ obj_get registry n
     = Some (if String.eqb n (singular_name c2)
             then singular_field expose ts c2
             else plural_field expose ts c2)
  /\ (forall f object criteria,
        obj_get registry n = Some f ->
        (resolve f object criteria = findOne c2 criteria
         \/ resolve f object criteria = find c2 criteria)
        /\ resolve f object criteria <> findOne c1 criteria
        /\ resolve f object criteria <> find c1 criteria)
  /\ count_occ string_dec (keys registry) n = 1
  /\ console w'
     = console w
       ++ flat_map (warnings_of expose)
                   (earlier ++ c1 :: between ++ c2 :: later)
  /\ (forall schema w'',
        getGraphQlSchema config w = (Value schema, w'') ->
        w'' = w'
        /\ query_fields schema = registry
        /\ count_occ string_dec (field_names schema) n = 1).
Proof.
  intros expose ts w' registry.
  rewrite <- Hcs in Hbuildable.
  destruct (getGraphQlSchema_builds config w Hvalid Hbuildable)
    as (Hpasses & _ & Hstate & Hschema).
  assert (Hregistry' : registry = modelQueries (built config (defaults w))).
  { subst registry w'. now rewrite Hstate. }
  assert (Hget :
            obj_get (modelQueries (built config (defaults w))) n
            = Some (if String.eqb n (singular_name c2)
                    then singular_field expose ts c2
                    else plural_field expose ts c2)).
  { unfold built. cbn [modelQueries set_modelQueries].
    cbn [collections set_types types exposeQueryLanguage].
    rewrite Hcs.
    replace (earlier ++ c1 :: between ++ c2 :: later)
      with ((earlier ++ c1 :: between) ++ c2 :: later)
      by (rewrite <- app_assoc; reflexivity).
    rewrite fold_left_app. cbn [fold_left].
    rewrite fold_register_queries_skip by assumption.
    rewrite obj_get_register_queries.
    subst ts. unfold built. cbn [types set_modelQueries set_types].
    rewrite Hcs.
    replace ((earlier ++ c1 :: between) ++ c2 :: later)
      with (earlier ++ c1 :: between ++ c2 :: later)
      by (rewrite <- app_assoc; reflexivity).
    now rewrite query_fields_named. }
  assert (Hcount : count_occ string_dec
                     (keys (modelQueries (built config (defaults w)))) n = 1).
  { apply NoDup_count_occ'.
    + unfold built. cbn [modelQueries set_modelQueries].
      apply fold_register_queries_NoDup.
      destruct (configSchema_None _ Hvalid) as (_ & Hq & _).
      unfold lodash_defaults. cbn [modelQueries set_types]. now rewrite Hq.
    + apply obj_get_In in Hget. unfold keys.
      apply in_map_iff. eexists. split; [|exact Hget]. reflexivity. }
  rewrite Hregistry'.
  refine (conj _ (conj Hget (conj _ (conj Hcount (conj _ _))))).
  - exists root_type. subst w'. now rewrite Hstate.
  - intros f object criteria Hf. rewrite Hget in Hf. injection Hf as <-.
    destruct (String.eqb n (singular_name c2)); cbn [resolve singular_field plural_field].
    + split; [now left|]. split; [|discriminate].
      intros [= E]. now apply Hdistinct.
    + split; [now right|]. split; [discriminate|].
      intros [= E]. now apply Hdistinct.
  - subst w'. rewrite Hstate. cbn [console logged updated]. now rewrite Hcs.
  - intros schema w'' Hrun. destruct (Hschema schema w'' Hrun) as [-> ->].
    subst w'. rewrite Hstate. repeat split. exact Hcount.
Qed.

Lemma later_collection_overwrites_query_field_witness :
  isValue (fst (getGraphQlSchema
                  (config_of (AsObject [("tag", Tag); ("tags", Tags)]))
                  initial_world))
  = true
  /\ option_map field_names
       (schema_of (config_of (AsObject [("tag", Tag); ("tags", Tags)]))
                  initial_world)
     = Some ["tag"; "tags"; "tagss"]
  /\ count_occ string_dec
       (keys (modelQueries
                (defaults
                   (snd (getGraphQlSchema
                           (config_of (AsObject [("tag", Tag); ("tags", Tags)]))
                           initial_world)))))
       "tags"
     = 1
  /\ option_map (fun f => resolve f VUndefined [])
       (obj_get (modelQueries
                   (defaults
                      (snd (getGraphQlSchema
                              (config_of (AsObject [("tag", Tag); ("tags", Tags)]))
                              initial_world))))
                "tags")
     = Some (findOne Tags []).
Proof.
  assert (Hb : forall expose, buildable expose Tag /\ buildable expose Tags)
    by (intros []; split; prove_buildable).
  destruct (later_collection_overwrites_query_field
              (config_of (AsObject [("tag", Tag); ("tags", Tags)]))
              initial_world [] [] [] Tag Tags "tags"
              eq_refl eq_refl
              ltac:(intros c [<-|[<-|[]]]; apply Hb)
              ltac:(discriminate)
              (or_intror eq_refl) (or_introl eq_refl)
              ltac:(discriminate)
              ltac:(intros c [])
              ltac:(constructor))
    as (_ & Hfield & _ & Hcount & _).
  split; [vm_compute; reflexivity|].
  split; [vm_compute; reflexivity|].
  split; [exact Hcount|].
  rewrite Hfield. reflexivity.
Defined.

(* ================================================================= *)
(** ** The exceptions of a build *)

Section ThrowsOnly.
Context (P : Error -> Prop).

Lemma throws_only_ret {A} (a : A) : throws_only P (ret a).
Proof. intros w e w'. discriminate. Qed.

Lemma throws_only_read : throws_only P read.
Proof. intros w e w'. discriminate. Qed.

Lemma throws_only_write (d : Defaults) : throws_only P (write d).
Proof. intros w e w'. discriminate. Qed.

Lemma throws_only_warn (message : string) : throws_only P (warn message).
Proof. intros w e w'. discriminate. Qed.

Lemma throws_only_lift {A} (o : Outcome A) :
  (forall e, o = Throw e -> P e) -> throws_only P (lift o).
Proof. intros H w e w' [= E _]. now apply H. Qed.

Lemma throws_only_bindM {A B} (m : M A) (k : A -> M B) :
  throws_only P m -> (forall a, throws_only P (k a)) ->
  throws_only P (bindM m k).
Proof.
  intros Hm Hk w e w'. unfold bindM.
  destruct (m w) as [[a|e0] w0] eqn:E.
  - apply Hk.
  - intros [= <- _]. now apply (Hm w e0 w0).
Qed.

Lemma throws_only_forEach {A} (f : A -> M unit) (l : list A) :
  (forall x, throws_only P (f x)) -> throws_only P (forEach f l).
Proof.
  intros H. induction l as [|x l IH]; cbn.
  - apply throws_only_ret.
  - apply throws_only_bindM; [apply H | intros _; exact IH].
Qed.

Lemma throws_only_forEachS {A S} (f : S -> A -> M S) (l : list A) :
  (forall s x, throws_only P (f s x)) ->
  forall acc, throws_only P (forEachS f l acc).
Proof.
  intros H. induction l as [|x l IH]; intros acc; cbn.
  - apply throws_only_ret.
  - apply throws_only_bindM; [apply H | exact IH].
Qed.

End ThrowsOnly.

Lemma classify_attribute_throws (ci : string) (expose : bool)
      (acc : Obj Arg * Obj Arg) (attribute : string * Rules) :
  throws_only loop_error (classify_attribute ci expose acc attribute).
Proof.
  unfold classify_attribute. cbv zeta.
  apply throws_only_bindM.
  - apply throws_only_lift. unfold findManyArgs_hasOwnProperty.
    destruct (hasOwnProperty (snd acc) "hasOwnProperty"); [|discriminate].
    intros e [= <-]. right. now left.
  - intros taken. destruct taken; cbn [negb].
    + destruct expose.
      * apply throws_only_bindM; [apply throws_only_warn|].
        intros _. apply throws_only_ret.
      * apply throws_only_ret.
    + destruct (collection (snd attribute)); [apply throws_only_ret|].
      apply throws_only_bindM.
      * apply throws_only_lift. unfold convertToGraphQlType.
        destruct (type (snd attribute)) as [t|].
        -- repeat match goal with |- context [String.eqb ?a ?b] =>
             destruct (String.eqb a b) end; discriminate.
        -- intros e [= <-]. now left.
      * intros t. destruct (identifying (snd attribute)); apply throws_only_ret.
Qed.

Lemma buildQueryFields_throws (c : Collection) :
  throws_only loop_error (buildQueryFields c).
Proof.
  unfold buildQueryFields. cbv zeta.
  apply throws_only_bindM; [apply throws_only_read|]. intros d0.
  apply throws_only_bindM.
  - apply throws_only_forEachS. intros s x. apply classify_attribute_throws.
  - intros acc. apply throws_only_bindM; [apply throws_only_read|].
    intros d. apply throws_only_bindM.
    + apply throws_only_lift. intros e He.
      apply list_of_registered_throws in He. right. right. tauto.
    + intros list_type. apply throws_only_write.
Qed.

Lemma buildType_throws (c : Collection) : throws_only loop_error (buildType c).
Proof. intros w e w'. discriminate. Qed.

Lemma getQueries_throws : throws_only loop_error getQueries.
Proof.
  unfold getQueries.
  apply throws_only_bindM; [apply throws_only_read|]. intros d.
  apply throws_only_bindM;
    [apply throws_only_forEach; intros c; apply buildType_throws|]. intros _.
  apply throws_only_bindM; [apply throws_only_read|]. intros d'.
  apply throws_only_bindM;
    [apply throws_only_forEach; intros c; apply buildQueryFields_throws|].
  intros _. apply throws_only_ret.
Qed.

(** An exception of a loop over an object is an exception of its body. *)
Lemma reduceM_throws_in {A S} (f : S -> A -> Outcome S) (l : list A) (e : Error) :
  forall acc,
    reduceM f l acc = Throw e ->
    exists acc' x, In x l /\ f acc' x = Throw e.
Proof.
  induction l as [|x l IH]; intros acc; cbn [reduceM]; [discriminate|].
  destruct (f acc x) as [acc'|e'] eqn:E; cbn [bind].
  - intros H. destruct (IH _ H) as (acc'' & y & Hy & He).
    exists acc'', y. split; [now right | assumption].
  - intros [= <-]. exists acc, x. split; [now left | assumption].
Qed.

(** The exceptions of a [fields] thunk. *)
Lemma type_fields_throws (c : Collection) (d : Defaults) (e : Error) :
  type_fields c d = Throw e ->
  e = TypeError "Cannot read property 'toLowerCase' of undefined"
  \/ e = LibraryError
          "Can only create List of a GraphQLType but got: undefined.".
Proof.
  unfold type_fields. intros H. apply reduceM_throws_in in H.
  destruct H as (fields & [key rules] & _ & H). cbn [fst snd] in H.
  destruct (model rules); [discriminate|].
  destruct (collection rules) as [name|].
  - destruct (list_of_registered d (capitalize name)) as [t|e'] eqn:E;
      [discriminate|].
    cbn [bind] in H. injection H as <-.
    apply list_of_registered_throws in E. tauto.
  - destruct (type rules) as [tag|].
    + rewrite convertToGraphQlType_Some in H. discriminate.
    + cbn [convertToGraphQlType bind] in H. injection H as <-. now left.
Qed.

(** The exceptions of the schema constructor. *)
Lemma collect_type_throws (d : Defaults) (root : string) (e : Error) :
  forall stack seen type,
    collect_type stack d root seen type = Throw e ->
    loop_error e
    \/ e = LibraryError
             ("Schema must contain unique named types but contains "
              ++ "multiple types named " ++ dquote ++ root ++ dquote ++ ".")
    \/ e = RangeError "Maximum call stack size exceeded".
Proof.
  induction stack as [|stack IH]; intros seen type; cbn [collect_type];
    destruct (named_type type) as [| | | | | | |name description closure|];
    try discriminate;
    destruct (String.eqb_spec name root) as [->|_];
    try (intros [= <-]; right; left; reflexivity);
    destruct (existsb (String.eqb name) seen); try discriminate.
  - intros [= <-]. right. now right.
  - destruct (type_fields closure d) as [fields|e'] eqn:E; cbn [bind].
    + intros H. apply reduceM_throws_in in H.
      destruct H as (seen' & field & _ & H). now apply IH in H.
    + intros [= <-]. apply type_fields_throws in E. left.
      unfold loop_error. tauto.
Qed.

(** *** The walk stays within its stack *)

(** The thunk, attribute by attribute. *)
Lemma type_fields_by_field_of (c : Collection) (d : Defaults) :
  type_fields c d
  = reduceM (fun o entry => v <- field_of c d entry ;;
                            Value (obj_set o (fst entry) v))
            (_attributes c) [].
Proof.
  unfold type_fields. apply reduceM_ext_in.
  intros fields [key rules] _. unfold field_of. cbn [fst snd].
  destruct (model rules); [reflexivity|].
  destruct (collection rules) as [name|].
  - destruct (list_of_registered d (capitalize name)); reflexivity.
  - destruct (convertToGraphQlType (type rules)); reflexivity.
Qed.

Lemma object_name_length {C} (type : GType C) : List.length (object_name type) <= 1.
Proof. unfold object_name. destruct (named_type type); cbn; lia. Qed.

Lemma flat_map_short {A B} (f : A -> list B) (l : list A) :
  (forall x, List.length (f x) <= 1) -> List.length (flat_map f l) <= List.length l.
Proof.
  intros H. induction l as [|x l IH]; cbn; [lia|].
  rewrite List.length_app. specialize (H x). lia.
Qed.

Lemma registered_names_length (d : Defaults) :
  List.length (registered_names d) < stack_for d.
Proof.
  unfold registered_names, stack_for. rewrite List.length_app.
  apply Nat.lt_succ_r.
  apply Nat.add_le_mono; apply flat_map_short; intros entry;
    apply object_name_length.
Qed.

Lemma types_get_names (d : Defaults) (name : string) :
  incl (object_name (types_get d name)) (registered_names d).
Proof.
  unfold types_get. destruct (obj_get (types d) name) as [t|] eqn:E;
    [|intros n []].
  apply obj_get_In in E. intros n Hn. unfold registered_names.
  apply in_or_app. left. apply in_flat_map. now exists (name, t).
Qed.

Lemma root_field_names_registered (d : Defaults) (k : string) (field : QueryField) :
  In (k, field) (modelQueries d) ->
  incl (object_name (queryField_type field)) (registered_names d).
Proof.
  intros Hin n Hn. unfold registered_names.
  apply in_or_app. right. apply in_flat_map. now exists (k, field).
Qed.

Lemma Forall_obj_put {V} (P : string * V -> Prop) (o : Obj V) (k : string) (v : V) :
  Forall P o -> P (k, v) -> Forall P (obj_put o k v).
Proof.
  intros Ho Hv. induction o as [|[k' v'] o IH]; cbn.
  - now constructor.
  - inversion Ho as [|? ? H1 H2]; subst.
    destruct (String.eqb k' k) eqn:E.
    + apply String.eqb_eq in E. subst k'. now constructor.
    + constructor; [assumption | now apply IH].
Qed.

Lemma Forall_obj_set {V} (P : V -> Prop) (o : Obj V) (k : string) (v : V) :
  Forall (fun entry => P (snd entry)) o -> P v ->
  Forall (fun entry => P (snd entry)) (obj_set o k v).
Proof.
  intros Ho Hv. unfold obj_set.
  destruct (String.eqb k "__proto__"); [assumption|].
  now apply Forall_obj_put.
Qed.

(** The object types among the field types of a thunk are the
    registry's. *)
Lemma field_of_names (c : Collection) (d : Defaults)
      (attribute : string * Rules) (field : Field) :
  field_of c d attribute = Value field ->
  incl (object_name (field_type field)) (registered_names d).
Proof.
  unfold field_of. cbv zeta.
  destruct (model (snd attribute)) as [model|].
  - intros [= <-]. apply types_get_names.
  - destruct (collection (snd attribute)) as [name|].
    + unfold list_of_registered, new_GraphQLList.
      assert (H : forall t,
                 (if String.eqb (capitalize name) "__proto__"
                  then Value (GraphQLList (types_get d (capitalize name)))
                  else match types_get d (capitalize name) with
                       | NoType =>
                           Throw (LibraryError
                                    "Can only create List of a GraphQLType but got: undefined.")
                       | _ => Value (GraphQLList (types_get d (capitalize name)))
                       end) = Value t ->
                 t = GraphQLList (types_get d (capitalize name))).
      { intros t. destruct (String.eqb (capitalize name) "__proto__");
          [congruence|].
        destruct (types_get d (capitalize name)); congruence. }
      destruct (if String.eqb (capitalize name) "__proto__" then _ else _)
        as [t|e] eqn:E; [|discriminate].
      cbn [bind]. intros [= <-]. cbn [field_type].
      rewrite (H t eq_refl). apply types_get_names.
    + destruct (type (snd attribute)) as [tag|];
        [|cbn [convertToGraphQlType bind]; discriminate].
      rewrite convertToGraphQlType_Some. cbn [bind]. intros [= <-].
      cbn [field_type]. intros n Hn. exfalso.
      destruct (required (snd attribute));
        repeat match type of Hn with
               | context [if ?b then _ else _] => destruct b
               end;
        exact Hn.
Qed.

Lemma type_fields_names (c : Collection) (d : Defaults) (fields : Obj Field) :
  type_fields c d = Value fields ->
  Forall (fun entry => incl (object_name (field_type (snd entry)))
                            (registered_names d)) fields.
Proof.
  rewrite type_fields_by_field_of.
  assert (H : forall acc,
             Forall (fun entry => incl (object_name (field_type (snd entry)))
                                       (registered_names d)) acc ->
             forall res,
               reduceM (fun o entry => v <- field_of c d entry ;;
                                       Value (obj_set o (fst entry) v))
                       (_attributes c) acc = Value res ->
               Forall (fun entry => incl (object_name (field_type (snd entry)))
                                         (registered_names d)) res).
  { induction (_attributes c) as [|entry entries IH]; intros acc Hacc res;
      cbn [reduceM]; [now intros [= <-]|].
    destruct (field_of c d entry) as [v|e] eqn:E; cbn [bind]; [|discriminate].
    apply IH.
    apply (Forall_obj_set (fun f => incl (object_name (field_type f))
                                         (registered_names d)));
      [assumption | now apply (field_of_names c d entry)]. }
  apply H. constructor.
Qed.

Lemma existsb_eqb_In (name : string) (seen : list string) :
  existsb (String.eqb name) seen = false -> ~ In name seen.
Proof.
  intros H Hin. assert (existsb (String.eqb name) seen = true);
    [|congruence].
  apply existsb_exists. exists name. split; [assumption|].
  apply String.eqb_refl.
Qed.

(** With room for the names of the registries, the walk does not run out
    of stack, and it keeps to those names. *)
Lemma collect_type_within_stack (d : Defaults) (root : string) :
  forall stack seen type,
    NoDup seen ->
    incl seen (registered_names d) ->
    incl (object_name type) (registered_names d) ->
    List.length (registered_names d) < stack + List.length seen ->
    match collect_type stack d root seen type with
    | Value seen' =>
        NoDup seen' /\ incl seen' (registered_names d)
        /\ List.length seen <= List.length seen'
    | Throw e => e <> RangeError "Maximum call stack size exceeded"
    end.
Proof.
  induction stack as [|stack IH]; intros seen type Hnd Hseen Htype Hroom;
    cbn [collect_type]; unfold object_name in Htype;
    destruct (named_type type) as [| | | | | | |name description closure|];
    try (split; [assumption | split; [assumption | lia]]);
    (destruct (String.eqb name root); [discriminate|]);
    (destruct (existsb (String.eqb name) seen) eqn:Eseen;
     [split; [assumption | split; [assumption | lia]]|]);
    apply existsb_eqb_In in Eseen;
    assert (Hname : In name (registered_names d))
      by (apply Htype; now left);
    assert (Hnd' : NoDup (name :: seen)) by (now constructor);
    assert (Hseen' : incl (name :: seen) (registered_names d))
      by (intros n [<-|Hn]; [assumption | now apply Hseen]);
    pose proof (NoDup_incl_length Hnd' Hseen') as Hlen;
    cbn [List.length] in Hlen.
  - exfalso. lia.
  - destruct (type_fields closure d) as [fields|e] eqn:E; cbn [bind].
    + apply type_fields_names in E.
      assert (Hloop : forall seen0,
                 NoDup seen0 ->
                 incl seen0 (registered_names d) ->
                 List.length (registered_names d) < stack + List.length seen0 ->
                 match reduceM (fun seen1 field =>
                                  collect_type stack d root seen1
                                               (field_type (snd field)))
                               fields seen0 with
                 | Value seen' =>
                     NoDup seen' /\ incl seen' (registered_names d)
                     /\ List.length seen0 <= List.length seen'
                 | Throw e => e <> RangeError "Maximum call stack size exceeded"
                 end).
      { induction fields as [|field fields IHf]; intros seen0 H1 H2 H3;
          cbn [reduceM]; [split; [assumption | split; [assumption | lia]]|].
        inversion E as [|? ? Hfield Hrest]; subst.
        pose proof (IH seen0 (field_type (snd field)) H1 H2 Hfield H3) as Hstep.
        destruct (collect_type stack d root seen0 (field_type (snd field)))
          as [seen1|e]; cbn [bind]; [|exact Hstep].
        destruct Hstep as (G1 & G2 & G3).
        specialize (IHf Hrest seen1 G1 G2 ltac:(lia)).
        destruct (reduceM _ fields seen1) as [seen2|e]; [|exact IHf].
        destruct IHf as (K1 & K2 & K3).
        split; [assumption | split; [assumption | lia]]. }
      specialize (Hloop (name :: seen) Hnd' Hseen' ltac:(cbn [List.length]; lia)).
      destruct (reduceM _ fields (name :: seen)) as [seen'|e]; [|exact Hloop].
      destruct Hloop as (K1 & K2 & K3). cbn [List.length] in K3.
      split; [assumption | split; [assumption | lia]].
    + apply type_fields_throws in E. destruct E as [-> | ->]; discriminate.
Qed.

(** [getQueries] returns the root type of the registry. *)
Lemma getQueries_root (w w' : World) (query : RootType) :
  getQueries w = (Value query, w') -> query = root_type.
Proof.
  unfold getQueries, bindM, read, ret.
  destruct (forEach buildType _ w) as [[[]|e] w1]; [|discriminate].
  destruct (forEach buildQueryFields _ w1) as [[[]|e] w2]; [|discriminate].
  now intros [= <- _].
Qed.

(** The constructor, on the root type of the registry, throws nothing
    but an exception of a [fields] thunk or its own refusal of a type
    named like the root. *)
Lemma GraphQLSchema_throws :
  throws_only (fun e => loop_error e
                        \/ e = LibraryError
                                 ("Schema must contain unique named types but "
                                  ++ "contains multiple types named "
                                  ++ dquote ++ "Schema" ++ dquote ++ "."))
              (GraphQLSchema root_type).
Proof.
  intros w e w'. unfold GraphQLSchema, bindM, read, lift, ret. cbv zeta.
  cbn [root_type root_fields root_name].
  assert (Hloop : forall fs seen0,
             incl fs (modelQueries (defaults w)) ->
             NoDup seen0 ->
             incl seen0 (registered_names (defaults w)) ->
             List.length (registered_names (defaults w))
             < stack_for (defaults w) + List.length seen0 ->
             forall e',
               reduceM (fun seen field =>
                          collect_type (stack_for (defaults w)) (defaults w)
                                       "Schema" seen
                                       (queryField_type (snd field)))
                       fs seen0 = Throw e' ->
               e' <> RangeError "Maximum call stack size exceeded").
  { intros fs. induction fs as [|[k field] fs IHf];
      intros seen0 Hin H1 H2 H3 e'; cbn [reduceM]; [discriminate|].
    pose proof (collect_type_within_stack (defaults w) "Schema"
                  (stack_for (defaults w)) seen0
                  (queryField_type field) H1 H2
                  (root_field_names_registered _ k field
                     (Hin _ (or_introl eq_refl))) H3) as Hstep.
    cbn [snd].
    destruct (collect_type _ _ _ seen0 (queryField_type field)) as [seen1|e1];
      cbn [bind]; [|now intros [= <-]].
    destruct Hstep as (G1 & G2 & G3).
    apply IHf; [|assumption|assumption|lia].
    intros x Hx. apply Hin. now right. }
  destruct (reduceM _ (modelQueries (defaults w)) []) as [seen|e'] eqn:E;
    [discriminate|].
  intros [= <- _].
  pose proof (Hloop _ [] (incl_refl _) (NoDup_nil _) (incl_nil_l _)
                ltac:(pose proof (registered_names_length (defaults w));
                      cbn [List.length]; lia) e' E) as Hrange.
  apply reduceM_throws_in in E.
  destruct E as (seen & field & _ & E). apply collect_type_throws in E.
  destruct E as [E|[E|E]]; [now left | now right | contradiction].
Qed.

(** Past validation a build can only end with an exception of its
    loops or of the schema constructor. *)
Lemma getGraphQlSchema_throws_after_validation (config : Config) :
  configSchema config = None ->
  throws_only (fun e => build_error e /\ forall message, e <> ValidationError message)
              (getGraphQlSchema config).
Proof.
  intros H. unfold getGraphQlSchema. rewrite H.
  assert (Hloop : forall e, loop_error e ->
                            build_error e
                            /\ forall message, e <> ValidationError message).
  { intros e He. split; [right; now left|].
    destruct He as [->|[->| ->]]; discriminate. }
  apply throws_only_bindM; [apply throws_only_read|]. intros d.
  apply throws_only_bindM; [apply throws_only_write|]. intros _.
  unfold throws_only, bindM. intros w e w'.
  destruct (getQueries w) as [[query|e0] w0] eqn:Hq.
  - apply getQueries_root in Hq. subst query. intros Hrun.
    apply GraphQLSchema_throws in Hrun. destruct Hrun as [Hrun| ->].
    + now apply Hloop.
    + split; [right; now right | discriminate].
  - intros [= <- <-]. apply Hloop. now apply (getQueries_throws w e0 w0).
Qed.

Lemma getGraphQlSchema_throws (config : Config) :
  throws_only build_error (getGraphQlSchema config).
Proof.
  destruct (configSchema config) as [e0|] eqn:E.
  - intros w e w'. unfold getGraphQlSchema. rewrite E.
    intros [= <- _]. left. unfold configSchema in E.
    destruct (config_collections config); [|injection E as <-; eauto].
    destruct (config_modelQueries config); [injection E as <-; eauto|].
    destruct (config_types config); [injection E as <-; eauto | discriminate].
  - intros w e w' H.
    now apply (getGraphQlSchema_throws_after_validation config E w e w').
Qed.

(* ================================================================= *)
(** ** Validation of the configuration (C2) *)

(** C2 fails on the code.  [internals.configSchema] requires
    [collections], and a configuration without it is refused with the
    validation error, the module being left as it was.  But the schema
    has no test for emptiness, as the older adapter has on its line 23:
    every configuration that has [collections], empty or not, passes, and
    a call that got past validation never ends with a validation error.
    So, in a module that has built the blog, the call for an empty
    mapping, or for an empty sequence, returns a schema: the one with the
    four fields that were left in the registry.  The older adapter, in a
    module that has built the blog, answers with its error text. *)
Theorem empty_collections_are_not_refused :
  (forall config w,
      config_collections config = None ->
      getGraphQlSchema config w
      = (Throw (ValidationError "collections is required"), w))
  /\ (forall cs expose,
        configSchema {| config_collections := Some cs;
                        config_exposeQueryLanguage := expose;
                        config_modelQueries := None;
                        config_types := None |}
        = None)
  /\ (forall config w e w',
        configSchema config = None ->
        getGraphQlSchema config w = (Throw e, w') ->
        forall message, e <> ValidationError message)
  /\ (let used := after (config_of blog) initial_world in
      option_map field_names (schema_of (config_of (AsObject [])) used)
      = Some ["user"; "users"; "article"; "articles"]
      /\ option_map field_names (schema_of (config_of (AsArray [])) used)
         = Some ["user"; "users"; "article"; "articles"]
      /\ fst (LibAdapter.getGraphQLSchema
                {| LibAdapter.params_collections := Some (AsObject []);
                   LibAdapter.params_usefulFunctions := None |}
                (LibExpected.after MoreExamples.lib_blog
                                   LibAdapter.initial_defaults))
         = LibAdapter.ErrorText "Error: Empty object collections").
Proof.
  refine (conj _ (conj _ (conj _ _))).
  - intros config w H. unfold getGraphQlSchema, configSchema. now rewrite H.
  - reflexivity.
  - intros config w e w' Hvalid Hrun.
    now apply (getGraphQlSchema_throws_after_validation config Hvalid) in Hrun.
  - cbv zeta. repeat split; vm_compute; reflexivity.
Qed.

(* ================================================================= *)
(** ** Literals of an unsupported kind (C8) *)

Lemma mapM_throws_at {A B} (f : A -> Outcome B) (before after : list A)
      (x : A) (e : Error) :
  (forall y, In y before -> isValue (f y) = true) ->
  f x = Throw e ->
  mapM f (before ++ x :: after) = Throw e.
Proof.
  intros Hb Hx. induction before as [|y before IH]; cbn.
  - now rewrite Hx.
  - specialize (Hb y (or_introl eq_refl)) as Hy.
    destruct (f y); [|discriminate]. cbn.
    rewrite IH; [reflexivity|]. intros z Hz. apply Hb. now right.
Qed.

(** C8: for a node whose kind is none of the seven that [getParser]
    knows, [parseLiteral] throws (the [null] parser cannot be called);
    the exception aborts the parse of a list literal that reaches the
    node; and no build of a schema can end with this exception. *)
Theorem parseLiteral_unsupported_kind_throws
        (scalars : Scalars) (tree : Node)
        (Hkind : ~ In (kind tree) supported_kinds) :
  GraphQLJson_parseLiteral tree
  = Throw (TypeError "Cannot read property 'call' of null")
  /\ (forall before after,
        (forall node, In node before ->
                      isValue (GraphQLJson_parseLiteral node) = true) ->
        GraphQLJson_parseLiteral (ListValue (before ++ tree :: after))
        = Throw (TypeError "Cannot read property 'call' of null"))
  /\ (forall config w e w',
        getGraphQlSchema config w = (Throw e, w') ->
        e <> TypeError "Cannot read property 'call' of null").
Proof.
  refine (conj _ (conj _ _)).
  - now apply parseLiteral_unsupported.
  - intros before after Hb. rewrite parseLiteral_ListValue.
    rewrite (mapM_throws_at _ before after tree
               (TypeError "Cannot read property 'call' of null"));
      [reflexivity | assumption | now apply parseLiteral_unsupported].
  - intros config w e w' Hrun.
    apply getGraphQlSchema_throws in Hrun.
    destruct Hrun as [[message ->]|[[->|[->| ->]]| ->]]; discriminate.
Qed.

Lemma parseLiteral_unsupported_kind_throws_witness :
  @GraphQLJson_parseLiteral Reference.scalars (OtherNode "Variable")
  = Throw (TypeError "Cannot read property 'call' of null").
Proof.
  exact (proj1 (parseLiteral_unsupported_kind_throws
                  Reference.scalars (OtherNode "Variable")
                  ltac:(cbn; intuition discriminate))).
Defined.

(* ================================================================= *)
(** ** State kept between builds (C1) *)

Lemma In_keys_set {V} (o : Obj V) (k k' : string) (v : V) :
  In k (keys o) -> In k (keys (obj_set o k' v)).
Proof.
  intros H. unfold obj_set. destruct (String.eqb k' "__proto__"); [assumption|].
  apply In_keys_put. now right.
Qed.

Lemma In_keys_assign {V} (target source : Obj V) (k : string) :
  In k (keys target) -> In k (keys (assign target source)).
Proof.
  unfold assign. revert target.
  induction source as [|[k0 v0] source IH]; intros target H; [assumption|].
  cbn. apply IH. now apply In_keys_set.
Qed.

Lemma registries_grow_refl (w : World) : registries_grow w w.
Proof. split; auto. Qed.

Lemma registries_grow_trans (w1 w2 w3 : World) :
  registries_grow w1 w2 -> registries_grow w2 w3 -> registries_grow w1 w3.
Proof. intros [H1 H2] [H3 H4]. split; auto. Qed.

Lemma classify_attribute_keeps_defaults (ci : string) (expose : bool)
      (acc : Obj Arg * Obj Arg) (attribute : string * Rules) (w : World) :
  defaults (snd (classify_attribute ci expose acc attribute w)) = defaults w.
Proof.
  unfold classify_attribute, bindM, lift, findManyArgs_hasOwnProperty. cbv zeta.
  destruct (hasOwnProperty (snd acc) "hasOwnProperty"); [reflexivity|].
  destruct (hasOwnProperty (snd acc) (fst attribute)); cbn [negb].
  - destruct expose; reflexivity.
  - destruct (collection (snd attribute)); [reflexivity|].
    destruct (convertToGraphQlType (type (snd attribute))); [|reflexivity].
    destruct (identifying (snd attribute)); reflexivity.
Qed.

Lemma forEachS_classify_keeps_defaults (ci : string) (expose : bool)
      (attrs : Obj Rules) :
  forall acc w,
    defaults (snd (forEachS (classify_attribute ci expose) attrs acc w))
    = defaults w.
Proof.
  induction attrs as [|a attrs IH]; intros acc w; [reflexivity|].
  cbn [forEachS]. unfold bindM.
  pose proof (classify_attribute_keeps_defaults ci expose acc a w) as H.
  destruct (classify_attribute ci expose acc a w) as [[acc'|e] w0];
    cbn [snd] in H |- *.
  - now rewrite IH.
  - assumption.
Qed.

Lemma buildQueryFields_grows (c : Collection) (w : World) :
  registries_grow w (snd (buildQueryFields c w)).
Proof.
  unfold buildQueryFields, bindM, read. cbv zeta.
  pose proof (forEachS_classify_keeps_defaults
                (capitalize (identity c)) (exposeQueryLanguage (defaults w))
                (_attributes c)
                ([], builtin_findManyArgs (exposeQueryLanguage (defaults w))) w)
    as H.
  destruct (forEachS _ _ _ w) as [[acc|e] w0]; cbn [snd] in H |- *.
  - unfold lift.
    destruct (list_of_registered (defaults w0) (capitalize (identity c)))
      as [list_type|e]; unfold write; cbn [snd].
    + split; cbn [defaults modelQueries types set_modelQueries];
        rewrite H; intros n Hn; [|assumption].
      now apply In_keys_assign.
    + split; rewrite H; auto.
  - split; rewrite H; auto.
Qed.

Lemma buildType_grows (c : Collection) (w : World) :
  registries_grow w (snd (buildType c w)).
Proof. split; cbn; intros n Hn; [assumption | now apply In_keys_set]. Qed.

Lemma forEach_grows {A} (f : A -> M unit) (l : list A) :
  (forall x w, registries_grow w (snd (f x w))) ->
  forall w, registries_grow w (snd (forEach f l w)).
Proof.
  intros H. induction l as [|x l IH]; intros w; cbn [forEach].
  - apply registries_grow_refl.
  - unfold bindM. specialize (H x w).
    destruct (f x w) as [[[]|e] w0]; cbn in *; [|assumption].
    eapply registries_grow_trans; [exact H | apply IH].
Qed.

Lemma buildType_keeps_expose (c : Collection) (w : World) :
  exposeQueryLanguage (defaults (snd (buildType c w)))
  = exposeQueryLanguage (defaults w).
Proof. reflexivity. Qed.

Lemma buildQueryFields_keeps_expose (c : Collection) (w : World) :
  exposeQueryLanguage (defaults (snd (buildQueryFields c w)))
  = exposeQueryLanguage (defaults w).
Proof.
  unfold buildQueryFields, bindM, read. cbv zeta.
  pose proof (forEachS_classify_keeps_defaults
                (capitalize (identity c)) (exposeQueryLanguage (defaults w))
                (_attributes c)
                ([], builtin_findManyArgs (exposeQueryLanguage (defaults w))) w)
    as H.
  destruct (forEachS _ _ _ w) as [[acc|e] w0]; cbn [snd] in H |- *.
  - unfold lift.
    destruct (list_of_registered (defaults w0) (capitalize (identity c)))
      as [list_type|e]; unfold write;
      cbn [snd defaults exposeQueryLanguage set_modelQueries];
      now rewrite H.
  - now rewrite H.
Qed.

Lemma forEach_keeps_expose {A} (f : A -> M unit) (l : list A) :
  (forall x w, exposeQueryLanguage (defaults (snd (f x w)))
               = exposeQueryLanguage (defaults w)) ->
  forall w, exposeQueryLanguage (defaults (snd (forEach f l w)))
            = exposeQueryLanguage (defaults w).
Proof.
  intros H. induction l as [|x l IH]; intros w; cbn [forEach]; [reflexivity|].
  unfold bindM. specialize (H x w).
  destruct (f x w) as [[[]|e] w0]; cbn [snd] in H |- *; [|assumption].
  now rewrite IH.
Qed.

Lemma getQueries_grows (w : World) :
  registries_grow w (snd (getQueries w))
  /\ exposeQueryLanguage (defaults (snd (getQueries w)))
     = exposeQueryLanguage (defaults w)
  /\ (forall query,
        fst (getQueries w) = Value query ->
        root_name query = "Schema"
        /\ root_fields query (defaults (snd (getQueries w)))
           = modelQueries (defaults (snd (getQueries w)))).
Proof.
  unfold getQueries, bindM, read, ret.
  pose proof (forEach_grows buildType
                (collection_values (collections (defaults w)))
                buildType_grows w) as H1.
  pose proof (forEach_keeps_expose buildType
                (collection_values (collections (defaults w)))
                buildType_keeps_expose w) as E1.
  destruct (forEach buildType _ w) as [[[]|e] w1]; cbn [snd fst] in H1, E1 |- *.
  - pose proof (forEach_grows buildQueryFields
                  (collection_values (collections (defaults w1)))
                  buildQueryFields_grows w1) as H2.
    pose proof (forEach_keeps_expose buildQueryFields
                  (collection_values (collections (defaults w1)))
                  buildQueryFields_keeps_expose w1) as E2.
    destruct (forEach buildQueryFields _ w1) as [[[]|e] w2];
      cbn [snd fst] in H2, E2 |- *.
    + split; [eapply registries_grow_trans; eassumption|].
      split; [congruence|]. intros query [= <-]. split; reflexivity.
    + split; [eapply registries_grow_trans; eassumption|].
      split; [congruence | discriminate].
  - split; [assumption|]. split; [assumption | discriminate].
Qed.

Lemma getGraphQlSchema_past_validation (config : Config) (w : World) :
  configSchema config = None ->
  getGraphQlSchema config w
  = match getQueries (updated (lodash_defaults config) w) with
    | (Value query, w') => GraphQLSchema query w'
    | (Throw e, w') => (Throw e, w')
    end.
Proof. intros H. unfold getGraphQlSchema. now rewrite H. Qed.

(** Whatever a build that passes validation does, the names that the
    two registries held before are still there afterwards, the schema it
    returns has a root field for each earlier query-field name, and an
    option that the configuration leaves out keeps its earlier value. *)
Lemma getGraphQlSchema_keeps_registrations (config : Config) (w : World) :
  configSchema config = None ->
  registries_grow w (snd (getGraphQlSchema config w))
  /\ (forall schema,
        fst (getGraphQlSchema config w) = Value schema ->
        forall n, In n (keys (modelQueries (defaults w))) ->
                  In n (field_names schema))
  /\ (config_exposeQueryLanguage config = None ->
      exposeQueryLanguage (defaults (snd (getGraphQlSchema config w)))
      = exposeQueryLanguage (defaults w)).
Proof.
  intros Hvalid. destruct (configSchema_None _ Hvalid) as (_ & Hq & Ht).
  rewrite getGraphQlSchema_past_validation by assumption.
  assert (H1 : registries_grow w (updated (lodash_defaults config) w)).
  { split; cbn; [rewrite Hq | rewrite Ht]; auto. }
  assert (E1 : config_exposeQueryLanguage config = None ->
               exposeQueryLanguage
                 (defaults (updated (lodash_defaults config) w))
               = exposeQueryLanguage (defaults w)).
  { intros Hexpose. cbn. now rewrite Hexpose. }
  destruct (getQueries_grows (updated (lodash_defaults config) w))
    as (H2 & E2 & Hroot).
  destruct (getQueries (updated (lodash_defaults config) w)) as [[query|e] w2];
    cbn [snd fst] in H2, E2, Hroot |- *.
  - destruct (Hroot query eq_refl) as [_ Hfields].
    assert (H : registries_grow w w2)
      by (eapply registries_grow_trans; eassumption).
    destruct (GraphQLSchema_outcome query w2) as [Hstate Hschema].
    rewrite Hstate.
    split; [exact H|]. split.
    + intros schema Hrun.
      destruct (GraphQLSchema query w2) as [[schema'|e] w3] eqn:E;
        [|discriminate Hrun].
      cbn [fst] in Hrun. injection Hrun as ->.
      rewrite (Hschema schema w3 eq_refl).
      unfold field_names. cbn [query_fields].
      rewrite Hfields. apply H.
    + intros Hexpose. rewrite E2. now apply E1.
  - split; [eapply registries_grow_trans; eassumption|].
    split; [discriminate|].
    intros Hexpose. rewrite E2. now apply E1.
Qed.

(** *** Two builds from equal configurations *)

Lemma obj_ext {V} (o o' : Obj V) :
  keys o = keys o' ->
  NoDup (keys o) ->
  (forall k, obj_get o k = obj_get o' k) ->
  o = o'.
Proof.
  revert o'. induction o as [|[k v] o IH]; intros [|[k' v'] o'] Hk Hnd Hget;
    try discriminate; [reflexivity|].
  cbn in Hk. injection Hk as <- Hk. inversion Hnd as [|? ? Hnotin Hnd']; subst.
  pose proof (Hget k) as Hv. cbn in Hv. rewrite String.eqb_refl in Hv.
  injection Hv as <-. f_equal. apply IH; [assumption | assumption|].
  intros k0. specialize (Hget k0). cbn in Hget.
  destruct (String.eqb_spec k k0) as [E|Hne]; [subst k0 | assumption].
  assert (H1 : obj_get o k = None) by now apply obj_get_None_iff.
  assert (H2 : obj_get o' k = None)
    by (apply obj_get_None_iff; unfold keys in *; now rewrite <- Hk).
  congruence.
Qed.

Lemma keys_set_present {V} (o : Obj V) (k : string) (v : V) :
  In k (keys o) -> keys (obj_set o k v) = keys o.
Proof.
  intros H. unfold obj_set. destruct (String.eqb k "__proto__"); [reflexivity|].
  now apply keys_put_present.
Qed.

Lemma keys_assign_present {V} (target source : Obj V) :
  (forall k, In k (keys source) -> In k (keys target)) ->
  keys (assign target source) = keys target.
Proof.
  unfold assign. revert target.
  induction source as [|[k v] source IH]; intros target H; [reflexivity|].
  cbn [fold_left fst snd]. rewrite IH.
  - apply keys_set_present. apply H. now left.
  - intros k0 Hk0. apply In_keys_set. apply H. now right.
Qed.

Lemma In_keys_assign_source {V} (target source : Obj V) (k : string) :
  NoDup (keys source) -> ~ In "__proto__" (keys source) ->
  In k (keys source) -> In k (keys (assign target source)).
Proof.
  intros Hnd Hp Hk.
  destruct (obj_get (assign target source) k) as [v|] eqn:E.
  - apply obj_get_In in E. unfold keys. apply in_map_iff.
    exists (k, v). now split.
  - rewrite obj_get_assign in E by assumption.
    destruct (obj_get source k) eqn:E'; [discriminate|].
    apply obj_get_None_iff in E'. contradiction.
Qed.

Section EqualConfigurations.
Variable expose : bool.

Lemma query_fields_keys (ts ts' : Obj OutputType) (c : Collection) :
  keys (query_fields_of expose ts c) = keys (query_fields_of expose ts' c).
Proof.
  unfold query_fields_of, obj_set.
  destruct (String.eqb (plural_name c) "__proto__");
    destruct (String.eqb (singular_name c) "__proto__"); cbn;
    destruct (String.eqb (singular_name c) (plural_name c)); reflexivity.
Qed.

Lemma query_fields_args_view (ts ts' : Obj OutputType) (c : Collection)
      (n : string) :
  args_view (query_fields_of expose ts c) n
  = args_view (query_fields_of expose ts' c) n.
Proof.
  unfold args_view, query_fields_of, obj_set.
  destruct (String.eqb (plural_name c) "__proto__");
    destruct (String.eqb (singular_name c) "__proto__"); cbn;
    destruct (String.eqb (singular_name c) (plural_name c)); cbn;
    repeat match goal with |- context [String.eqb ?a n] =>
      destruct (String.eqb a n) end; reflexivity.
Qed.

Lemma args_view_fold (ts : Obj OutputType) (n : string) (cs : list Collection) :
  forall mq,
    args_view (fold_left (register_queries expose ts) cs mq) n
    = last_registered expose n cs (args_view mq n).
Proof.
  induction cs as [|c cs IH]; intros mq; [reflexivity|].
  cbn [fold_left]. rewrite IH. unfold last_registered at 2. cbn [fold_left].
  fold (last_registered expose n cs). f_equal.
  rewrite <- (query_fields_args_view ts [] c n).
  unfold args_view. rewrite obj_get_register_queries.
  now destruct (obj_get (query_fields_of expose ts c) n).
Qed.

(** Either no collection derives [n], or the last one that does decides. *)
Lemma last_registered_decides (n : string) (cs : list Collection) :
  (forall before, last_registered expose n cs before = before)
  \/ (exists names, forall before,
         last_registered expose n cs before = Some names).
Proof.
  induction cs as [|c cs IH]; [now left|].
  unfold last_registered in *. cbn [fold_left].
  destruct IH as [IH|[names IH]].
  - destruct (args_view (query_fields_of expose [] c) n) as [names|].
    + right. exists names. intros before. apply IH.
    + left. intros before. apply IH.
  - right. exists names. intros before. apply IH.
Qed.

Lemma last_registered_idempotent (n : string) (cs : list Collection)
      (before : option (list string)) :
  last_registered expose n cs (last_registered expose n cs before)
  = last_registered expose n cs before.
Proof.
  destruct (last_registered_decides n cs) as [H|[names H]].
  - now rewrite !H.
  - now rewrite !H.
Qed.

Lemma fold_register_queries_In (ts : Obj OutputType) (cs : list Collection)
      (c : Collection) (k : string) :
  In c cs -> In k (keys (query_fields_of expose ts c)) ->
  forall mq, In k (keys (fold_left (register_queries expose ts) cs mq)).
Proof.
  induction cs as [|c0 cs IH]; intros Hc Hk mq; [destruct Hc|].
  cbn [fold_left]. destruct Hc as [->|Hc].
  - assert (H : In k (keys (register_queries expose ts mq c))).
    { apply In_keys_assign_source;
        [apply query_fields_NoDup | apply query_fields_no_proto | assumption]. }
    revert H. generalize (register_queries expose ts mq c). clear.
    induction cs as [|c1 cs IH]; intros m H; [assumption|].
    cbn [fold_left]. apply IH. now apply In_keys_assign.
  - now apply IH.
Qed.

Lemma fold_register_queries_keys_present (ts : Obj OutputType)
      (cs : list Collection) :
  forall mq,
    (forall c k, In c cs -> In k (keys (query_fields_of expose ts c)) ->
                 In k (keys mq)) ->
    keys (fold_left (register_queries expose ts) cs mq) = keys mq.
Proof.
  induction cs as [|c cs IH]; intros mq H; [reflexivity|].
  cbn [fold_left].
  assert (E : keys (register_queries expose ts mq c) = keys mq).
  { apply keys_assign_present. intros k Hk. apply (H c k); [now left | assumption]. }
  rewrite IH; [exact E|].
  intros c' k Hc' Hk. rewrite E. apply (H c' k); [now right | assumption].
Qed.

End EqualConfigurations.

Lemma argument_names_by_view (s : Schema) (n : string) :
  obj_get (argument_names s) n = args_view (query_fields s) n.
Proof.
  unfold argument_names, args_view.
  induction (query_fields s) as [|[k f] mq IH]; [reflexivity|].
  cbn. destruct (String.eqb k n); [reflexivity | exact IH].
Qed.

Lemma argument_names_keys (s : Schema) : keys (argument_names s) = field_names s.
Proof. unfold argument_names, field_names, keys. now rewrite map_map. Qed.

(** The half of C1 that the code keeps: when a build that got through
    is repeated at once with an equal configuration (a new object with
    the same contents) and both calls return a schema, the two schemas
    have the same root field names and, field by field, the same
    argument names. *)
Lemma same_configuration_twice (config : Config) (w w1 w2 : World)
      (first second : Schema) :
  configSchema config = None ->
  (forall c,
      In c (collection_values (collections (lodash_defaults config (defaults w)))) ->
      buildable (exposeQueryLanguage (lodash_defaults config (defaults w))) c) ->
  NoDup (keys (modelQueries (defaults w))) ->
  getGraphQlSchema config w = (Value first, w1) ->
  getGraphQlSchema config w1 = (Value second, w2) ->
  field_names second = field_names first
  /\ argument_names second = argument_names first.
Proof.
  intros Hvalid Hbuildable Hnd Hfirst Hsecond.
  destruct (configSchema_None _ Hvalid) as ([cs0 Hcs0] & Hq & Ht).
  destruct (getGraphQlSchema_builds config w Hvalid Hbuildable)
    as (_ & _ & _ & Hschema).
  destruct (Hschema first w1 Hfirst) as [Hw1 ->]. clear Hschema.
  set (d1 := lodash_defaults config (defaults w)) in *.
  assert (Hcs : collections (lodash_defaults config (defaults w1)) = collections d1).
  { subst d1 w1. unfold lodash_defaults. cbn. now rewrite Hcs0. }
  assert (He : exposeQueryLanguage (lodash_defaults config (defaults w1))
               = exposeQueryLanguage d1).
  { subst d1 w1. unfold lodash_defaults. cbn.
    now destruct (config_exposeQueryLanguage config). }
  assert (Hmq : modelQueries (lodash_defaults config (defaults w1))
                = modelQueries (built config (defaults w))).
  { subst w1. unfold lodash_defaults. cbn [modelQueries]. now rewrite Hq. }
  assert (Hbuildable1 : forall c,
             In c (collection_values
                     (collections (lodash_defaults config (defaults w1)))) ->
             buildable (exposeQueryLanguage (lodash_defaults config (defaults w1))) c).
  { rewrite Hcs, He. exact Hbuildable. }
  destruct (getGraphQlSchema_builds config w1 Hvalid Hbuildable1)
    as (_ & _ & _ & Hschema).
  destruct (Hschema second w2 Hsecond) as [_ ->]. clear Hschema.
  set (cs := collection_values (collections d1)) in *.
  set (e := exposeQueryLanguage d1) in *.
  assert (Hmq1 : modelQueries (built config (defaults w))
                 = fold_left (register_queries e
                                (fold_left register_type cs (types d1)))
                             cs (modelQueries (defaults w))).
  { unfold built. fold d1. cbn [modelQueries set_modelQueries types set_types
                                exposeQueryLanguage collections].
    fold cs e. f_equal. subst d1. unfold lodash_defaults.
    cbn [modelQueries]. now rewrite Hq. }
  assert (Hmq2 : exists ts',
             modelQueries (built config (defaults w1))
             = fold_left (register_queries e ts') cs
                         (modelQueries (built config (defaults w)))).
  { unfold built at 1.
    cbn [modelQueries set_modelQueries types set_types
         exposeQueryLanguage collections].
    rewrite Hcs, He, Hmq. fold cs e. eexists. reflexivity. }
  destruct Hmq2 as [ts' Hmq2].
  assert (Hkeys : keys (modelQueries (built config (defaults w1)))
                  = keys (modelQueries (built config (defaults w)))).
  { rewrite Hmq2. apply fold_register_queries_keys_present.
    intros c k Hc Hk. rewrite Hmq1.
    apply (fold_register_queries_In e _ cs c k Hc).
    now rewrite (query_fields_keys e _ ts' c). }
  split.
  - unfold field_names. cbn [query_fields]. exact Hkeys.
  - apply obj_ext.
    + rewrite !argument_names_keys. unfold field_names. cbn [query_fields].
      exact Hkeys.
    + rewrite argument_names_keys. unfold field_names. cbn [query_fields].
      rewrite Hkeys, Hmq1. now apply fold_register_queries_NoDup.
    + intros n. rewrite !argument_names_by_view. cbn [query_fields].
      rewrite Hmq2, Hmq1, !args_view_fold.
      apply last_registered_idempotent.
Qed.

(** C1 fails on the code.  A build that passes validation never starts
    from the configuration defaults: the names held by the two registries
    before the call are still there after it and are root fields of the
    schema it returns, and an [exposeQueryLanguage] that the
    configuration leaves out is the previous call's.  So, after a build
    for [user] with the query language exposed, a build for [article]
    alone, which in a fresh module gives the fields [article] and
    [articles] without a [where] argument, gives [user] and [users] too
    and a [where] argument on every plural field; the type registry keeps
    [User] as well.  And the configuration object of the first call,
    which line 48 has turned into [internals.defaults], is refused when
    it is passed again. *)
Theorem registries_leak_across_builds :
  (forall config w schema w' n,
      getGraphQlSchema config w = (Value schema, w') ->
      In n (keys (modelQueries (defaults w))) ->
      In n (field_names schema))
  /\ (forall config w,
        configSchema config = None ->
        registries_grow w (snd (getGraphQlSchema config w))
        /\ (config_exposeQueryLanguage config = None ->
            exposeQueryLanguage (defaults (snd (getGraphQlSchema config w)))
            = exposeQueryLanguage (defaults w)))
  /\ (let first := config_with (AsObject [("user", User)]) true in
      let second := config_of (AsObject [("article", Article)]) in
      let used := after first initial_world in
      option_map argument_names (schema_of second initial_world)
      = Some [("article", ["id"]);
              ("articles", ["limit"; "skip"; "sort"; "title"; "author"])]
      /\ option_map argument_names (schema_of second used)
         = Some [("user", ["id"; "email"]);
                 ("users", ["limit"; "skip"; "sort"; "where"; "firstName"]);
                 ("article", ["id"]);
                 ("articles",
                  ["limit"; "skip"; "sort"; "where"; "title"; "author"])]
      /\ keys (types (defaults (after second initial_world))) = ["Article"]
      /\ keys (types (defaults (after second used))) = ["User"; "Article"]
      /\ fst (getGraphQlSchema (as_config (defaults used)) used)
         = Throw (ValidationError "modelQueries is not allowed")).
Proof.
  refine (conj _ (conj _ _)).
  - intros config w schema w' n Hrun Hn.
    destruct (configSchema config) as [e|] eqn:Hvalid.
    + unfold getGraphQlSchema in Hrun. rewrite Hvalid in Hrun. discriminate.
    + apply (proj1 (proj2 (getGraphQlSchema_keeps_registrations config w Hvalid)));
        [now rewrite Hrun | assumption].
  - intros config w Hvalid. split.
    + apply (getGraphQlSchema_keeps_registrations config w Hvalid).
    + apply (getGraphQlSchema_keeps_registrations config w Hvalid).
  - repeat split; reflexivity.
Qed.

(** In the build for [user] above the registries are filled before the
    constructor refuses the list of articles, which have no type yet.
    The registries leak in the same way out of a build that returns its
    schema: after [page], with the query language exposed, a build for
    [tag] alone has the fields and the [where] arguments of both. *)
Lemma leak_after_returned_build :
  let first := config_with (AsObject [("page", Page)]) true in
  let second := config_of (AsObject [("tag", Tag)]) in
  let used := after first initial_world in
  fst (getGraphQlSchema (config_with (AsObject [("user", User)]) true)
                        initial_world)
  = Throw (LibraryError
             "Can only create List of a GraphQLType but got: undefined.")
  /\ isValue (fst (getGraphQlSchema first initial_world)) = true
  /\ option_map argument_names (schema_of second initial_world)
     = Some [("tag", ["id"]); ("tags", ["limit"; "skip"; "sort"; "label"])]
  /\ option_map argument_names (schema_of second used)
     = Some [("page", ["id"]); ("pages", ["limit"; "skip"; "sort"; "where"]);
             ("tag", ["id"]);
             ("tags", ["limit"; "skip"; "sort"; "where"; "label"])]
  /\ keys (types (defaults (after second used))) = ["Page"; "Tag"].
Proof. cbv zeta. repeat split; vm_compute; reflexivity. Qed.

(* ================================================================= *)
(** ** The relation resolvers (C3, C4) *)

(** C3, as stated, fails.  For an article whose [author] is the bare
    identifier [3], the resolver finds the article's own [id] under the
    referenced collection's primary-key name and looks the user up by
    that, where the nested record [{id: 3}] gives [3]; and a parent
    without the field makes the resolver throw. *)
Lemma bare_identifier_shadowed_by_parent_key :
  let d := defaults (after (config_of blog) initial_world) in
  resolve_model "author" "user" d
    (VObj [("id", VNum 10%float); ("title", VStr "On maps");
           ("author", VObj [("id", VNum 3%float); ("firstName", VStr "Sam")])])
    []
  = Value (findOne User [("id", VNum 3%float)])
  /\ resolve_model "author" "user" d
       (VObj [("id", VNum 10%float); ("title", VStr "On maps");
              ("author", VNum 3%float)])
       []
     = Value (findOne User [("id", VNum 10%float)])
  /\ resolve_model "author" "user" d
       (VObj [("id", VNum 3%float); ("title", VStr "On maps")])
       []
     = Throw (TypeError "Cannot read property 'id' of undefined").
Proof. repeat split; reflexivity. Qed.

(** An object whose property could be read has every property readable. *)
Lemma get_defined (object : JsVal) (k k' : string) (v : JsVal) :
  get object k = Value v -> exists v', get object k' = Value v'.
Proof. destruct object; cbn; intros H; try discriminate; eauto. Qed.

(** The identifier that lines 100-110 settle on. *)
Lemma resolve_model_chain
      (d : Defaults) (key model : string) (referenced : Collection)
      (object value inner own : JsVal) (criteria : Obj JsVal) :
  collections_get (collections d) model = Some referenced ->
  get object key = Value value ->
  get value (collection_primaryKey referenced) = Value inner ->
  get object (collection_primaryKey referenced) = Value own ->
  resolve_model key model d object criteria
  = modelQueries_resolve d (toLowerCase model) object
      (obj_set criteria (collection_primaryKey referenced)
               (if truthy inner then inner
                else if truthy own then own else value)).
Proof.
  intros Hc Hv Hi Ho. unfold resolve_model.
  rewrite Hv. cbn [bind]. rewrite Hc. rewrite Hi. cbn [bind].
  destruct (truthy inner); cbn [negb bind]; [reflexivity|].
  rewrite Ho. cbn [bind].
  destruct (truthy own); reflexivity.
Qed.

(** C3 (amended): the resolver of a belongsTo attribute tries the field
    value's property named by the referenced collection's primary key,
    then the parent's own attribute of that name, then the field value
    itself, taking the first that is truthy; it sets that identifier in
    the criteria under the primary-key name and delegates to the
    referenced collection's singular query field.  Hence a nested record,
    a flat identifier and a bare identifier resolve to the same query
    provided each is the first truthy candidate of its parent: the field
    value must be there in all three shapes, and in the bare shape the
    parent must have no truthy attribute of the primary key's name. *)
Theorem resolve_model_three_shapes
        (d : Defaults) (key model : string) (referenced : Collection)
        (field : QueryField) (criteria : Obj JsVal) (identifier : JsVal)
        (nested flat bare : JsVal)
        (Hcollection : collections_get (collections d) model = Some referenced)
        (Hfield : obj_get (modelQueries d) (toLowerCase model) = Some field)
        (Hresolve : forall object criteria,
                      resolve field object criteria = findOne referenced criteria)
        (Htruthy : truthy identifier = true)
        (Hnested : exists value,
                     get nested key = Value value
                     /\ get value (collection_primaryKey referenced)
                        = Value identifier)
        (Hflat : exists value inner,
                   get flat key = Value value
                   /\ get value (collection_primaryKey referenced) = Value inner
                   /\ truthy inner = false
                   /\ get flat (collection_primaryKey referenced)
                      = Value identifier)
        (Hbare : exists inner own,
                   get bare key = Value identifier
                   /\ get identifier (collection_primaryKey referenced)
                      = Value inner
                   /\ truthy inner = false
                   /\ get bare (collection_primaryKey referenced) = Value own
                   /\ truthy own = false) :
  let query :=
    Value (findOne referenced
                   (obj_set criteria (collection_primaryKey referenced)
                            identifier)) in
  resolve_model key model d nested criteria = query
  /\ resolve_model key model d flat criteria = query
  /\ resolve_model key model d bare criteria = query.
Proof.
  intros query. subst query.
  destruct Hnested as (v1 & Hv1 & Hi1).
  destruct (get_defined nested key (collection_primaryKey referenced) v1 Hv1)
    as [o1 Ho1].
  destruct Hflat as (v2 & i2 & Hv2 & Hi2 & Hf2 & Ho2).
  destruct Hbare as (i3 & o3 & Hv3 & Hi3 & Hf3 & Ho3 & Hg3).
  refine (conj _ (conj _ _)).
  - rewrite (resolve_model_chain d key model referenced nested v1 identifier o1)
      by assumption.
    rewrite Htruthy. unfold modelQueries_resolve. now rewrite Hfield, Hresolve.
  - rewrite (resolve_model_chain d key model referenced flat v2 i2 identifier)
      by assumption.
    rewrite Hf2, Htruthy. unfold modelQueries_resolve.
    now rewrite Hfield, Hresolve.
  - rewrite (resolve_model_chain d key model referenced bare identifier i3 o3)
      by assumption.
    rewrite Hf3, Hg3. unfold modelQueries_resolve.
    now rewrite Hfield, Hresolve.
Qed.

Lemma resolve_model_three_shapes_witness :
  let d := defaults (after (config_of blog) initial_world) in
  let query := Value (findOne User [("id", VNum 3%float)]) in
  resolve_model "author" "user" d
    (VObj [("id", VNum 10%float);
           ("author", VObj [("id", VNum 3%float); ("firstName", VStr "Sam")])])
    [] = query
  /\ resolve_model "author" "user" d
       (VObj [("id", VNum 3%float); ("author", VStr "Sam")]) [] = query
  /\ resolve_model "author" "user" d
       (VObj [("title", VStr "On maps"); ("author", VNum 3%float)]) [] = query.
Proof.
  exact (resolve_model_three_shapes
           (defaults (after (config_of blog) initial_world))
           "author" "user" User
           (singular_field false
              (types (defaults (after (config_of blog) initial_world))) User)
           [] (VNum 3%float)
           (VObj [("id", VNum 10%float);
                  ("author", VObj [("id", VNum 3%float); ("firstName", VStr "Sam")])])
           (VObj [("id", VNum 3%float); ("author", VStr "Sam")])
           (VObj [("title", VStr "On maps"); ("author", VNum 3%float)])
           eq_refl eq_refl (fun _ _ => eq_refl) eq_refl
           (ex_intro _ (VObj [("id", VNum 3%float); ("firstName", VStr "Sam")])
              (conj eq_refl eq_refl))
           (ex_intro _ (VStr "Sam")
              (ex_intro _ VUndefined
                 (conj eq_refl (conj eq_refl (conj eq_refl eq_refl)))))
           (ex_intro _ VUndefined
              (ex_intro _ VUndefined
                 (conj eq_refl
                    (conj eq_refl (conj eq_refl (conj eq_refl eq_refl))))))).
Defined.

Section ObjectLookups.
Context {A V : Type} (g : string * A -> Outcome V).

Let step (o : Obj V) (entry : string * A) : Outcome (Obj V) :=
  v <- g entry ;; Value (obj_set o (fst entry) v).

(** Entries under other names leave a property alone. *)
Lemma reduceM_set_untouched (entries : list (string * A)) (k : string) :
  ~ In k (keys entries) ->
  forall acc res,
    reduceM step entries acc = Value res -> obj_get res k = obj_get acc k.
Proof.
  induction entries as [|[k0 a0] entries IH]; cbn; intros Hk acc res H.
  - now injection H as <-.
  - unfold step at 1 in H. destruct (g (k0, a0)) as [v|e]; [|discriminate].
    cbn in H. rewrite (IH ltac:(tauto) _ _ H).
    apply obj_get_set_other. tauto.
Qed.

(** The property of a completed loop under an entry's name is what the
    loop body made of that entry. *)
Lemma reduceM_set_lookup (entries : list (string * A)) (k : string) (a : A) :
  NoDup (keys entries) ->
  In (k, a) entries ->
  k <> "__proto__" ->
  forall acc res,
    reduceM step entries acc = Value res ->
    exists v, g (k, a) = Value v /\ obj_get res k = Some v.
Proof.
  induction entries as [|[k0 a0] entries IH]; cbn; intros Hnd Hin Hp acc res H.
  - destruct Hin.
  - inversion Hnd as [|? ? Hk0 Hnd']; subst.
    unfold step at 1 in H. destruct (g (k0, a0)) as [v|e] eqn:Eg; [|discriminate].
    cbn in H. destruct Hin as [[= -> ->]|Hin].
    + exists v. split; [assumption|].
      rewrite (reduceM_set_untouched entries k Hk0 _ _ H).
      now apply obj_get_set_same.
    + now apply (IH Hnd' Hin Hp _ _ H).
Qed.

End ObjectLookups.

(** C4, as stated, fails when the foreign key's name has a capital: the
    comments of author [5] are looked up by [authorid], an attribute that
    comments do not have, so none is found. *)
Lemma via_is_lowercased_in_the_filter :
  let d := defaults (after (config_of forum) initial_world) in
  let query :=
    resolve_collection Author (hasMany "comment" "authorId") d
                       (VObj [("id", VNum 5%float)]) [] in
  query = Value (find Comment [("where", VObj [("authorid", VNum 5%float)])])
  /\ fmap (run comments) query = Value []
  /\ filter (matches [("authorId", VNum 5%float)]) comments
     = [VObj [("id", VNum 1%float); ("text", VStr "first");
              ("authorId", VNum 5%float)]].
Proof. repeat split; reflexivity. Qed.

(** C4 (amended): the output field of a hasMany attribute is a list of
    the referenced collection's output type, and its resolver delegates
    to that collection's plural query field the criteria, extended under
    the lower-cased [via] name with the parent's primary-key value and
    wrapped in a [where] object.  With no criteria supplied the store is
    thus asked for exactly the records whose attribute of the lower-cased
    name equals the parent's primary-key value: the records whose [via]
    attribute equals it when [via] is written in lower case. *)
Theorem resolve_collection_filters_by_lowercase_via
        (d : Defaults) (owner referenced : Collection)
        (key name f : string) (rules : Rules) (field : QueryField)
        (parent parentKey : JsVal) (criteria : Obj JsVal)
        (Hattribute : In (key, rules) (_attributes owner))
        (Hnames : NoDup (keys (_attributes owner)))
        (Hkey : key <> "__proto__")
        (Hmodel : model rules = None)
        (Hcollection : collection rules = Some name)
        (Hvia : via rules = Some f)
        (Htype : obj_get (types d) (capitalize name)
                 = Some (output_type_of referenced))
        (Hfield : obj_get (modelQueries d) (toLowerCase name ++ "s")
                  = Some field)
        (Hresolve : forall object criteria,
                      resolve field object criteria = find referenced criteria)
        (Hparent : get parent (collection_primaryKey owner) = Value parentKey) :
  (forall fields,
      type_fields owner d = Value fields ->
      obj_get fields key
      = Some {| field_type := GraphQLList (output_type_of referenced);
                field_resolve := Some (resolve_collection owner rules) |})
  /\ resolve_collection owner rules d parent criteria
     = Value (find referenced
                   [("where", VObj (obj_set criteria (toLowerCase f) parentKey))])
  /\ (forall table,
        toLowerCase f <> "__proto__" ->
        fmap (run table) (resolve_collection owner rules d parent [])
        = Value (filter (matches [(toLowerCase f, parentKey)]) table))
  /\ (forall table,
        toLowerCase f = f ->
        f <> "__proto__" ->
        fmap (run table) (resolve_collection owner rules d parent [])
        = Value (filter (fun record =>
                           match get record f with
                           | Value x => strict_eqb x parentKey
                           | Throw _ => false
                           end) table)).
Proof.
  assert (Hrun : forall c,
             resolve_collection owner rules d parent c
             = Value (find referenced
                        [("where", VObj (obj_set c (toLowerCase f) parentKey))])).
  { intros c. unfold resolve_collection. rewrite Hvia, Hparent. cbn [bind].
    rewrite Hcollection. unfold modelQueries_resolve.
    now rewrite Hfield, Hresolve. }
  assert (Hfilter : forall table,
             toLowerCase f <> "__proto__" ->
             fmap (run table) (resolve_collection owner rules d parent [])
             = Value (filter (matches [(toLowerCase f, parentKey)]) table)).
  { intros table Hp. rewrite Hrun. cbn [fmap bind run].
    unfold run_find, unwrap_where. cbn [obj_get String.eqb Ascii.eqb Bool.eqb].
    now rewrite obj_set_plain by assumption. }
  refine (conj _ (conj (Hrun criteria) (conj Hfilter _))).
  - intros fields Hfields. rewrite type_fields_by_field_of in Hfields.
    destruct (reduceM_set_lookup (field_of owner d) _ key rules
                Hnames Hattribute Hkey _ _ Hfields) as (v & Hv & Hget).
    rewrite Hget. f_equal.
    unfold field_of in Hv. cbn [fst snd] in Hv.
    rewrite Hmodel, Hcollection in Hv.
    unfold list_of_registered, types_get in Hv. rewrite Htype in Hv.
    destruct (String.eqb (capitalize name) "__proto__");
      cbn [bind new_GraphQLList output_type_of] in Hv;
      now injection Hv as <-.
  - intros table Hlower Hp. rewrite Hfilter by congruence.
    rewrite Hlower. f_equal. apply filter_ext. intros record.
    unfold matches. cbn [forallb fst snd]. now rewrite andb_true_r.
Qed.

Lemma resolve_collection_filters_by_lowercase_via_witness :
  let d := defaults (after (config_of blog) initial_world) in
  fmap (run articles)
       (resolve_collection User (hasMany "article" "author") d
                           (VObj [("id", VNum 3%float)]) [])
  = Value [VObj [("id", VNum 10%float); ("title", VStr "On maps");
                 ("author", VNum 3%float)];
           VObj [("id", VNum 12%float); ("title", VStr "On stars");
                 ("author", VNum 3%float)]].
Proof.
  exact (proj1 (proj2 (proj2
    (resolve_collection_filters_by_lowercase_via
       (defaults (after (config_of blog) initial_world))
       User Article "articles" "article" "author"
       (hasMany "article" "author")
       (plural_field false
          (types (defaults (after (config_of blog) initial_world))) Article)
       (VObj [("id", VNum 3%float)]) (VNum 3%float) []
       ltac:(cbn; tauto)
       ltac:(repeat constructor; cbn; intuition discriminate)
       ltac:(discriminate)
       eq_refl eq_refl eq_refl eq_refl eq_refl
       (fun _ _ => eq_refl) eq_refl))) articles ltac:(discriminate)).
Defined.

(* ================================================================= *)
(** * Further properties of the code *)

(** ** Objects: lookups through the other operations *)

Lemma obj_get_app {V} (o o' : Obj V) (k : string) :
  obj_get (o ++ o') k
  = match obj_get o k with Some v => Some v | None => obj_get o' k end.
Proof.
  induction o as [|[k0 v0] o IH]; cbn; [reflexivity|].
  destruct (String.eqb k0 k); [reflexivity | exact IH].
Qed.

Lemma obj_get_filter {V} (p : string * V -> bool) (o : Obj V) (k : string) :
  NoDup (keys o) ->
  obj_get (filter p o) k
  = match obj_get o k with
    | Some v => if p (k, v) then Some v else None
    | None => None
    end.
Proof.
  induction o as [|[k0 v0] o IH]; cbn; intros Hnd; [reflexivity|].
  inversion Hnd as [|? ? Hk Hnd']; subst.
  destruct (String.eqb_spec k0 k) as [->|Hne].
  - destruct (p (k, v0)); cbn.
    + now rewrite String.eqb_refl.
    + rewrite IH by assumption.
      assert (E : obj_get o k = None) by now apply obj_get_None_iff.
      now rewrite E.
  - destruct (p (k0, v0)); cbn; [|now apply IH].
    destruct (String.eqb_spec k0 k); [contradiction | now apply IH].
Qed.

Lemma obj_get_delete {V} (o : Obj V) (k k' : string) :
  NoDup (keys o) ->
  obj_get (LibAdapter.obj_delete o k) k'
  = if String.eqb k k' then None else obj_get o k'.
Proof.
  intros Hnd. unfold LibAdapter.obj_delete. rewrite obj_get_filter by assumption.
  cbn [fst]. rewrite String.eqb_sym.
  destruct (String.eqb_spec k k') as [->|Hne]; cbn.
  - now destruct (obj_get o k').
  - now destruct (obj_get o k').
Qed.

Lemma NoDup_keys_delete {V} (o : Obj V) (k : string) :
  NoDup (keys o) -> NoDup (keys (LibAdapter.obj_delete o k)).
Proof. apply NoDup_keys_filter. Qed.

Lemma obj_get_map_values {V W} (h : string -> V -> W) (o : Obj V) (k : string) :
  obj_get (map (fun kv => (fst kv, h (fst kv) (snd kv))) o) k
  = option_map (h k) (obj_get o k).
Proof.
  induction o as [|[k0 v0] o IH]; cbn; [reflexivity|].
  destruct (String.eqb_spec k0 k) as [->|Hne]; [reflexivity | exact IH].
Qed.

Lemma keys_map_values {V W} (h : string -> V -> W) (o : Obj V) :
  keys (map (fun kv => (fst kv, h (fst kv) (snd kv))) o) = keys o.
Proof. unfold keys. rewrite map_map. reflexivity. Qed.

(* ================================================================= *)
(** ** The older adapter: filters sent to the store *)

Section DateFilters.
Import LibAdapter LibExpected.

Lemma obj_get_received (criteria : Obj JsVal) (k : string) :
  obj_get (received criteria) k = option_map Criterion (obj_get criteria k).
Proof.
  unfold received.
  exact (obj_get_map_values (fun _ v => Criterion v) criteria k).
Qed.

Lemma keys_received (criteria : Obj JsVal) : keys (received criteria) = keys criteria.
Proof. unfold received. exact (keys_map_values (fun _ v => Criterion v) criteria). Qed.

Lemma move_bound_lookup (bound k0 : string) (filters : Obj FilterValue)
      (bounds : Obj Date) (k : string) :
  NoDup (keys filters) ->
  obj_get filters "createdAt" = Some (Range bounds) ->
  k0 <> "createdAt" ->
  obj_get (move_bound bound k0 filters) k
  = if String.eqb k0 k then None
    else if String.eqb "createdAt" k
         then Some (Range (obj_set bounds bound (newDate (criterion_at filters k0))))
         else obj_get filters k.
Proof.
  intros Hnd Hc Hne. unfold move_bound. rewrite Hc.
  rewrite obj_get_delete by now apply NoDup_keys_set.
  destruct (String.eqb k0 k); [reflexivity|].
  destruct (String.eqb_spec "createdAt" k) as [<-|Hk].
  - now apply obj_get_set_same.
  - now apply obj_get_set_other.
Qed.

Lemma move_bound_NoDup (bound k0 : string) (filters : Obj FilterValue) :
  NoDup (keys filters) -> NoDup (keys (move_bound bound k0 filters)).
Proof.
  intros H. unfold move_bound. now apply NoDup_keys_delete, NoDup_keys_set.
Qed.

Lemma handleDateFilter_NoDup (filters : Obj FilterValue) :
  NoDup (keys filters) -> NoDup (keys (handleDateFilter filters)).
Proof.
  intros H. unfold handleDateFilter. cbv zeta.
  repeat match goal with |- context [if ?b then _ else _] => destruct b end;
    repeat apply move_bound_NoDup; now apply NoDup_keys_set.
Qed.

Lemma date_step_lookup (bound k0 : string) (filters : Obj FilterValue)
      (bounds : Obj Date) (k : string) :
  NoDup (keys filters) ->
  obj_get filters "createdAt" = Some (Range bounds) ->
  k0 <> "createdAt" ->
  obj_get (if negb (isEmpty_at filters k0)
           then move_bound bound k0 filters else filters) k
  = if negb (isEmpty_at filters k0)
    then if String.eqb k0 k then None
         else if String.eqb "createdAt" k
              then Some (Range (obj_set bounds bound
                                        (newDate (criterion_at filters k0))))
              else obj_get filters k
    else obj_get filters k.
Proof.
  intros Hnd Hc Hne. destruct (negb (isEmpty_at filters k0)); [|reflexivity].
  now apply move_bound_lookup.
Qed.

(** Every comparison of [k] with a name it differs from fails. *)
Ltac eqb_differs :=
  repeat match goal with
         | |- context [String.eqb ?a ?b] =>
             rewrite (proj2 (String.eqb_neq a b)) by congruence
         end.

(** What [handleDateFilter] leaves under each name. *)
Lemma handleDateFilter_lookup (criteria : Obj JsVal) (k : string) :
  NoDup (keys criteria) ->
  obj_get (handleDateFilter (received criteria)) k
  = if String.eqb k "createdAt" then Some (Range (date_bounds criteria))
    else match obj_get criteria k with
         | None => None
         | Some v =>
             if (String.eqb k "start" || String.eqb k "end") && negb (isEmpty v)
             then None else Some (Criterion v)
         end.
Proof.
  intros Hnd. unfold handleDateFilter. cbv zeta.
  set (f1 := obj_set (received criteria) "createdAt" (Range [])).
  assert (Hnd1 : NoDup (keys f1))
    by (apply NoDup_keys_set; now rewrite keys_received).
  assert (Hc1 : obj_get f1 "createdAt" = Some (Range []))
    by (apply obj_get_set_same; discriminate).
  assert (H1 : forall k', k' <> "createdAt" ->
                          obj_get f1 k' = option_map Criterion (obj_get criteria k')).
  { intros k' Hk'. unfold f1. rewrite obj_get_set_other by congruence.
    apply obj_get_received. }
  set (start := match obj_get criteria "start" with
                | Some v => v | None => VUndefined end).
  set (end_ := match obj_get criteria "end" with
               | Some v => v | None => VUndefined end).
  assert (Es : isEmpty_at f1 "start" = isEmpty start).
  { unfold isEmpty_at, start. rewrite H1 by discriminate.
    now destruct (obj_get criteria "start"). }
  assert (Cs : criterion_at f1 "start" = start).
  { unfold criterion_at, start. rewrite H1 by discriminate.
    now destruct (obj_get criteria "start"). }
  set (f2 := if negb (isEmpty_at f1 "start")
             then move_bound ">" "start" f1 else f1).
  assert (L2 : forall k',
             obj_get f2 k'
             = if negb (isEmpty start)
               then if String.eqb "start" k' then None
                    else if String.eqb "createdAt" k'
                         then Some (Range [(">", newDate start)])
                         else obj_get f1 k'
               else obj_get f1 k').
  { intros k'. unfold f2.
    rewrite (date_step_lookup ">" "start" f1 [] k' Hnd1 Hc1) by discriminate.
    now rewrite Es, Cs. }
  assert (Hnd2 : NoDup (keys f2))
    by (unfold f2; destruct (negb _); [now apply move_bound_NoDup | assumption]).
  assert (Hc2 : obj_get f2 "createdAt"
                = Some (Range (if negb (isEmpty start)
                               then [(">", newDate start)] else []))).
  { rewrite L2. destruct (negb (isEmpty start)); [reflexivity | exact Hc1]. }
  assert (H2e : obj_get f2 "end" = option_map Criterion (obj_get criteria "end")).
  { rewrite L2. destruct (negb (isEmpty start)); cbn; now apply H1. }
  assert (Ee : isEmpty_at f2 "end" = isEmpty end_).
  { unfold isEmpty_at, end_. rewrite H2e. now destruct (obj_get criteria "end"). }
  assert (Ce : criterion_at f2 "end" = end_).
  { unfold criterion_at, end_. rewrite H2e. now destruct (obj_get criteria "end"). }
  rewrite (date_step_lookup "<" "end" f2 _ k Hnd2 Hc2) by discriminate.
  rewrite Ee, Ce, L2. unfold date_bounds. cbv zeta. fold start end_.
  destruct (String.eqb_spec k "createdAt") as [E|N].
  { subst k. cbn [String.eqb Ascii.eqb Bool.eqb].
    rewrite Hc1.
    destruct (negb (isEmpty start)); destruct (negb (isEmpty end_)); reflexivity. }
  destruct (String.eqb_spec k "start") as [E|Ns].
  { subst k. cbn [String.eqb Ascii.eqb Bool.eqb orb andb].
    rewrite H1 by discriminate. subst start end_.
    destruct (obj_get criteria "start") as [vs|];
      destruct (obj_get criteria "end") as [ve|]; cbn [option_map];
      repeat match goal with |- context [isEmpty ?v] =>
        destruct (isEmpty v) end; reflexivity. }
  destruct (String.eqb_spec k "end") as [E|Ne].
  { subst k. cbn [String.eqb Ascii.eqb Bool.eqb orb andb].
    rewrite H1 by discriminate. subst start end_.
    destruct (obj_get criteria "start") as [vs|];
      destruct (obj_get criteria "end") as [ve|]; cbn [option_map];
      repeat match goal with |- context [isEmpty ?v] =>
        destruct (isEmpty v) end; reflexivity. }
  cbn [orb andb]. eqb_differs. rewrite H1 by assumption.
  destruct (obj_get criteria k); cbn [option_map];
    destruct (negb (isEmpty start)); destruct (negb (isEmpty end_)); reflexivity.
Qed.


Lemma filters_of_NoDup (criteria : Obj JsVal) :
  NoDup (keys criteria) -> NoDup (keys (filters_of criteria)).
Proof.
  intros H. unfold filters_of, omit. apply NoDup_keys_filter.
  apply handleDateFilter_NoDup. now rewrite keys_received.
Qed.

(** What reaches the store under each name. *)
Lemma filters_of_lookup (criteria : Obj JsVal) (k : string) :
  NoDup (keys criteria) ->
  obj_get (filters_of criteria) k
  = if String.eqb k "createdAt"
    then match date_bounds criteria with
         | [] => None
         | bounds => Some (Range bounds)
         end
    else match obj_get criteria k with
         | Some v => if forwarded k v then Some (Criterion v) else None
         | None => None
         end.
Proof.
  intros Hnd. unfold filters_of, omit.
  rewrite obj_get_filter
    by (apply handleDateFilter_NoDup; now rewrite keys_received).
  rewrite handleDateFilter_lookup by assumption. unfold forwarded.
  destruct (String.eqb k "createdAt"); cbn [negb andb snd].
  - now destruct (date_bounds criteria).
  - destruct (obj_get criteria k) as [v|]; [|reflexivity].
    destruct ((String.eqb k "start" || String.eqb k "end") && negb (isEmpty v));
      cbn [negb andb snd]; [reflexivity|].
    now destruct (omitted (Criterion v)).
Qed.

(** X1: the date arguments of the older adapter.  Non-empty [start] and
    [end] criteria never reach the store as such: they become the bounds
    ['>'] and ['<'] of a [createdAt] filter, built by [new Date]; with
    only one of them the filter has that bound alone; and without a date
    argument no [createdAt] filter is sent, whatever [createdAt] the
    criteria had. *)
Theorem date_arguments_become_createdAt
        (criteria : Obj JsVal) (Hkeys : NoDup (keys criteria)) :
  let at_ k := match obj_get criteria k with
               | Some v => v | None => VUndefined end in
  let given k := negb (isEmpty (at_ k)) in
  obj_get (filters_of criteria) "createdAt"
  = (if given "start"
     then if given "end"
          then Some (Range [(">", newDate (at_ "start"));
                            ("<", newDate (at_ "end"))])
          else Some (Range [(">", newDate (at_ "start"))])
     else if given "end"
          then Some (Range [("<", newDate (at_ "end"))])
          else None)
  /\ (given "start" = true -> obj_get (filters_of criteria) "start" = None)
  /\ (given "end" = true -> obj_get (filters_of criteria) "end" = None)
  /\ (forall s, at_ "start" = VStr s -> given "start" = negb (String.eqb s ""))
  /\ (forall s, at_ "end" = VStr s -> given "end" = negb (String.eqb s "")).
Proof.
  intros at_ given.
  refine (conj _ (conj _ (conj _ (conj _ _)))).
  - rewrite filters_of_lookup by assumption. cbn [String.eqb Ascii.eqb Bool.eqb].
    unfold date_bounds. cbv zeta. fold (at_ "start") (at_ "end").
    fold (given "start") (given "end").
    destruct (given "start"); destruct (given "end"); reflexivity.
  - intros H. rewrite filters_of_lookup by assumption.
    cbn [String.eqb Ascii.eqb Bool.eqb]. unfold given, at_ in H.
    destruct (obj_get criteria "start") as [v|]; [|reflexivity].
    unfold forwarded. cbn [String.eqb Ascii.eqb Bool.eqb negb andb orb].
    now rewrite H.
  - intros H. rewrite filters_of_lookup by assumption.
    cbn [String.eqb Ascii.eqb Bool.eqb]. unfold given, at_ in H.
    destruct (obj_get criteria "end") as [v|]; [|reflexivity].
    unfold forwarded. cbn [String.eqb Ascii.eqb Bool.eqb negb andb orb].
    now rewrite H.
  - intros s0 H. unfold given. now rewrite H.
  - intros s0 H. unfold given. now rewrite H.
Qed.

Lemma date_arguments_become_createdAt_witness :
  filters_of [("limit", VNum 10%float); ("start", VStr "2016-01-01");
              ("end", VStr "2016-02-01")]
  = [("limit", Criterion (VNum 10%float));
     ("createdAt", Range [(">", newDate (VStr "2016-01-01"));
                          ("<", newDate (VStr "2016-02-01"))])]
  /\ obj_get (filters_of [("limit", VNum 10%float); ("start", VStr "2016-01-01");
                          ("end", VStr "2016-02-01")]) "createdAt"
     = Some (Range [(">", newDate (VStr "2016-01-01"));
                    ("<", newDate (VStr "2016-02-01"))]).
Proof.
  split; [reflexivity|].
  exact (proj1 (date_arguments_become_createdAt
                  [("limit", VNum 10%float); ("start", VStr "2016-01-01");
                   ("end", VStr "2016-02-01")]
                  ltac:(repeat constructor; cbn; intuition discriminate))).
Defined.

(** X2: the pruning of the criteria in the older adapter.  A criterion
    other than [createdAt], [start] and [end] reaches the store, with
    its value unchanged, exactly when its value is [undefined], a number,
    or a string, array or object that is not empty; a [null] and a
    boolean are always dropped, a number (so [limit] and [skip]) never. *)
Theorem criteria_pruned_by_emptiness
        (criteria : Obj JsVal) (k : string) (v : JsVal)
        (Hkeys : NoDup (keys criteria))
        (Hk : ~ In k ["createdAt"; "start"; "end"])
        (Hv : obj_get criteria k = Some v) :
  obj_get (filters_of criteria) k
  = (if match v with
        | VUndefined | VNum _ => true
        | VNull | VBool _ => false
        | VStr s => negb (String.eqb s "")
        | VArr items => negb (Nat.eqb (List.length items) 0)
        | VObj props => negb (Nat.eqb (List.length props) 0)
        end
     then Some (Criterion v) else None).
Proof.
  rewrite filters_of_lookup by assumption. rewrite Hv.
  unfold forwarded.
  assert (k <> "createdAt" /\ k <> "start" /\ k <> "end") as (H1 & H2 & H3)
    by (cbn in Hk; intuition congruence).
  eqb_differs. cbn [orb andb negb].
  destruct v as [| |b|x|s0|[|i items]|[|p props]]; reflexivity.
Qed.

Lemma criteria_pruned_by_emptiness_witness :
  obj_get (filters_of [("published", VBool true); ("skip", VNum 0%float)])
          "published" = None
  /\ obj_get (filters_of [("published", VBool true); ("skip", VNum 0%float)])
             "skip" = Some (Criterion (VNum 0%float)).
Proof.
  split.
  - exact (criteria_pruned_by_emptiness
             [("published", VBool true); ("skip", VNum 0%float)]
             "published" (VBool true)
             ltac:(repeat constructor; cbn; intuition discriminate)
             ltac:(cbn; intuition discriminate) eq_refl).
  - reflexivity.
Defined.

(** X3: the filters of [getLatest...] and [getFirst...].  Whatever the
    caller passes, the store is asked with the fixed [sort], with
    [limit] set to what is left of [count] after pruning (the number the
    caller gave), and without [count]; every other name is as in the
    pruned filters. *)
Theorem ordered_filters_force_sort_and_limit
        (order : string) (criteria : Obj JsVal)
        (Hkeys : NoDup (keys criteria)) :
  obj_get (ordered_filters order criteria) "sort" = Some (Criterion (VStr order))
  /\ obj_get (ordered_filters order criteria) "limit"
     = Some (match obj_get criteria "count" with
             | Some (VNum n) => Criterion (VNum n)
             | Some VUndefined => Criterion VUndefined
             | Some (VStr s) =>
                 if String.eqb s "" then Criterion VUndefined else Criterion (VStr s)
             | Some (VArr (i :: items)) => Criterion (VArr (i :: items))
             | Some (VObj (p :: props)) => Criterion (VObj (p :: props))
             | _ => Criterion VUndefined
             end)
  /\ obj_get (ordered_filters order criteria) "count" = None
  /\ (forall k, ~ In k ["sort"; "limit"; "count"] ->
                obj_get (ordered_filters order criteria) k
                = obj_get (filters_of criteria) k).
Proof.
  pose proof (filters_of_NoDup criteria Hkeys) as Hnd.
  unfold ordered_filters. cbv zeta.
  set (f := filters_of criteria) in *.
  assert (Hnd1 : NoDup (keys (obj_set f "sort" (Criterion (VStr order)))))
    by now apply NoDup_keys_set.
  assert (Hcount : obj_get (obj_set f "sort" (Criterion (VStr order))) "count"
                   = obj_get f "count")
    by (apply obj_get_set_other; discriminate).
  rewrite Hcount.
  refine (conj _ (conj _ (conj _ _))).
  - rewrite obj_get_delete by now apply NoDup_keys_set.
    cbn [String.eqb Ascii.eqb Bool.eqb].
    rewrite obj_get_set_other by discriminate.
    apply obj_get_set_same. discriminate.
  - rewrite obj_get_delete by now apply NoDup_keys_set.
    cbn [String.eqb Ascii.eqb Bool.eqb].
    rewrite obj_get_set_same by discriminate. f_equal.
    subst f. rewrite filters_of_lookup by assumption.
    cbn [String.eqb Ascii.eqb Bool.eqb].
    destruct (obj_get criteria "count") as [v|]; [|reflexivity].
    unfold forwarded. cbn [String.eqb Ascii.eqb Bool.eqb negb andb orb].
    destruct v as [| |b|x|s0|[|i items]|[|p props]]; cbn; try reflexivity.
    now destruct (String.eqb s0 "").
  - rewrite obj_get_delete by now apply NoDup_keys_set.
    now rewrite String.eqb_refl.
  - intros k Hk.
    assert (k <> "sort" /\ k <> "limit" /\ k <> "count") as (H1 & H2 & H3)
      by (cbn in Hk; intuition congruence).
    rewrite obj_get_delete by now apply NoDup_keys_set.
    eqb_differs. rewrite !obj_get_set_other by congruence. reflexivity.
Qed.

Lemma ordered_filters_force_sort_and_limit_witness :
  ordered_filters "createdAt DESC"
    [("count", VNum 5%float); ("sort", VStr "title ASC")]
  = [("sort", Criterion (VStr "createdAt DESC"));
     ("limit", Criterion (VNum 5%float))]
  /\ obj_get (ordered_filters "createdAt DESC"
                [("count", VNum 5%float); ("sort", VStr "title ASC")]) "sort"
     = Some (Criterion (VStr "createdAt DESC")).
Proof.
  split; [reflexivity|].
  exact (proj1 (ordered_filters_force_sort_and_limit
                  "createdAt DESC"
                  [("count", VNum 5%float); ("sort", VStr "title ASC")]
                  ltac:(repeat constructor; cbn; intuition discriminate))).
Defined.

End DateFilters.

(* ================================================================= *)
(** ** The older adapter: the query fields of a collection *)

Section LibFields.

Import LibAdapter LibExpected.

Lemma lower_of_upper_ascii (c : ascii) : lower_ascii (upper_ascii c) = lower_ascii c.
Proof. destruct c as [[] [] [] [] [] [] [] []]; reflexivity. Qed.

Lemma toLowerCase_lib_capitalize (s : string) :
  toLowerCase (capitalize s) = toLowerCase s.
Proof. destruct s; cbn; [reflexivity | now rewrite lower_of_upper_ascii]. Qed.

Lemma length_toLowerCase (s : string) :
  String.length (toLowerCase s) = String.length s.
Proof. induction s; cbn; congruence. Qed.

Lemma length_lib_capitalize (s : string) :
  String.length (capitalize s) = String.length s.
Proof. now destruct s. Qed.

Lemma length_append (a b : string) :
  String.length (a ++ b) = (String.length a + String.length b)%nat.
Proof. induction a; cbn; congruence. Qed.

Lemma singular_name_length (c : Collection) :
  String.length (singular_name c) = String.length (identity c).
Proof.
  unfold singular_name. now rewrite length_toLowerCase, length_lib_capitalize.
Qed.

Lemma plural_name_length (c : Collection) :
  String.length (plural_name c) = (String.length (identity c) + 1)%nat.
Proof.
  unfold plural_name.
  now rewrite length_append, length_toLowerCase, length_lib_capitalize.
Qed.

Lemma latest_name_length (c : Collection) :
  String.length (latest_name c) = (String.length (identity c) + 10)%nat.
Proof.
  unfold latest_name.
  rewrite !length_append, length_lib_capitalize. cbn. lia.
Qed.

Lemma first_name_length (c : Collection) :
  String.length (first_name c) = (String.length (identity c) + 9)%nat.
Proof.
  unfold first_name.
  rewrite !length_append, length_lib_capitalize. cbn. lia.
Qed.

Lemma count_name_length (c : Collection) :
  String.length (count_name c) = (String.length (identity c) + 6)%nat.
Proof.
  unfold count_name.
  rewrite !length_append, length_lib_capitalize. cbn. lia.
Qed.

Ltac by_length :=
  let E := fresh "E" in
  intros E; apply (f_equal String.length) in E;
  rewrite ?singular_name_length, ?plural_name_length, ?latest_name_length,
    ?first_name_length, ?count_name_length in E; lia.

Lemma names_of_NoDup (useful : bool) (c : Collection) :
  NoDup (names_of useful c).
Proof.
  assert (singular_name c <> plural_name c) by by_length.
  assert (singular_name c <> latest_name c) by by_length.
  assert (singular_name c <> first_name c) by by_length.
  assert (singular_name c <> count_name c) by by_length.
  assert (plural_name c <> latest_name c) by by_length.
  assert (plural_name c <> first_name c) by by_length.
  assert (plural_name c <> count_name c) by by_length.
  assert (latest_name c <> first_name c) by by_length.
  assert (latest_name c <> count_name c) by by_length.
  assert (first_name c <> count_name c) by by_length.
  unfold names_of. destruct useful; cbn [app];
    repeat constructor; cbn [In]; intuition congruence.
Qed.

Lemma lib_plural_name_not_proto (c : Collection) : plural_name c <> "__proto__".
Proof.
  unfold plural_name. generalize (toLowerCase (capitalize (identity c))).
  intros s E.
  do 9 (destruct s as [|? s]; [discriminate E|]; injection E as _ E).
  destruct s; discriminate E.
Qed.

Lemma latest_name_not_proto (c : Collection) : latest_name c <> "__proto__".
Proof. discriminate. Qed.

Lemma first_name_not_proto (c : Collection) : first_name c <> "__proto__".
Proof. discriminate. Qed.

Lemma count_name_not_proto (c : Collection) : count_name c <> "__proto__".
Proof. discriminate. Qed.

Lemma names_distinct (c : Collection) :
  singular_name c <> plural_name c
  /\ singular_name c <> latest_name c
  /\ singular_name c <> first_name c
  /\ singular_name c <> count_name c
  /\ plural_name c <> latest_name c
  /\ plural_name c <> first_name c
  /\ plural_name c <> count_name c
  /\ latest_name c <> first_name c
  /\ latest_name c <> count_name c
  /\ first_name c <> count_name c.
Proof. repeat split; by_length. Qed.

Lemma keys_fields_of (useful : bool) (ts : Obj OutputType) (c : Collection) :
  keys (fields_of useful ts c) = names_of useful c.
Proof. unfold fields_of, names_of. now destruct useful. Qed.

Lemma query_fields_of_explicit (useful : bool) (ts : Obj OutputType)
      (c : Collection) :
  buildable c ->
  LibAdapter.query_fields_of useful ts c = fields_of useful ts c.
Proof.
  intros Hb. unfold buildable in Hb.
  destruct (names_distinct c)
    as (H1 & H2 & H3 & H4 & H5 & H6 & H7 & H8 & H9 & H10).
  pose proof (lib_plural_name_not_proto c) as Hp.
  unfold LibAdapter.query_fields_of. cbv zeta.
  fold (singular_name c) (plural_name c) (latest_name c) (first_name c)
       (count_name c) (own_type ts c).
  rewrite (obj_set_plain _ (singular_name c)) by assumption.
  rewrite (obj_set_plain _ (plural_name c)) by assumption.
  assert (Hneq : forall a b : string, a <> b -> String.eqb a b = false)
    by (intros a b; apply String.eqb_neq).
  assert (Hneq' : forall a b : string, a <> b -> String.eqb b a = false)
    by (intros a b Hab; apply String.eqb_neq; congruence).
  pose proof (Hneq _ _ H1) as E1. pose proof (Hneq _ _ H2) as E2.
  pose proof (Hneq _ _ H3) as E3. pose proof (Hneq _ _ H4) as E4.
  pose proof (Hneq _ _ H5) as E5. pose proof (Hneq _ _ H6) as E6.
  pose proof (Hneq _ _ H7) as E7. pose proof (Hneq _ _ H8) as E8.
  pose proof (Hneq _ _ H9) as E9. pose proof (Hneq _ _ H10) as E10.
  pose proof (Hneq' _ _ H1) as F1. pose proof (Hneq' _ _ H2) as F2.
  pose proof (Hneq' _ _ H3) as F3. pose proof (Hneq' _ _ H4) as F4.
  destruct useful;
    repeat first
      [ progress cbn [obj_put map fst snd]
      | rewrite obj_set_plain
          by first [ apply latest_name_not_proto | apply first_name_not_proto
                   | apply count_name_not_proto ]
      | rewrite String.eqb_refl
      | rewrite E1 | rewrite E2 | rewrite E3 | rewrite E4 | rewrite E5
      | rewrite E6 | rewrite E7 | rewrite E8 | rewrite E9 | rewrite E10
      | rewrite F1 | rewrite F2 | rewrite F3 | rewrite F4 ];
    reflexivity.
Qed.

Lemma keys_date_args (o : Obj QueryField) (s : string) :
  keys (map (fun kv =>
               (fst kv,
                if String.eqb (fst kv) s then snd kv
                else with_date_args (snd kv))) o)
  = keys o.
Proof. unfold keys. rewrite map_map. reflexivity. Qed.

Lemma query_fields_of_NoDup (useful : bool) (ts : Obj OutputType)
      (c : Collection) :
  NoDup (keys (LibAdapter.query_fields_of useful ts c)).
Proof.
  unfold LibAdapter.query_fields_of. cbv zeta.
  rewrite keys_date_args.
  destruct useful; repeat apply NoDup_keys_set; constructor.
Qed.

Lemma query_fields_of_no_proto (useful : bool) (ts : Obj OutputType)
      (c : Collection) :
  ~ In "__proto__" (keys (LibAdapter.query_fields_of useful ts c)).
Proof.
  unfold LibAdapter.query_fields_of. cbv zeta.
  rewrite keys_date_args.
  destruct useful; repeat apply no_proto_set; intros [].
Qed.

End LibFields.

(* ================================================================= *)
(** ** The older adapter: a build *)

Section Registries.
Context {C V : Type} (f : C -> Obj V).
Hypothesis f_NoDup : forall c, NoDup (keys (f c)).
Hypothesis f_no_proto : forall c, ~ In "__proto__" (keys (f c)).

Let register (o : Obj V) (c : C) : Obj V := assign o (f c).

Lemma fold_assign_untouched (cs : list C) (k : string) :
  (forall c, In c cs -> ~ In k (keys (f c))) ->
  forall o, obj_get (fold_left register cs o) k = obj_get o k.
Proof.
  induction cs as [|c cs IH]; cbn [fold_left]; intros Hk o; [reflexivity|].
  rewrite IH by (intros c' Hc'; apply Hk; now right).
  unfold register. rewrite obj_get_assign by auto.
  now rewrite (proj2 (obj_get_None_iff (f c) k) (Hk c (or_introl eq_refl))).
Qed.

(** A name is registered as the last collection that has it says. *)
Lemma fold_assign_last (before after : list C) (c : C) (k : string) :
  In k (keys (f c)) ->
  (forall c', In c' after -> ~ In k (keys (f c'))) ->
  forall o,
    obj_get (fold_left register (before ++ c :: after) o) k = obj_get (f c) k.
Proof.
  intros Hin Hafter o. rewrite fold_left_app. cbn [fold_left].
  rewrite fold_assign_untouched by assumption.
  unfold register at 1. rewrite obj_get_assign by auto.
  destruct (obj_get (f c) k) eqn:E; [reflexivity|].
  now apply obj_get_None_iff in E.
Qed.

Lemma fold_assign_keys (cs : list C) (k : string) :
  forall o,
    In k (keys (fold_left register cs o))
    <-> In k (keys o) \/ exists c, In c cs /\ In k (keys (f c)).
Proof.
  induction cs as [|c cs IH]; cbn [fold_left]; intros o.
  - split; [now left | intros [H|(c & [] & _)]; exact H].
  - rewrite IH. unfold register.
    assert (Hassign : In k (keys (assign o (f c)))
                      <-> In k (keys o) \/ In k (keys (f c))).
    { rewrite <- !hasOwnProperty_true_iff. unfold hasOwnProperty.
      rewrite obj_get_assign by auto.
      destruct (obj_get (f c) k), (obj_get o k); intuition discriminate. }
    rewrite Hassign. split.
    + intros [[H|H]|(c' & Hc' & H)]; eauto.
      * right. exists c. split; [now left | assumption].
      * right. exists c'. split; [now right | assumption].
    + intros [H|(c' & [<-|Hc'] & H)]; eauto.
Qed.

End Registries.

Section KeyedRegistry.
Context {C V : Type} (name : C -> string) (entry : C -> V).

Let register (o : Obj V) (c : C) : Obj V := obj_set o (name c) (entry c).

Lemma fold_set_untouched (cs : list C) (k : string) :
  (forall c, In c cs -> name c <> k) ->
  forall o, obj_get (fold_left register cs o) k = obj_get o k.
Proof.
  induction cs as [|c cs IH]; cbn [fold_left]; intros Hk o; [reflexivity|].
  rewrite IH by (intros c' Hc'; apply Hk; now right).
  unfold register. apply obj_get_set_other. apply Hk. now left.
Qed.

(** A name holds the entry of the last collection that bears it. *)
Lemma fold_set_last (before after : list C) (c : C) (k : string) :
  name c = k ->
  k <> "__proto__" ->
  (forall c', In c' after -> name c' <> k) ->
  forall o,
    obj_get (fold_left register (before ++ c :: after) o) k = Some (entry c).
Proof.
  intros Hc Hk Hafter o. rewrite fold_left_app. cbn [fold_left].
  rewrite fold_set_untouched by assumption.
  unfold register. rewrite Hc. now apply obj_get_set_same.
Qed.

End KeyedRegistry.

Section LibBuild.

Import LibAdapter LibExpected.

Lemma fold_buildType (cs : list Collection) :
  forall d,
    fold_left (fun d c => LibAdapter.buildType c d) cs d
    = LibAdapter.set_types (fold_left register_type cs (types d)) d.
Proof.
  induction cs as [|c cs IH]; intros d; cbn [fold_left].
  - now destruct d.
  - rewrite IH. reflexivity.
Qed.

(** After the first pass every collection has its type in the
    registry. *)
Lemma lib_fold_register_type_keeps (cs : list Collection) (k : string) :
  forall ts,
    (exists c, obj_get ts k = Some (output_type_of c)) ->
    exists c, obj_get (fold_left register_type cs ts) k
              = Some (output_type_of c).
Proof.
  induction cs as [|c0 cs IH]; intros ts H; cbn [fold_left]; [exact H|].
  apply IH. unfold register_type.
  destruct (string_dec (capitalize (identity c0)) k) as [E|N].
  - unfold obj_set. destruct (String.eqb_spec (capitalize (identity c0))
                                              "__proto__") as [Ep|Np];
      [exact H|].
    exists c0. rewrite <- E. rewrite <- (obj_set_plain _ _ _ Np).
    now apply obj_get_set_same.
  - now rewrite obj_get_set_other.
Qed.

Lemma lib_registered_after_first_pass (cs : list Collection) (c : Collection)
      (d : Defaults) :
  In c cs ->
  LibAdapter.list_of_registered
    (LibAdapter.set_types (fold_left register_type cs (types d)) d)
    (capitalize (identity c))
  = Value (GraphQLList
             (own_type (fold_left register_type cs (types d)) c)).
Proof.
  intros Hin. unfold LibAdapter.list_of_registered, LibAdapter.types_get, own_type.
  cbn [types LibAdapter.set_types].
  destruct (String.eqb_spec (capitalize (identity c)) "__proto__") as [E|N];
    [reflexivity|].
  assert (H : exists c', obj_get (fold_left register_type cs (types d))
                                 (capitalize (identity c))
                         = Some (output_type_of c')).
  { generalize (types d). induction cs as [|c0 cs IH]; [destruct Hin|].
    intros ts. cbn [fold_left]. destruct Hin as [->|Hin].
    - apply lib_fold_register_type_keeps. exists c. unfold register_type.
      now apply obj_get_set_same.
    - now apply IH. }
  destruct H as [c' ->]. reflexivity.
Qed.

Lemma lib_forEach_buildQueryFields (cs : list Collection) :
  forall d,
    (forall c, In c cs ->
               isValue (LibAdapter.list_of_registered
                          d (capitalize (identity c))) = true) ->
    LibAdapter.forEach LibAdapter.buildQueryFields cs d
    = (Value tt,
       set_queryFields
         (fold_left (fun qf c =>
                       assign qf (LibAdapter.query_fields_of
                                    (usefulFunctions d) (types d) c))
                    cs (queryFields d))
         d).
Proof.
  induction cs as [|c cs IH]; intros d H; cbn [LibAdapter.forEach fold_left].
  - now destruct d.
  - unfold LibAdapter.buildQueryFields at 1.
    specialize (H c (or_introl eq_refl)) as Hc.
    destruct (LibAdapter.list_of_registered d (capitalize (identity c)));
      [|discriminate Hc].
    cbn [bind]. rewrite IH; [reflexivity|].
    intros c' Hc'. apply (H c'). now right.
Qed.

Lemma getQueries_built (d : Defaults) :
  LibAdapter.getQueries d
  = (Value tt,
     {| collections := collections d;
        usefulFunctions := usefulFunctions d;
        types := built_types (collection_values (collections d));
        queryFields :=
          built_fields (usefulFunctions d)
                       (collection_values (collections d)) |}).
Proof.
  unfold LibAdapter.getQueries. cbv zeta.
  rewrite fold_buildType, lib_forEach_buildQueryFields; [reflexivity|].
  intros c Hc.
  pose proof (lib_registered_after_first_pass
                (collection_values (collections d)) c
                (LibAdapter.set_queryFields [] (LibAdapter.set_types [] d)) Hc)
    as E.
  cbn [collections LibAdapter.set_types LibAdapter.set_queryFields types] in E |- *.
  now rewrite E.
Qed.

Lemma In_query_fields_of (useful : bool) (ts : Obj OutputType)
      (c : Collection) (n : string) :
  buildable c ->
  In n (keys (LibAdapter.query_fields_of useful ts c)) <-> In n (names_of useful c).
Proof.
  intros Hb. now rewrite query_fields_of_explicit, keys_fields_of.
Qed.

Lemma built_fields_last (useful : bool) (cs : list Collection)
      (c : Collection) (n : string) :
  Forall buildable cs ->
  last_such (fun c => In n (names_of useful c)) cs c ->
  obj_get (built_fields useful cs) n
  = obj_get (fields_of useful (built_types cs) c) n.
Proof.
  intros Hb (before & after & Hcs & Hn & Hafter).
  unfold built_fields. generalize (built_types cs). intros ts.
  rewrite Forall_forall in Hb. subst cs.
  assert (Hc : buildable c) by (apply Hb; rewrite in_app_iff; cbn; auto).
  rewrite (fold_assign_last
             (LibAdapter.query_fields_of useful ts)
             (query_fields_of_NoDup useful _)
             (query_fields_of_no_proto useful _)).
  - now rewrite query_fields_of_explicit.
  - now apply In_query_fields_of.
  - intros c' Hc'. rewrite In_query_fields_of; [now apply Hafter|].
    apply Hb. rewrite in_app_iff. cbn. auto.
Qed.

Lemma built_fields_keys (useful : bool) (cs : list Collection) (n : string) :
  Forall buildable cs ->
  In n (keys (built_fields useful cs))
  <-> exists c, In c cs /\ In n (names_of useful c).
Proof.
  intros Hb. rewrite Forall_forall in Hb. unfold built_fields.
  generalize (built_types cs). intros ts.
  rewrite (fold_assign_keys
             (LibAdapter.query_fields_of useful ts)
             (query_fields_of_NoDup useful _)
             (query_fields_of_no_proto useful _)).
  split.
  - intros [[]|(c & Hc & Hn)]. exists c. split; [assumption|].
    now apply (In_query_fields_of useful ts c n (Hb c Hc)).
  - intros (c & Hc & Hn). right. exists c. split; [assumption|].
    now apply (In_query_fields_of useful ts c n (Hb c Hc)).
Qed.

(** The constructor returns the registry's fields under the root's
    name, if it returns. *)
Lemma lib_GraphQLSchema_value (d : Defaults) (s : Schema) :
  LibAdapter.GraphQLSchema d = Value s ->
  s = {| query_name := "Schema"; query_fields := queryFields d |}.
Proof.
  unfold LibAdapter.GraphQLSchema.
  destruct (reduceM _ (queryFields d) []); cbn [bind]; congruence.
Qed.

Lemma getGraphQLSchema_built (params : Params) (d : Defaults) :
  LibAdapter.getGraphQLSchema params d
  = if no_collections (params_collections params)
    then (ErrorText "Error: Empty object collections", d)
    else
      let cs := match params_collections params with
                | Some cs => cs
                | None => collections d
                end in
      let d' :=
        {| collections := cs;
           usefulFunctions := useful_in params d;
           types := built_types (collection_values cs);
           queryFields :=
             built_fields (useful_in params d) (collection_values cs) |} in
      (match LibAdapter.GraphQLSchema d' with
       | Value schema => Built schema
       | Throw e => Thrown e
       end, d').
Proof.
  unfold LibAdapter.getGraphQLSchema.
  destruct (no_collections (params_collections params)); [reflexivity|].
  cbv zeta. rewrite getQueries_built. reflexivity.
Qed.

End LibBuild.

Section LibTheorems.

Import LibAdapter LibExpected MoreExamples.

Lemma fields_of_lookup (useful : bool) (ts : Obj OutputType) (c : Collection)
      (n : string) :
  obj_get (fields_of useful ts c) n
  = if String.eqb (singular_name c) n then Some (singular_field ts c)
    else if String.eqb (plural_name c) n then Some (plural_field ts c)
    else if useful then
      if String.eqb (latest_name c) n
      then Some (ordered_field "createdAt DESC" ts c)
      else if String.eqb (first_name c) n
      then Some (ordered_field "createdAt ASC" ts c)
      else if String.eqb (count_name c) n then Some (count_field c)
      else None
    else None.
Proof. destruct useful; reflexivity. Qed.

Lemma singular_name_lower (c : Collection) :
  singular_name c = toLowerCase (identity c).
Proof. apply toLowerCase_lib_capitalize. Qed.

Lemma plural_name_lower (c : Collection) :
  plural_name c = (toLowerCase (identity c) ++ "s")%string.
Proof. unfold plural_name. now rewrite toLowerCase_lib_capitalize. Qed.

(** X4: the query fields that the older adapter makes of one
    collection.  Their names are the lower-case identity, the same with
    an [s], and, when [usefulFunctions] is on, [getLatest...s],
    [getFirst...s] and [count...s] around the capitalised identity; the
    names never coincide.  The singular field takes [id] alone; every
    other field ends up with the date arguments [start] and [end]
    after its own, the counting field with nothing else. *)
Theorem lib_query_fields_names_and_arguments
        (useful : bool) (ts : Obj OutputType) (c : Collection)
        (Hname : toLowerCase (identity c) <> "__proto__") :
  let fields := LibAdapter.query_fields_of useful ts c in
  let lower := toLowerCase (identity c) in
  let Id := capitalize (identity c) in
  let names :=
    [lower; (lower ++ "s")%string]
    ++ (if useful
        then [("getLatest" ++ Id ++ "s")%string;
              ("getFirst" ++ Id ++ "s")%string;
              ("count" ++ Id ++ "s")%string]
        else []) in
  let arguments n := option_map argument_names (obj_get fields n) in
  NoDup names
  /\ (forall n, In n (keys fields) <-> In n names)
  /\ arguments lower = Some ["id"]
  /\ arguments (lower ++ "s")%string
     = Some ["limit"; "skip"; "sort"; "start"; "end"]
  /\ (useful = true ->
      arguments ("getLatest" ++ Id ++ "s")%string = Some ["count"; "start"; "end"]
      /\ arguments ("getFirst" ++ Id ++ "s")%string = Some ["count"; "start"; "end"]
      /\ arguments ("count" ++ Id ++ "s")%string = Some ["start"; "end"]).
Proof.
  intros fields lower Id names arguments.
  assert (Hb : buildable c) by (unfold buildable; now rewrite singular_name_lower).
  assert (Hnames : names = names_of useful c).
  { unfold names, names_of, lower.
    now rewrite <- plural_name_lower, <- singular_name_lower. }
  destruct (names_distinct c)
    as (H1 & H2 & H3 & H4 & H5 & H6 & H7 & H8 & H9 & H10).
  assert (Hneq : forall a b : string, a <> b -> String.eqb a b = false)
    by (intros a b; apply String.eqb_neq).
  assert (Hlookup : forall n, obj_get fields n
                              = obj_get (fields_of useful ts c) n)
    by (intros n; unfold fields; now rewrite query_fields_of_explicit).
  refine (conj _ (conj _ (conj _ (conj _ _)))).
  - rewrite Hnames. apply names_of_NoDup.
  - intros n. rewrite Hnames. now apply In_query_fields_of.
  - unfold arguments. rewrite Hlookup, fields_of_lookup.
    replace lower with (singular_name c) by apply singular_name_lower.
    rewrite String.eqb_refl. reflexivity.
  - unfold arguments. rewrite Hlookup, fields_of_lookup.
    replace (lower ++ "s")%string with (plural_name c)
      by apply plural_name_lower.
    rewrite (Hneq _ _ H1), String.eqb_refl. reflexivity.
  - intros ->. unfold arguments, Id.
    fold (latest_name c) (first_name c) (count_name c).
    rewrite !Hlookup, !fields_of_lookup.
    rewrite (Hneq _ _ H2), (Hneq _ _ H3), (Hneq _ _ H4), (Hneq _ _ H5),
      (Hneq _ _ H6), (Hneq _ _ H7), (Hneq _ _ H8), (Hneq _ _ H9),
      (Hneq _ _ H10), !String.eqb_refl.
    repeat split; reflexivity.
Qed.

Lemma lib_query_fields_names_and_arguments_witness :
  keys (LibAdapter.query_fields_of true (built_types [User]) User)
  = ["user"; "users"; "getLatestUsers"; "getFirstUsers"; "countUsers"]
  /\ option_map argument_names
       (obj_get (LibAdapter.query_fields_of true (built_types [User]) User)
                "countUsers")
     = Some ["start"; "end"].
Proof.
  split; [reflexivity|].
  exact (proj2 (proj2 (proj2 (proj2 (proj2 (proj2
           (lib_query_fields_names_and_arguments
              true (built_types [User]) User ltac:(discriminate))))) eq_refl))).
Defined.

(** X5: a build of the older adapter starts from nothing.  Without
    collections, or with none in them, [getGraphQLSchema] returns the
    error text instead of throwing and leaves the module's state alone;
    otherwise both the schema and the state it leaves depend on the state
    before only through [usefulFunctions], which counts when the
    parameters leave it out: no type and no query field of an earlier
    build survives. *)
Theorem lib_build_starts_afresh (params : Params) (d d' : Defaults) :
  (no_collections (params_collections params) = true ->
   LibAdapter.getGraphQLSchema params d
   = (ErrorText "Error: Empty object collections", d))
  /\ (no_collections (params_collections params) = false ->
      useful_in params d = useful_in params d' ->
      LibAdapter.getGraphQLSchema params d
      = LibAdapter.getGraphQLSchema params d')
  /\ (no_collections (params_collections params) = false ->
      forall n,
        In n (keys (types (LibExpected.after params d))) ->
        exists c, In c (collection_values
                          (collections (LibExpected.after params d)))
                  /\ n = capitalize (identity c)).
Proof.
  refine (conj _ (conj _ _)).
  - intros H. now rewrite getGraphQLSchema_built, H.
  - intros H Huseful. rewrite !getGraphQLSchema_built, H, Huseful.
    destruct (params_collections params); [reflexivity | discriminate H].
  - intros H n. unfold LibExpected.after.
    rewrite getGraphQLSchema_built, H. cbn [snd types collections].
    generalize (collection_values
                  match params_collections params with
                  | Some cs => cs
                  | None => collections d
                  end).
    intros cs. unfold built_types.
    assert (Hgen : forall ts,
               In n (keys (fold_left register_type cs ts)) ->
               In n (keys ts)
               \/ exists c, In c cs /\ n = capitalize (identity c)).
    { induction cs as [|c0 cs IH]; cbn [fold_left]; intros ts Hin; [now left|].
      destruct (IH _ Hin) as [Hts|(c1 & Hc1 & ->)].
      - unfold register_type, obj_set in Hts.
        destruct (String.eqb (capitalize (identity c0)) "__proto__");
          [now left|].
        apply In_keys_put in Hts. destruct Hts as [Hts|Hts]; [|now left].
        right. exists c0. split; [now left | assumption].
      - right. exists c1. split; [now right | reflexivity]. }
    intros Hin. destruct (Hgen [] Hin) as [[]|Hex]. exact Hex.
Qed.

Lemma lib_lodash_defaults_eta (params : Params) (d : Defaults) (cs : Collections) :
  params_collections params = Some cs ->
  collection_values cs <> [] ->
  let d' :=
    {| collections := cs;
       usefulFunctions := useful_in params d;
       types := built_types (collection_values cs);
       queryFields :=
         built_fields (useful_in params d) (collection_values cs) |} in
  LibAdapter.getGraphQLSchema params d
  = (match LibAdapter.GraphQLSchema d' with
     | Value schema => Built schema
     | Throw e => Thrown e
     end, d').
Proof.
  intros Hcs Hne. rewrite getGraphQLSchema_built, Hcs.
  destruct cs as [[|? ?]|[|? ?]]; cbn in Hne |- *; congruence.
Qed.

Lemma last_such_nonempty (p : Collection -> Prop) (cs : list Collection)
      (c : Collection) :
  last_such p cs c -> cs <> [].
Proof. intros (before & after & -> & _). now destruct before. Qed.

(** X6: what the root fields of the older adapter ask the store.  After
    a build, the field registered under a name belongs to the last
    collection from which the name derives, and resolving it makes that
    collection's query: the singular field passes the criteria on as
    they are; the plural and the counting field prune them and turn the
    date arguments into a [createdAt] filter; [getLatest...] and
    [getFirst...] moreover sort by [createdAt], descending and ascending.
    Only the plural field hands [parent] to [populateAll]. *)
Theorem lib_root_field_resolvers
        (params : Params) (d : Defaults) (cs : Collections) (s : Schema)
        (n : string) (c : Collection)
        (Hcs : params_collections params = Some cs)
        (Hbuildable : Forall buildable (collection_values cs))
        (Hs : fst (LibAdapter.getGraphQLSchema params d) = Built s)
        (Hlast : last_such (fun c' => In n (names_of (useful_in params d) c'))
                           (collection_values cs) c) :
  (forall m, In m (LibAdapter.field_names s)
             <-> exists c', In c' (collection_values cs)
                            /\ In m (names_of (useful_in params d) c'))
  /\ forall (object parent : JsVal) (criteria : Obj JsVal),
      option_map (fun field => resolve field object criteria parent)
                 (obj_get (query_fields s) n)
      = Some (if String.eqb (singular_name c) n then findOne c criteria
              else if String.eqb (plural_name c) n
              then find c (filters_of criteria) (Some parent)
              else if String.eqb (latest_name c) n
              then find c (ordered_filters "createdAt DESC" criteria) None
              else if String.eqb (first_name c) n
              then find c (ordered_filters "createdAt ASC" criteria) None
              else count c (filters_of criteria)).
Proof.
  rewrite (lib_lodash_defaults_eta params d cs Hcs
             (last_such_nonempty _ _ _ Hlast)) in Hs.
  cbn [fst] in Hs.
  destruct (LibAdapter.GraphQLSchema _) as [schema|e] eqn:Hschema;
    [|discriminate Hs].
  injection Hs as <-. apply lib_GraphQLSchema_value in Hschema. subst schema.
  unfold LibAdapter.field_names. cbn [query_fields queryFields].
  split; [intros m; now apply built_fields_keys|].
  intros object parent criteria.
  rewrite (built_fields_last _ _ c n Hbuildable Hlast), fields_of_lookup.
  destruct Hlast as (_ & _ & _ & Hn & _).
  destruct (String.eqb_spec (singular_name c) n) as [E1|N1]; [reflexivity|].
  destruct (String.eqb_spec (plural_name c) n) as [E2|N2]; [reflexivity|].
  unfold names_of in Hn.
  destruct (useful_in params d); cbn [app In] in Hn.
  - destruct (String.eqb_spec (latest_name c) n) as [E3|N3]; [reflexivity|].
    destruct (String.eqb_spec (first_name c) n) as [E4|N4]; [reflexivity|].
    destruct (String.eqb_spec (count_name c) n) as [E5|N5]; [reflexivity|].
    exfalso. intuition.
  - exfalso. intuition.
Qed.

Lemma lib_root_field_resolvers_witness :
  option_map (fun field =>
                resolve field VUndefined
                        [("count", VNum 3%float); ("start", VStr "2016-01-01")]
                        VUndefined)
             (obj_get (queryFields (LibExpected.after lib_blog
                                      LibAdapter.initial_defaults))
                      "getLatestUsers")
  = Some (find User
               [("createdAt", Range [(">", newDate (VStr "2016-01-01"))]);
                ("sort", Criterion (VStr "createdAt DESC"));
                ("limit", Criterion (VNum 3%float))]
               None).
Proof.
  refine (proj2
            (lib_root_field_resolvers
               lib_blog LibAdapter.initial_defaults blog
               {| query_name := "Schema";
                  query_fields :=
                    queryFields (LibExpected.after lib_blog
                                   LibAdapter.initial_defaults) |}
               "getLatestUsers" User eq_refl _ eq_refl _)
            VUndefined VUndefined
            [("count", VNum 3%float); ("start", VStr "2016-01-01")]).
  - repeat constructor; discriminate.
  - exists [], [Article]. split; [reflexivity|]. split.
    + vm_compute. right. right. left. reflexivity.
    + intros c' [<-|[]]. vm_compute. intuition discriminate.
Defined.

Lemma lib_after_built (params : Params) (d : Defaults) (cs : Collections) :
  params_collections params = Some cs ->
  collection_values cs <> [] ->
  LibExpected.after params d
  = {| collections := cs;
       usefulFunctions := useful_in params d;
       types := built_types (collection_values cs);
       queryFields :=
         built_fields (useful_in params d) (collection_values cs) |}.
Proof.
  intros Hcs Hne. unfold LibExpected.after.
  now rewrite (lib_lodash_defaults_eta params d cs Hcs Hne).
Qed.

(** X7: the resolver of a [model] attribute in the older adapter, after
    a build.  It asks the referenced collection for the one record whose
    [id] is the parent's own [id]: the value of the attribute plays no
    part.  It throws a TypeError when the parent is [undefined] or
    [null]. *)
Theorem lib_resolve_model_uses_parent_id
        (params : Params) (d : Defaults) (cs : Collections)
        (model : string) (referenced : Collection)
        (Hcs : params_collections params = Some cs)
        (Hbuildable : Forall buildable (collection_values cs))
        (Hlast : last_such
                   (fun c => In (toLowerCase model)
                                (names_of (useful_in params d) c))
                   (collection_values cs) referenced)
        (Hsingular : toLowerCase (identity referenced) = toLowerCase model) :
  (forall object : JsVal,
      LibAdapter.resolve_model model (LibExpected.after params d) object
      = match object with
        | VUndefined =>
            Throw (TypeError "Cannot read property 'id' of undefined")
        | VNull => Throw (TypeError "Cannot read property 'id' of null")
        | VObj props =>
            Value (findOne referenced
                     [("id", match obj_get props "id" with
                             | Some id => id
                             | None => VUndefined
                             end)])
        | _ => Value (findOne referenced [("id", VUndefined)])
        end)
  /\ (forall (props props' : Obj JsVal),
        obj_get props "id" = obj_get props' "id" ->
        LibAdapter.resolve_model model (LibExpected.after params d) (VObj props)
        = LibAdapter.resolve_model model (LibExpected.after params d)
                                   (VObj props')).
Proof.
  assert (Hrun : forall object,
             LibAdapter.resolve_model model (LibExpected.after params d) object
             = (id <- get object "id" ;;
                Value (findOne referenced [("id", id)]))).
  { intros object.
    rewrite (lib_after_built params d cs Hcs (last_such_nonempty _ _ _ Hlast)).
    unfold LibAdapter.resolve_model. cbn [queryFields].
    rewrite (built_fields_last _ _ referenced _ Hbuildable Hlast).
    rewrite fields_of_lookup, singular_name_lower, Hsingular, String.eqb_refl.
    reflexivity. }
  split.
  - intros object. rewrite Hrun. now destruct object.
  - intros props props' Hid. rewrite !Hrun. cbn [get bind]. now rewrite Hid.
Qed.

Lemma lib_resolve_model_uses_parent_id_witness :
  LibAdapter.resolve_model "user"
    (LibExpected.after lib_blog LibAdapter.initial_defaults)
    (VObj [("id", VNum 10%float); ("title", VStr "On maps");
           ("author", VNum 3%float)])
  = Value (findOne User [("id", VNum 10%float)]).
Proof.
  refine (proj1
            (lib_resolve_model_uses_parent_id
               lib_blog LibAdapter.initial_defaults blog "user" User
               eq_refl _ _ eq_refl)
            (VObj [("id", VNum 10%float); ("title", VStr "On maps");
                   ("author", VNum 3%float)])).
  - repeat constructor; discriminate.
  - exists [], [Article]. split; [reflexivity|]. split.
    + vm_compute. left. reflexivity.
    + intros c' [<-|[]]. vm_compute. intuition discriminate.
Defined.

(** X8: the resolver of a [collection] attribute in the older adapter,
    after a build.  It asks the referenced collection for all its
    records, with no filter: the condition that the [via] attribute, in
    lower case, equals the parent's [id] is handed to [populateAll]
    under [where], not to [find]. *)
Theorem lib_resolve_collection_finds_unfiltered
        (params : Params) (d : Defaults) (cs : Collections)
        (rules : Rules) (name f : string) (referenced : Collection)
        (object id : JsVal)
        (Hcs : params_collections params = Some cs)
        (Hbuildable : Forall buildable (collection_values cs))
        (Hcollection : collection rules = Some name)
        (Hvia : via rules = Some f)
        (Hlast : last_such
                   (fun c => In (toLowerCase name ++ "s")%string
                                (names_of (useful_in params d) c))
                   (collection_values cs) referenced)
        (Hplural : toLowerCase (identity referenced) = toLowerCase name)
        (Hobject : get object "id" = Value id) :
  LibAdapter.resolve_collection rules (LibExpected.after params d) object
  = Value (find referenced []
                (Some (VObj [("where", VObj (obj_set [] (toLowerCase f) id))]))).
Proof.
  rewrite (lib_after_built params d cs Hcs (last_such_nonempty _ _ _ Hlast)).
  unfold LibAdapter.resolve_collection. rewrite Hvia, Hobject. cbn [bind].
  rewrite Hcollection. cbn [queryFields].
  rewrite (built_fields_last _ _ referenced _ Hbuildable Hlast).
  assert (E : String.eqb (singular_name referenced)
                         (toLowerCase name ++ "s") = false).
  { apply String.eqb_neq. rewrite <- Hplural, <- plural_name_lower.
    apply names_distinct. }
  rewrite fields_of_lookup, E, plural_name_lower, Hplural, String.eqb_refl.
  reflexivity.
Qed.

Lemma lib_resolve_collection_finds_unfiltered_witness :
  LibAdapter.resolve_collection (hasMany "article" "author")
    (LibExpected.after lib_blog LibAdapter.initial_defaults)
    (VObj [("id", VNum 3%float)])
  = Value (find Article []
                (Some (VObj [("where", VObj [("author", VNum 3%float)])]))).
Proof.
  refine (lib_resolve_collection_finds_unfiltered
            lib_blog LibAdapter.initial_defaults blog
            (hasMany "article" "author") "article" "author" Article
            (VObj [("id", VNum 3%float)]) (VNum 3%float)
            eq_refl _ eq_refl eq_refl _ eq_refl eq_refl).
  - repeat constructor; discriminate.
  - exists [User], []. split; [reflexivity|]. split.
    + vm_compute. right. left. reflexivity.
    + intros c' [].
Defined.

End LibTheorems.

(* ================================================================= *)
(** ** Loops that fill an object *)

Section ObjectLoopResults.
Context {A V : Type} (g : string * A -> Outcome V).

Let step (o : Obj V) (entry : string * A) : Outcome (Obj V) :=
  v <- g entry ;; Value (obj_set o (fst entry) v).

(** The loop gets through exactly when its body does on every entry. *)
Lemma reduceM_set_value_iff (entries : list (string * A)) :
  forall acc,
    (exists res, reduceM step entries acc = Value res)
    <-> (forall entry, In entry entries -> exists v, g entry = Value v).
Proof.
  induction entries as [|entry entries IH]; intros acc; cbn [reduceM].
  - split; [intros _ ? [] | intros _; now exists acc].
  - unfold step at 1. destruct (g entry) as [v|e] eqn:Eg; cbn [bind].
    + rewrite IH. split.
      * intros H entry' [<-|Hin]; [now exists v | now apply H].
      * intros H entry' Hin. apply H. now right.
    + split; [intros [res H]; discriminate H|].
      intros H. destruct (H entry (or_introl eq_refl)) as [v Hv].
      congruence.
Qed.

(** It ends with the exception of the first entry whose body throws. *)
Lemma reduceM_set_first_throw (before after : list (string * A))
      (entry : string * A) (e : Error) :
  (forall y, In y before -> exists v, g y = Value v) ->
  g entry = Throw e ->
  forall acc, reduceM step (before ++ entry :: after) acc = Throw e.
Proof.
  induction before as [|y before IH]; intros Hbefore He acc; cbn [app reduceM].
  - unfold step at 1. now rewrite He.
  - unfold step at 1. destruct (Hbefore y (or_introl eq_refl)) as [v ->].
    cbn [bind]. apply IH; [|assumption].
    intros y' Hy'. apply Hbefore. now right.
Qed.

(** Whatever it throws, an entry's body threw. *)
Lemma reduceM_set_throw_source (entries : list (string * A)) (e : Error) :
  forall acc,
    reduceM step entries acc = Throw e ->
    exists entry, In entry entries /\ g entry = Throw e.
Proof.
  induction entries as [|entry entries IH]; intros acc; cbn [reduceM];
    [discriminate|].
  unfold step at 1. destruct (g entry) as [v|e'] eqn:Eg; cbn [bind].
  - intros H. destruct (IH _ H) as (entry' & Hin & He).
    exists entry'. split; [now right | assumption].
  - intros [= <-]. exists entry. split; [now left | assumption].
Qed.

(** The names of the object it makes. *)
Lemma reduceM_set_keys (entries : list (string * A)) (k : string) :
  forall acc res,
    reduceM step entries acc = Value res ->
    In k (keys res) <-> In k (keys acc) \/ (In k (keys entries) /\ k <> "__proto__").
Proof.
  induction entries as [|entry entries IH]; intros acc res; cbn [reduceM].
  - intros [= <-]. cbn. tauto.
  - unfold step at 1. destruct (g entry) as [v|e'] eqn:Eg; cbn [bind];
      [|discriminate].
    intros H. rewrite (IH _ _ H). cbn [keys map In]. fold (keys entries).
    unfold obj_set. destruct (String.eqb_spec (fst entry) "__proto__") as [E|N].
    + split; [tauto|]. intros [H1|[[H2|H2] H3]]; try tauto. congruence.
    + rewrite In_keys_put. split.
      * intros [[->|H1]|H2]; tauto.
      * intros [H1|[[H2|H2] H3]]; auto.
Qed.

End ObjectLoopResults.

Section LibTypes.

Import LibAdapter LibExpected MoreExamples.

Lemma lib_type_fields_by_field_of (c : Collection) (d : Defaults) :
  LibAdapter.type_fields c d
  = reduceM (fun o entry => v <- LibExpected.field_of d entry ;;
                            Value (obj_set o (fst entry) v))
            (_attributes c) [].
Proof.
  unfold LibAdapter.type_fields. apply reduceM_ext_in.
  intros fields [key rules] _. unfold LibExpected.field_of. cbn [fst snd].
  destruct (model rules); [reflexivity|].
  destruct (collection rules) as [name|].
  - destruct (LibAdapter.list_of_registered d (capitalize name)); reflexivity.
  - destruct (Lib.convertToGraphQLType rules); reflexivity.
Qed.

Lemma lib_convertToGraphQLType_tag (rules : Rules) (tag : string) :
  type rules = Some tag ->
  Lib.convertToGraphQLType rules = Value (scalar_of_tag tag).
Proof.
  intros H. unfold Lib.convertToGraphQLType, scalar_of_tag. rewrite H.
  cbv zeta.
  destruct (String.eqb_spec (toLowerCase tag) "string") as [->|_];
    [reflexivity|].
  destruct (String.eqb (toLowerCase tag) "integer"); [reflexivity|].
  destruct (String.eqb (toLowerCase tag) "boolean"); [reflexivity|].
  destruct (String.eqb (toLowerCase tag) "float"); reflexivity.
Qed.

(** The list of a registered type is made; the list of a missing one is
    refused. *)
Lemma lib_list_of_registered_cases (d : Defaults) (name : string) :
  name <> "__proto__" ->
  (LibAdapter.types_get d name <> NoType
   /\ LibAdapter.list_of_registered d name
      = Value (GraphQLList (LibAdapter.types_get d name)))
  \/ (LibAdapter.types_get d name = NoType
      /\ LibAdapter.list_of_registered d name
         = Throw (LibraryError
                    "Can only create List of a GraphQLType but got: undefined.")).
Proof.
  intros Hname. unfold LibAdapter.list_of_registered, new_GraphQLList.
  destruct (String.eqb_spec name "__proto__") as [E|_]; [contradiction|].
  destruct (LibAdapter.types_get d name);
    first [right; split; reflexivity | left; split; [discriminate | reflexivity]].
Qed.

Lemma lib_field_of_value_iff (d : Defaults) (attribute : string * Rules) :
  (forall name, collection (snd attribute) = Some name ->
                capitalize name <> "__proto__") ->
  (exists v, LibExpected.field_of d attribute = Value v)
  <-> ((is_scalar (snd attribute) = true -> type (snd attribute) <> None)
       /\ (forall name,
              model (snd attribute) = None ->
              collection (snd attribute) = Some name ->
              LibAdapter.types_get d (capitalize name) <> NoType)).
Proof.
  intros Hordinary. unfold LibExpected.field_of, is_scalar. cbv zeta.
  destruct (model (snd attribute));
    [split; [split; intros; discriminate | eauto]|].
  destruct (collection (snd attribute)) as [name|].
  - destruct (lib_list_of_registered_cases d (capitalize name)
                (Hordinary name eq_refl)) as [[Ht ->]|[Ht ->]]; cbn [bind].
    + split; [|eauto]. intros _. split; [discriminate|].
      now intros name' _ [= <-].
    + split; [intros [v H]; discriminate H|].
      intros [_ H]. now destruct (H name eq_refl eq_refl).
  - destruct (type (snd attribute)) as [tag|] eqn:Et.
    + rewrite (lib_convertToGraphQLType_tag _ tag Et). cbn [bind].
      split; [|eauto]. intros _. split; [discriminate|]. discriminate.
    + unfold Lib.convertToGraphQLType. rewrite Et. cbn [bind].
      split; [intros [v H]; discriminate H|].
      intros [H _]. now destruct H.
Qed.

Lemma lib_field_of_throws (d : Defaults) (attribute : string * Rules) (e : Error) :
  (forall name, collection (snd attribute) = Some name ->
                capitalize name <> "__proto__") ->
  LibExpected.field_of d attribute = Throw e ->
  (e = TypeError "Cannot read property 'toLowerCase' of undefined"
   /\ is_scalar (snd attribute) = true /\ type (snd attribute) = None)
  \/ (e = LibraryError
            "Can only create List of a GraphQLType but got: undefined."
      /\ exists name,
          model (snd attribute) = None
          /\ collection (snd attribute) = Some name
          /\ LibAdapter.types_get d (capitalize name) = NoType).
Proof.
  intros Hordinary. unfold LibExpected.field_of, is_scalar. cbv zeta.
  destruct (model (snd attribute)); [discriminate|].
  destruct (collection (snd attribute)) as [name|].
  - destruct (lib_list_of_registered_cases d (capitalize name)
                (Hordinary name eq_refl)) as [[Ht ->]|[Ht ->]]; cbn [bind];
      [discriminate|].
    intros [= <-]. right. split; [reflexivity|]. now exists name.
  - destruct (type (snd attribute)) as [tag|] eqn:Et.
    + rewrite (lib_convertToGraphQLType_tag _ tag Et). discriminate.
    + unfold Lib.convertToGraphQLType. rewrite Et. cbn [bind].
      intros [= <-]. now left.
Qed.

(** *** The constructor's walk in the older adapter *)

Lemma lib_type_fields_throws (c : Collection) (d : Defaults) (e : Error) :
  LibAdapter.type_fields c d = Throw e ->
  e = TypeError "Cannot read property 'toLowerCase' of undefined"
  \/ e = LibraryError
          "Can only create List of a GraphQLType but got: undefined.".
Proof.
  unfold LibAdapter.type_fields. intros H. apply reduceM_throws_in in H.
  destruct H as (fields & [key rules] & _ & H). cbn [fst snd] in H.
  destruct (model rules); [discriminate|].
  destruct (collection rules) as [name|].
  - unfold LibAdapter.list_of_registered, new_GraphQLList in H.
    destruct (String.eqb (capitalize name) "__proto__"); [discriminate|].
    destruct (LibAdapter.types_get d (capitalize name)); try discriminate.
    cbn [bind] in H. injection H as <-. now right.
  - destruct (type rules) as [tag|] eqn:Et.
    + rewrite (lib_convertToGraphQLType_tag _ tag Et) in H. discriminate.
    + unfold Lib.convertToGraphQLType in H. rewrite Et in H.
      cbn [bind] in H. injection H as <-. now left.
Qed.

Lemma lib_collect_type_throws (d : Defaults) (root : string) (e : Error) :
  forall stack seen type,
    LibAdapter.collect_type stack d root seen type = Throw e ->
    e = TypeError "Cannot read property 'toLowerCase' of undefined"
    \/ e = LibraryError
            "Can only create List of a GraphQLType but got: undefined."
    \/ e = LibraryError
             ("Schema must contain unique named types but contains "
              ++ "multiple types named " ++ dquote ++ root ++ dquote ++ ".")
    \/ e = RangeError "Maximum call stack size exceeded".
Proof.
  induction stack as [|stack IH]; intros seen type;
    cbn [LibAdapter.collect_type];
    destruct (named_type type) as [| | | | | | |name description closure|];
    try discriminate;
    destruct (String.eqb_spec name root) as [->|_];
    try (intros [= <-]; right; right; left; reflexivity);
    destruct (existsb (String.eqb name) seen); try discriminate.
  - intros [= <-]. right. right. now right.
  - destruct (LibAdapter.type_fields closure d) as [fields|e'] eqn:E;
      cbn [bind].
    + intros H. apply reduceM_throws_in in H.
      destruct H as (seen' & field & _ & H). now apply IH in H.
    + intros [= <-]. apply lib_type_fields_throws in E. tauto.
Qed.

Lemma lib_registered_names_length (d : Defaults) :
  List.length (LibExpected.registered_names d) < LibAdapter.stack_for d.
Proof.
  unfold LibExpected.registered_names, LibAdapter.stack_for.
  rewrite List.length_app. apply Nat.lt_succ_r.
  apply Nat.add_le_mono; apply flat_map_short; intros entry;
    apply object_name_length.
Qed.

Lemma lib_types_get_names (d : Defaults) (name : string) :
  incl (object_name (LibAdapter.types_get d name))
       (LibExpected.registered_names d).
Proof.
  unfold LibAdapter.types_get. destruct (obj_get (types d) name) as [t|] eqn:E;
    [|intros n []].
  apply obj_get_In in E. intros n Hn. unfold LibExpected.registered_names.
  apply in_or_app. left. apply in_flat_map. now exists (name, t).
Qed.

Lemma lib_field_of_names (d : Defaults) (attribute : string * Rules)
      (field : Field) :
  LibExpected.field_of d attribute = Value field ->
  incl (object_name (field_type field)) (LibExpected.registered_names d).
Proof.
  unfold LibExpected.field_of. cbv zeta.
  destruct (model (snd attribute)) as [model|].
  - intros [= <-]. apply lib_types_get_names.
  - destruct (collection (snd attribute)) as [name|].
    + unfold LibAdapter.list_of_registered, new_GraphQLList.
      destruct (String.eqb (capitalize name) "__proto__").
      * cbn [bind]. intros [= <-]. apply lib_types_get_names.
      * pose proof (lib_types_get_names d (capitalize name)) as Hnames.
        destruct (LibAdapter.types_get d (capitalize name));
          cbn [bind]; try discriminate; now intros [= <-].
    + destruct (type (snd attribute)) as [tag|] eqn:Et.
      * rewrite (lib_convertToGraphQLType_tag _ tag Et). cbn [bind].
        intros [= <-]. cbn [field_type]. intros n Hn. exfalso.
        unfold scalar_of_tag in Hn.
        destruct (required (snd attribute));
          repeat match type of Hn with
                 | context [if ?b then _ else _] => destruct b
                 end;
          exact Hn.
      * unfold Lib.convertToGraphQLType. rewrite Et. discriminate.
Qed.

Lemma lib_type_fields_names (c : Collection) (d : Defaults) (fields : Obj Field) :
  LibAdapter.type_fields c d = Value fields ->
  Forall (fun entry => incl (object_name (field_type (snd entry)))
                            (LibExpected.registered_names d)) fields.
Proof.
  rewrite lib_type_fields_by_field_of.
  assert (H : forall acc,
             Forall (fun entry => incl (object_name (field_type (snd entry)))
                                       (LibExpected.registered_names d)) acc ->
             forall res,
               reduceM (fun o entry => v <- LibExpected.field_of d entry ;;
                                       Value (obj_set o (fst entry) v))
                       (_attributes c) acc = Value res ->
               Forall (fun entry => incl (object_name (field_type (snd entry)))
                                         (LibExpected.registered_names d)) res).
  { induction (_attributes c) as [|entry entries IH]; intros acc Hacc res;
      cbn [reduceM]; [now intros [= <-]|].
    destruct (LibExpected.field_of d entry) as [v|e] eqn:E; cbn [bind];
      [|discriminate].
    apply IH.
    apply (Forall_obj_set (fun f => incl (object_name (field_type f))
                                         (LibExpected.registered_names d)));
      [assumption | now apply (lib_field_of_names d entry)]. }
  apply H. constructor.
Qed.

Lemma lib_collect_type_within_stack (d : Defaults) (root : string) :
  forall stack seen type,
    NoDup seen ->
    incl seen (LibExpected.registered_names d) ->
    incl (object_name type) (LibExpected.registered_names d) ->
    List.length (LibExpected.registered_names d) < stack + List.length seen ->
    match LibAdapter.collect_type stack d root seen type with
    | Value seen' =>
        NoDup seen' /\ incl seen' (LibExpected.registered_names d)
        /\ List.length seen <= List.length seen'
    | Throw e => e <> RangeError "Maximum call stack size exceeded"
    end.
Proof.
  induction stack as [|stack IH]; intros seen type Hnd Hseen Htype Hroom;
    cbn [LibAdapter.collect_type]; unfold object_name in Htype;
    destruct (named_type type) as [| | | | | | |name description closure|];
    try (split; [assumption | split; [assumption | lia]]);
    (destruct (String.eqb name root); [discriminate|]);
    (destruct (existsb (String.eqb name) seen) eqn:Eseen;
     [split; [assumption | split; [assumption | lia]]|]);
    apply existsb_eqb_In in Eseen;
    assert (Hname : In name (LibExpected.registered_names d))
      by (apply Htype; now left);
    assert (Hnd' : NoDup (name :: seen)) by (now constructor);
    assert (Hseen' : incl (name :: seen) (LibExpected.registered_names d))
      by (intros n [<-|Hn]; [assumption | now apply Hseen]);
    pose proof (NoDup_incl_length Hnd' Hseen') as Hlen;
    cbn [List.length] in Hlen.
  - exfalso. lia.
  - destruct (LibAdapter.type_fields closure d) as [fields|e] eqn:E;
      cbn [bind].
    + apply lib_type_fields_names in E.
      assert (Hloop : forall seen0,
                 NoDup seen0 ->
                 incl seen0 (LibExpected.registered_names d) ->
                 List.length (LibExpected.registered_names d)
                 < stack + List.length seen0 ->
                 match reduceM (fun seen1 field =>
                                  LibAdapter.collect_type
                                    stack d root seen1 (field_type (snd field)))
                               fields seen0 with
                 | Value seen' =>
                     NoDup seen' /\ incl seen' (LibExpected.registered_names d)
                     /\ List.length seen0 <= List.length seen'
                 | Throw e => e <> RangeError "Maximum call stack size exceeded"
                 end).
      { induction fields as [|field fields IHf]; intros seen0 H1 H2 H3;
          cbn [reduceM]; [split; [assumption | split; [assumption | lia]]|].
        inversion E as [|? ? Hfield Hrest]; subst.
        pose proof (IH seen0 (field_type (snd field)) H1 H2 Hfield H3) as Hstep.
        destruct (LibAdapter.collect_type stack d root seen0
                                          (field_type (snd field)))
          as [seen1|e]; cbn [bind]; [|exact Hstep].
        destruct Hstep as (G1 & G2 & G3).
        specialize (IHf Hrest seen1 G1 G2 ltac:(lia)).
        destruct (reduceM _ fields seen1) as [seen2|e]; [|exact IHf].
        destruct IHf as (K1 & K2 & K3).
        split; [assumption | split; [assumption | lia]]. }
      specialize (Hloop (name :: seen) Hnd' Hseen' ltac:(cbn [List.length]; lia)).
      destruct (reduceM _ fields (name :: seen)) as [seen'|e]; [|exact Hloop].
      destruct Hloop as (K1 & K2 & K3). cbn [List.length] in K3.
      split; [assumption | split; [assumption | lia]].
    + apply lib_type_fields_throws in E. destruct E as [-> | ->]; discriminate.
Qed.

(** What the constructor of the older adapter can throw: the exception
    of a [fields] thunk, or its own refusal of a type named like the
    root. *)
Lemma lib_GraphQLSchema_throws (d : Defaults) (e : Error) :
  LibAdapter.GraphQLSchema d = Throw e ->
  e = TypeError "Cannot read property 'toLowerCase' of undefined"
  \/ e = LibraryError
          "Can only create List of a GraphQLType but got: undefined."
  \/ e = LibraryError
           ("Schema must contain unique named types but contains "
            ++ "multiple types named " ++ dquote ++ "Schema" ++ dquote ++ ".").
Proof.
  unfold LibAdapter.GraphQLSchema. cbv zeta.
  assert (Hloop : forall fs seen0,
             incl fs (queryFields d) ->
             NoDup seen0 ->
             incl seen0 (LibExpected.registered_names d) ->
             List.length (LibExpected.registered_names d)
             < LibAdapter.stack_for d + List.length seen0 ->
             forall e',
               reduceM (fun seen field =>
                          LibAdapter.collect_type
                            (LibAdapter.stack_for d) d "Schema" seen
                            (queryField_type (snd field)))
                       fs seen0 = Throw e' ->
               e' <> RangeError "Maximum call stack size exceeded").
  { intros fs. induction fs as [|[k field] fs IHf];
      intros seen0 Hin H1 H2 H3 e'; cbn [reduceM]; [discriminate|].
    assert (Hfield : incl (object_name (queryField_type field))
                          (LibExpected.registered_names d)).
    { intros n Hn. unfold LibExpected.registered_names.
      apply in_or_app. right. apply in_flat_map. exists (k, field).
      split; [apply Hin; now left | assumption]. }
    pose proof (lib_collect_type_within_stack d "Schema"
                  (LibAdapter.stack_for d) seen0
                  (queryField_type field) H1 H2 Hfield H3) as Hstep.
    cbn [snd].
    destruct (LibAdapter.collect_type _ _ _ seen0 (queryField_type field))
      as [seen1|e1]; cbn [bind]; [|now intros [= <-]].
    destruct Hstep as (G1 & G2 & G3).
    apply IHf; [|assumption|assumption|lia].
    intros x Hx. apply Hin. now right. }
  destruct (reduceM _ (queryFields d) []) as [seen|e'] eqn:E;
    cbn [bind]; [discriminate|].
  intros [= <-].
  pose proof (Hloop _ [] (incl_refl _) (NoDup_nil _) (incl_nil_l _)
                ltac:(pose proof (lib_registered_names_length d);
                      cbn [List.length]; lia) e' E) as Hrange.
  apply reduceM_throws_in in E.
  destruct E as (seen & field & _ & E). apply lib_collect_type_throws in E.
  tauto.
Qed.

(** X9: the [fields] thunk of an output type in the older adapter, for a
    collection none of whose [collection] attributes names [__proto__].
    It returns exactly when every attribute that is no relation has a
    [type] and every [collection] attribute names a collection whose
    type is in the registry; it then makes one field for every
    attribute.  It throws a TypeError only for a plain attribute without
    a [type], and the library's own error only for a [collection]
    attribute whose type is missing (line 105).  A plain attribute gets
    the scalar of its tag (integer, boolean and float, in any case; a
    string for everything else, [json] included), non-null when the
    attribute is required, and no resolver. *)
Theorem lib_type_fields_needs_types (owner : Collection) (d : Defaults)
        (Hordinary : forall key rules name,
            In (key, rules) (_attributes owner) ->
            collection rules = Some name ->
            capitalize name <> "__proto__") :
  ((exists fields, LibAdapter.type_fields owner d = Value fields)
   <-> (forall key rules,
           In (key, rules) (_attributes owner) ->
           (is_scalar rules = true -> type rules <> None)
           /\ (forall name,
                  model rules = None ->
                  collection rules = Some name ->
                  LibAdapter.types_get d (capitalize name) <> NoType)))
  /\ (forall e,
         LibAdapter.type_fields owner d = Throw e ->
         (e = TypeError "Cannot read property 'toLowerCase' of undefined"
          /\ exists key rules,
              In (key, rules) (_attributes owner)
              /\ is_scalar rules = true /\ type rules = None)
         \/ (e = LibraryError
                   "Can only create List of a GraphQLType but got: undefined."
             /\ exists key rules name,
                 In (key, rules) (_attributes owner)
                 /\ model rules = None
                 /\ collection rules = Some name
                 /\ LibAdapter.types_get d (capitalize name) = NoType))
  /\ (forall fields,
         LibAdapter.type_fields owner d = Value fields ->
         (forall k, In k (keys fields)
                    <-> In k (keys (_attributes owner)) /\ k <> "__proto__")
         /\ (NoDup (keys (_attributes owner)) ->
             forall key rules tag,
               In (key, rules) (_attributes owner) ->
               key <> "__proto__" ->
               is_scalar rules = true ->
               type rules = Some tag ->
               obj_get fields key
               = Some {| field_type :=
                           if required rules
                           then GraphQLNonNull (scalar_of_tag tag)
                           else scalar_of_tag tag;
                         field_resolve := None |})).
Proof.
  rewrite lib_type_fields_by_field_of.
  refine (conj _ (conj _ _)).
  - rewrite reduceM_set_value_iff. split.
    + intros H key rules Hin.
      apply (lib_field_of_value_iff d (key, rules));
        [intros name; apply (Hordinary key rules name Hin) | now apply H].
    + intros H [key rules] Hin. apply lib_field_of_value_iff.
      * intros name. apply (Hordinary key rules name Hin).
      * now apply (H key).
  - intros e He. apply reduceM_set_throw_source in He.
    destruct He as ([key rules] & Hin & He).
    apply lib_field_of_throws in He;
      [|intros name; apply (Hordinary key rules name Hin)].
    destruct He as [(-> & Hs & Ht)|(-> & name & Hm & Hc & Ht)].
    + left. split; [reflexivity|]. now exists key, rules.
    + right. split; [reflexivity|]. now exists key, rules, name.
  - intros fields Hfields. split.
    + intros k. rewrite (reduceM_set_keys _ _ k _ _ Hfields). cbn. tauto.
    + intros Hnd key rules tag Hin Hkey Hscalar Htag.
      destruct (reduceM_set_lookup (LibExpected.field_of d) _ key rules
                  Hnd Hin Hkey _ _ Hfields) as (v & Hv & ->).
      f_equal. unfold LibExpected.field_of, is_scalar in Hv, Hscalar.
      cbn [snd] in Hv.
      destruct (model rules); [discriminate Hscalar|].
      destruct (collection rules); [discriminate Hscalar|].
      rewrite (lib_convertToGraphQLType_tag _ tag Htag) in Hv.
      cbn [bind] in Hv. now injection Hv as <-.
Qed.

Lemma lib_type_fields_needs_types_witness :
  (exists fields,
      LibAdapter.type_fields User
        (LibExpected.after lib_blog LibAdapter.initial_defaults) = Value fields)
  /\ LibAdapter.type_fields User LibAdapter.initial_defaults
     = Throw (LibraryError
                "Can only create List of a GraphQLType but got: undefined.").
Proof.
  split.
  - refine (proj2 (proj1
              (lib_type_fields_needs_types
                 User (LibExpected.after lib_blog LibAdapter.initial_defaults) _))
              _).
    + intros key rules name Hin Hc.
      cbn in Hin. decompose [or] Hin; try contradiction;
        match goal with E : (_, _) = (_, _) |- _ => injection E as <- <- end;
        cbn in Hc; try discriminate Hc; injection Hc as <-; discriminate.
    + intros key rules Hin.
      cbn in Hin. decompose [or] Hin; try contradiction;
        match goal with E : (_, _) = (_, _) |- _ => injection E as <- <- end;
        (split; [discriminate|]); intros name Hm Hc;
        cbn in Hc; try discriminate Hc; injection Hc as <-;
        vm_compute; discriminate.
  - reflexivity.
Defined.

(** X10: the types of the relation fields in the older adapter, after a
    build.  The registry holds, under a capitalised identity, the type of
    the last collection of the build that has it, and nothing under any
    other name.  So the field of a relation attribute is typed by that
    collection, as a list for a [collection] attribute, wherever the
    referenced collection stands among the collections; the match is by
    the first letter's case only. *)
Theorem lib_relation_field_types
        (params : Params) (d : Defaults) (cs : Collections)
        (owner referenced : Collection) (key target : string) (rules : Rules)
        (fields : Obj Field)
        (Hcs : params_collections params = Some cs)
        (Hattribute : In (key, rules) (_attributes owner))
        (Hnames : NoDup (keys (_attributes owner)))
        (Hkey : key <> "__proto__")
        (Htarget : model rules = Some target
                   \/ (model rules = None /\ collection rules = Some target))
        (Hlast : last_such
                   (fun c => capitalize (identity c) = capitalize target)
                   (collection_values cs) referenced)
        (Hproto : capitalize target <> "__proto__")
        (Hfields : LibAdapter.type_fields owner (LibExpected.after params d)
                   = Value fields) :
  obj_get (types (LibExpected.after params d)) (capitalize target)
  = Some (output_type_of referenced)
  /\ (forall k,
         (forall c, In c (collection_values cs) -> capitalize (identity c) <> k) ->
         obj_get (types (LibExpected.after params d)) k = None)
  /\ option_map field_type (obj_get fields key)
     = Some (match model rules with
             | Some _ => output_type_of referenced
             | None => GraphQLList (output_type_of referenced)
             end).
Proof.
  pose proof (lib_after_built params d cs Hcs (last_such_nonempty _ _ _ Hlast))
    as Hafter.
  assert (Htype : obj_get (types (LibExpected.after params d)) (capitalize target)
                  = Some (output_type_of referenced)).
  { rewrite Hafter. cbn [types]. unfold built_types.
    destruct Hlast as (before & after & -> & Hc & Hrest).
    now apply (fold_set_last (fun c => capitalize (identity c)) output_type_of). }
  refine (conj Htype (conj _ _)).
  - intros k Hk. rewrite Hafter. cbn [types]. unfold built_types.
    now rewrite (fold_set_untouched (fun c => capitalize (identity c))
                                    output_type_of).
  - rewrite lib_type_fields_by_field_of in Hfields.
    destruct (reduceM_set_lookup (LibExpected.field_of _) _ key rules
                Hnames Hattribute Hkey _ _ Hfields) as (v & Hv & ->).
    cbn [option_map]. f_equal.
    unfold LibExpected.field_of in Hv. cbn [snd] in Hv.
    destruct Htarget as [Hm|[Hm Hc]].
    + rewrite Hm in Hv |- *. injection Hv as <-. cbn [field_type].
      unfold LibAdapter.types_get. now rewrite Htype.
    + rewrite Hm in Hv |- *. rewrite Hc in Hv.
      unfold LibAdapter.list_of_registered, LibAdapter.types_get in Hv.
      rewrite Htype in Hv.
      destruct (String.eqb (capitalize target) "__proto__");
        cbn [bind new_GraphQLList output_type_of] in Hv;
        now injection Hv as <-.
Qed.

Lemma lib_relation_field_types_witness :
  fmap (fun fields => option_map field_type (obj_get fields "articles"))
       (LibAdapter.type_fields User
          (LibExpected.after lib_blog LibAdapter.initial_defaults))
  = Value (Some (GraphQLList (output_type_of Article))).
Proof.
  destruct (LibAdapter.type_fields User
              (LibExpected.after lib_blog LibAdapter.initial_defaults))
    as [fields|e] eqn:Hfields; [|discriminate Hfields].
  cbn [fmap bind]. f_equal.
  refine (proj2 (proj2
            (lib_relation_field_types
               lib_blog LibAdapter.initial_defaults blog
               User Article "articles" "article" (hasMany "article" "author")
               fields eq_refl _ _ _ (or_intror (conj eq_refl eq_refl)) _ _
               Hfields))).
  - cbn. tauto.
  - repeat constructor; cbn; intuition discriminate.
  - discriminate.
  - exists [User], []. split; [reflexivity|]. split; [reflexivity|].
    intros c' [].
  - discriminate.
Defined.

End LibTypes.

(* ================================================================= *)
(** ** The adapter: output fields and registries after a build *)

Section OutputFields.

(** The list of a registered type is made; the list of a missing one is
    refused. *)
Lemma list_of_registered_cases (d : Defaults) (name : string) :
  name <> "__proto__" ->
  (types_get d name <> NoType
   /\ list_of_registered d name = Value (GraphQLList (types_get d name)))
  \/ (types_get d name = NoType
      /\ list_of_registered d name
         = Throw (LibraryError
                    "Can only create List of a GraphQLType but got: undefined.")).
Proof.
  intros Hname. unfold list_of_registered, new_GraphQLList.
  destruct (String.eqb_spec name "__proto__") as [E|_]; [contradiction|].
  destruct (types_get d name);
    first [right; split; reflexivity | left; split; [discriminate | reflexivity]].
Qed.

Lemma field_of_value_iff (c : Collection) (d : Defaults)
      (attribute : string * Rules) :
  (forall name, collection (snd attribute) = Some name ->
                capitalize name <> "__proto__") ->
  (exists v, field_of c d attribute = Value v)
  <-> ((is_scalar (snd attribute) = true -> type (snd attribute) <> None)
       /\ (forall name,
              model (snd attribute) = None ->
              collection (snd attribute) = Some name ->
              types_get d (capitalize name) <> NoType)).
Proof.
  intros Hordinary. unfold field_of, is_scalar. cbv zeta.
  destruct (model (snd attribute));
    [split; [split; intros; discriminate | eauto]|].
  destruct (collection (snd attribute)) as [name|].
  - destruct (list_of_registered_cases d (capitalize name)
                (Hordinary name eq_refl)) as [[Ht ->]|[Ht ->]]; cbn [bind].
    + split; [|eauto]. intros _. split; [discriminate|].
      now intros name' _ [= <-].
    + split; [intros [v H]; discriminate H|].
      intros [_ H]. now destruct (H name eq_refl eq_refl).
  - destruct (type (snd attribute)) as [tag|] eqn:Et.
    + rewrite convertToGraphQlType_Some. cbn [bind].
      split; [|eauto]. intros _. split; [discriminate|]. discriminate.
    + cbn [convertToGraphQlType bind].
      split; [intros [v H]; discriminate H|].
      intros [H _]. now destruct H.
Qed.

Lemma field_of_throws (c : Collection) (d : Defaults)
      (attribute : string * Rules) (e : Error) :
  (forall name, collection (snd attribute) = Some name ->
                capitalize name <> "__proto__") ->
  field_of c d attribute = Throw e ->
  (e = TypeError "Cannot read property 'toLowerCase' of undefined"
   /\ is_scalar (snd attribute) = true /\ type (snd attribute) = None)
  \/ (e = LibraryError
            "Can only create List of a GraphQLType but got: undefined."
      /\ exists name,
          model (snd attribute) = None
          /\ collection (snd attribute) = Some name
          /\ types_get d (capitalize name) = NoType).
Proof.
  intros Hordinary. unfold field_of, is_scalar. cbv zeta.
  destruct (model (snd attribute)); [discriminate|].
  destruct (collection (snd attribute)) as [name|].
  - destruct (list_of_registered_cases d (capitalize name)
                (Hordinary name eq_refl)) as [[Ht ->]|[Ht ->]]; cbn [bind];
      [discriminate|].
    intros [= <-]. right. split; [reflexivity|]. now exists name.
  - destruct (type (snd attribute)) as [tag|] eqn:Et.
    + rewrite convertToGraphQlType_Some. discriminate.
    + cbn [convertToGraphQlType bind]. intros [= <-]. now left.
Qed.

(** X11: the [fields] thunk of an output type, for a collection none of
    whose [collection] attributes names [__proto__].  It returns exactly
    when every attribute that is no relation has a [type] and every
    [collection] attribute names a collection whose type is in the
    registry; it then makes one field for every attribute.  It throws a
    TypeError only for a plain attribute without a [type], and the
    library's own error only for a [collection] attribute whose type is
    missing (line 123).  A plain attribute gets the scalar that
    [convertToGraphQlType] makes of its tag, non-null when the attribute
    is required, and no resolver; a [json] attribute is thus of the
    [JSON] scalar. *)
Theorem type_fields_needs_types (owner : Collection) (d : Defaults)
        (Hordinary : forall key rules name,
            In (key, rules) (_attributes owner) ->
            collection rules = Some name ->
            capitalize name <> "__proto__") :
  ((exists fields, type_fields owner d = Value fields)
   <-> (forall key rules,
           In (key, rules) (_attributes owner) ->
           (is_scalar rules = true -> type rules <> None)
           /\ (forall name,
                  model rules = None ->
                  collection rules = Some name ->
                  types_get d (capitalize name) <> NoType)))
  /\ (forall e,
         type_fields owner d = Throw e ->
         (e = TypeError "Cannot read property 'toLowerCase' of undefined"
          /\ exists key rules,
              In (key, rules) (_attributes owner)
              /\ is_scalar rules = true /\ type rules = None)
         \/ (e = LibraryError
                   "Can only create List of a GraphQLType but got: undefined."
             /\ exists key rules name,
                 In (key, rules) (_attributes owner)
                 /\ model rules = None
                 /\ collection rules = Some name
                 /\ types_get d (capitalize name) = NoType))
  /\ (forall fields,
         type_fields owner d = Value fields ->
         (forall k, In k (keys fields)
                    <-> In k (keys (_attributes owner)) /\ k <> "__proto__")
         /\ (NoDup (keys (_attributes owner)) ->
             forall key rules tag t,
               In (key, rules) (_attributes owner) ->
               key <> "__proto__" ->
               is_scalar rules = true ->
               type rules = Some tag ->
               convertToGraphQlType (Some tag) = Value t ->
               obj_get fields key
               = Some {| field_type :=
                           if required rules then GraphQLNonNull t else t;
                         field_resolve := None |}
               /\ (toLowerCase tag = "json" -> t = GraphQLJson))).
Proof.
  rewrite type_fields_by_field_of.
  refine (conj _ (conj _ _)).
  - rewrite reduceM_set_value_iff. split.
    + intros H key rules Hin.
      apply (field_of_value_iff owner d (key, rules));
        [intros name; apply (Hordinary key rules name Hin) | now apply H].
    + intros H [key rules] Hin. apply field_of_value_iff.
      * intros name. apply (Hordinary key rules name Hin).
      * now apply (H key).
  - intros e He. apply reduceM_set_throw_source in He.
    destruct He as ([key rules] & Hin & He).
    apply field_of_throws in He;
      [|intros name; apply (Hordinary key rules name Hin)].
    destruct He as [(-> & Hs & Ht)|(-> & name & Hm & Hc & Ht)].
    + left. split; [reflexivity|]. now exists key, rules.
    + right. split; [reflexivity|]. now exists key, rules, name.
  - intros fields Hfields. split.
    + intros k. rewrite (reduceM_set_keys _ _ k _ _ Hfields). cbn. tauto.
    + intros Hnd key rules tag t Hin Hkey Hscalar Htag Ht.
      destruct (reduceM_set_lookup (field_of owner d) _ key rules
                  Hnd Hin Hkey _ _ Hfields) as (v & Hv & ->).
      split.
      * f_equal. unfold field_of, is_scalar in Hv, Hscalar.
        cbn [snd] in Hv.
        destruct (model rules); [discriminate Hscalar|].
        destruct (collection rules); [discriminate Hscalar|].
        rewrite Htag, Ht in Hv. cbn [bind] in Hv. now injection Hv as <-.
      * intros Hjson. rewrite convertToGraphQlType_Some, Hjson in Ht.
        cbn in Ht. now injection Ht as <-.
Qed.

Lemma type_fields_needs_types_witness :
  (exists fields,
      type_fields User (defaults (after (config_of blog) initial_world))
      = Value fields)
  /\ type_fields User (defaults initial_world)
     = Throw (LibraryError
                "Can only create List of a GraphQLType but got: undefined.").
Proof.
  split.
  - refine (proj2 (proj1
              (type_fields_needs_types
                 User (defaults (after (config_of blog) initial_world)) _))
              _).
    + intros key rules name Hin Hc.
      cbn in Hin. decompose [or] Hin; try contradiction;
        match goal with E : (_, _) = (_, _) |- _ => injection E as <- <- end;
        cbn in Hc; try discriminate Hc; injection Hc as <-; discriminate.
    + intros key rules Hin.
      cbn in Hin. decompose [or] Hin; try contradiction;
        match goal with E : (_, _) = (_, _) |- _ => injection E as <- <- end;
        (split; [discriminate|]); intros name Hm Hc;
        cbn in Hc; try discriminate Hc; injection Hc as <-;
        vm_compute; discriminate.
  - reflexivity.
Defined.

(** The state after a build whose collections are all buildable, and
    the schema that the constructor returns if it returns one. *)
Lemma after_built (config : Config) (w : World) :
  configSchema config = None ->
  (forall c, In c (built_collections config w) ->
             buildable (built_expose config w) c) ->
  (forall schema w',
      getGraphQlSchema config w = (Value schema, w') ->
      schema = {| query_name := "Schema";
                  query_fields := modelQueries (built config (defaults w)) |})
  /\ defaults (after config w) = built config (defaults w).
Proof.
  intros Hvalid Hb. unfold after.
  destruct (getGraphQlSchema_builds config w Hvalid Hb)
    as (_ & _ & Hstate & Hschema).
  split.
  - intros schema w' Hrun. now apply (Hschema schema w').
  - rewrite Hstate. reflexivity.
Qed.

Lemma capitalize_not_proto (c : Collection) :
  singular_name c <> "__proto__" -> capitalize (identity c) <> "__proto__".
Proof.
  intros H E. apply H. unfold singular_name. now rewrite E.
Qed.

Lemma built_types_last (config : Config) (d : Defaults)
      (referenced : Collection) (k : string) :
  last_such (fun c => capitalize (identity c) = k)
            (collection_values (collections (lodash_defaults config d)))
            referenced ->
  k <> "__proto__" ->
  obj_get (types (built config d)) k = Some (output_type_of referenced).
Proof.
  intros (before & after & Hcs & Hc & Hrest) Hk.
  unfold built. cbv zeta. cbn [types set_modelQueries set_types].
  rewrite Hcs.
  now apply (fold_set_last (fun c => capitalize (identity c)) output_type_of).
Qed.

(** X12: the types of the relation fields, after a build that got
    through.  The registry holds, under a capitalised identity, the type
    of the last collection of the build that has it.  So the field of a
    relation attribute is typed by that collection, as a list for a
    [collection] attribute, wherever the referenced collection stands
    among the collections, before or after the one that refers to it. *)
Theorem relation_field_types_after_build
        (config : Config) (w : World)
        (owner referenced : Collection) (key target : string) (rules : Rules)
        (fields : Obj Field)
        (Hvalid : configSchema config = None)
        (Hbuildable : forall c, In c (built_collections config w) ->
                                buildable (built_expose config w) c)
        (Hattribute : In (key, rules) (_attributes owner))
        (Hnames : NoDup (keys (_attributes owner)))
        (Hkey : key <> "__proto__")
        (Htarget : model rules = Some target
                   \/ (model rules = None /\ collection rules = Some target))
        (Hlast : last_such
                   (fun c => capitalize (identity c) = capitalize target)
                   (built_collections config w) referenced)
        (Hproto : capitalize target <> "__proto__")
        (Hfields : type_fields owner (defaults (after config w)) = Value fields) :
  obj_get (types (defaults (after config w))) (capitalize target)
  = Some (output_type_of referenced)
  /\ option_map field_type (obj_get fields key)
     = Some (match model rules with
             | Some _ => output_type_of referenced
             | None => GraphQLList (output_type_of referenced)
             end).
Proof.
  destruct (after_built config w Hvalid Hbuildable) as [_ Hafter].
  assert (Htype : obj_get (types (defaults (after config w))) (capitalize target)
                  = Some (output_type_of referenced)).
  { rewrite Hafter. now apply built_types_last. }
  split; [exact Htype|].
  rewrite type_fields_by_field_of in Hfields.
  destruct (reduceM_set_lookup (field_of owner _) _ key rules
              Hnames Hattribute Hkey _ _ Hfields) as (v & Hv & ->).
  cbn [option_map]. f_equal.
  unfold field_of in Hv. cbn [fst snd] in Hv.
  destruct Htarget as [Hm|[Hm Hc]].
  - rewrite Hm in Hv |- *. injection Hv as <-. cbn [field_type].
    unfold types_get. now rewrite Htype.
  - rewrite Hm in Hv |- *. rewrite Hc in Hv.
    unfold list_of_registered, types_get in Hv. rewrite Htype in Hv.
    destruct (String.eqb (capitalize target) "__proto__");
      cbn [bind new_GraphQLList output_type_of] in Hv;
      now injection Hv as <-.
Qed.

Lemma relation_field_types_after_build_witness :
  fmap (fun fields => option_map field_type (obj_get fields "articles"))
       (type_fields User (defaults (after (config_of blog) initial_world)))
  = Value (Some (GraphQLList (output_type_of Article))).
Proof.
  destruct (type_fields User (defaults (after (config_of blog) initial_world)))
    as [fields|e] eqn:Hfields; [|discriminate Hfields].
  cbn [fmap bind]. f_equal.
  refine (proj2
            (relation_field_types_after_build
               (config_of blog) initial_world
               User Article "articles" "article" (hasMany "article" "author")
               fields eq_refl _ _ _ _ (or_intror (conj eq_refl eq_refl)) _ _
               Hfields)).
  - intros c [<-|[<-|[]]]; [apply User_buildable | apply Article_buildable].
  - cbn. tauto.
  - repeat constructor; cbn; intuition discriminate.
  - discriminate.
  - exists [User], []. split; [reflexivity|]. split; [reflexivity|].
    intros c' [].
  - discriminate.
Defined.

Lemma built_fields_last_registered (config : Config) (d : Defaults)
      (c : Collection) (n : string) :
  last_such (fun c' => n = singular_name c' \/ n = plural_name c')
            (collection_values (collections (lodash_defaults config d))) c ->
  n <> "__proto__" ->
  obj_get (modelQueries (built config d)) n
  = Some (if String.eqb n (singular_name c)
          then singular_field (exposeQueryLanguage (lodash_defaults config d))
                              (types (built config d)) c
          else plural_field (exposeQueryLanguage (lodash_defaults config d))
                            (types (built config d)) c).
Proof.
  intros (before & after & Hcs & Hn & Hrest) Hplain.
  unfold built at 1. cbv zeta. cbn [modelQueries set_modelQueries].
  replace (fold_left register_type
             (collection_values (collections (lodash_defaults config d)))
             (types (lodash_defaults config d)))
    with (types (built config d)) by reflexivity.
  generalize (types (built config d)). intros ts.
  rewrite Hcs.
  set (expose := exposeQueryLanguage (lodash_defaults config d)).
  rewrite <- (query_fields_named expose ts c n Hn Hplain).
  apply (fold_assign_last (query_fields_of expose ts)
           (query_fields_NoDup expose ts) (query_fields_no_proto expose ts)).
  - apply hasOwnProperty_true_iff. unfold hasOwnProperty.
    now rewrite (query_fields_named expose ts c n Hn Hplain).
  - intros c' Hc'. apply obj_get_None_iff.
    apply query_fields_other.
    + intros E. apply (Hrest c' Hc'). now left.
    + intros E. apply (Hrest c' Hc'). now right.
Qed.

(** X13: the root fields after a build whose collections are all
    buildable.  The registry holds, under a name, the field of the last
    collection from which the name derives: it is typed by that
    collection's own output type, as a list under the plural name, and
    resolving it, directly or from a relation resolver, makes that
    collection's [findOne] or [find] query with the criteria as they
    are.  A schema that the call returns has this field under the
    name. *)
Theorem root_fields_after_build
        (config : Config) (w : World) (c : Collection) (n : string)
        (Hvalid : configSchema config = None)
        (Hbuildable : forall c', In c' (built_collections config w) ->
                                 buildable (built_expose config w) c')
        (Hlast : last_such
                   (fun c' => n = singular_name c' \/ n = plural_name c')
                   (built_collections config w) c)
        (Hname : singular_name c <> "__proto__") :
  exists field,
    obj_get (modelQueries (defaults (after config w))) n = Some field
    /\ queryField_type field
       = (if String.eqb n (singular_name c) then output_type_of c
          else GraphQLList (output_type_of c))
    /\ (forall object criteria,
          resolve field object criteria
          = (if String.eqb n (singular_name c) then findOne c criteria
             else find c criteria)
          /\ modelQueries_resolve (defaults (after config w)) n object criteria
             = Value (resolve field object criteria))
    /\ (forall schema w',
          getGraphQlSchema config w = (Value schema, w') ->
          obj_get (query_fields schema) n = Some field).
Proof.
  destruct (after_built config w Hvalid Hbuildable) as [Hschema Hafter].
  assert (Hplain : n <> "__proto__").
  { destruct Hlast as (_ & _ & _ & [->| ->] & _);
      [assumption | apply plural_name_not_proto]. }
  pose proof (built_fields_last_registered config (defaults w) c n Hlast Hplain)
    as Hfield.
  assert (Htype : obj_get (types (built config (defaults w)))
                          (capitalize (identity c))
                  = Some (output_type_of c)).
  { apply built_types_last; [|now apply capitalize_not_proto].
    destruct Hlast as (before & after & Hcs & Hn & Hrest).
    exists before, after. split; [exact Hcs|]. split; [reflexivity|].
    intros c' Hc' E. apply (Hrest c' Hc').
    unfold singular_name, plural_name. rewrite E. exact Hn. }
  eexists. split; [rewrite Hafter; exact Hfield|].
  split; [|split].
  - destruct (String.eqb n (singular_name c));
      cbn [queryField_type singular_field plural_field]; now rewrite Htype.
  - intros object criteria. split.
    + now destruct (String.eqb n (singular_name c)).
    + unfold modelQueries_resolve. rewrite Hafter, Hfield. reflexivity.
  - intros schema w' Hrun. rewrite (Hschema schema w' Hrun).
    cbn [query_fields]. exact Hfield.
Qed.

Lemma root_fields_after_build_witness :
  modelQueries_resolve (defaults (after (config_of blog) initial_world))
                       "articles" VUndefined [("title", VStr "On maps")]
  = Value (find Article [("title", VStr "On maps")]).
Proof.
  destruct (root_fields_after_build
              (config_of blog) initial_world Article "articles" eq_refl)
    as (field & _ & _ & H & _).
  - intros c [<-|[<-|[]]]; [apply User_buildable | apply Article_buildable].
  - exists [User], []. split; [reflexivity|]. split; [now right|].
    intros c' [].
  - discriminate.
  - destruct (H VUndefined [("title", VStr "On maps")]) as [H1 H2].
    rewrite H2, H1. reflexivity.
Defined.

Lemma get_of_defined (value : JsVal) (k : string) :
  value <> VUndefined -> value <> VNull -> exists v, get value k = Value v.
Proof. destruct value; cbn; intros H1 H2; eauto; congruence. Qed.

Lemma modelQueries_resolve_value (d : Defaults) (n : string)
      (object : JsVal) (criteria : Obj JsVal) :
  isValue (modelQueries_resolve d n object criteria)
  = match obj_get (modelQueries d) n with Some _ => true | None => false end.
Proof. unfold modelQueries_resolve. now destruct (obj_get (modelQueries d) n). Qed.

(** X14: when the resolver of a [model] attribute gets through.  On a
    parent record it returns a query exactly when the collection named
    by [model] is a key of the configured collections, the record has a
    value under the attribute's name that is neither [undefined] nor
    [null], and the lower-case [model] name is a registered query field.
    Without the collection it throws before it looks at the value;
    without the value it throws a TypeError on reading the primary key
    off it, whatever the criteria. *)
Theorem resolve_model_missing_reference_throws
        (d : Defaults) (key model : string) (props criteria : Obj JsVal) :
  (isValue (resolve_model key model d (VObj props) criteria) = true
   <-> exists referenced value,
         collections_get (collections d) model = Some referenced
         /\ obj_get props key = Some value
         /\ value <> VUndefined
         /\ value <> VNull
         /\ obj_get (modelQueries d) (toLowerCase model) <> None)
  /\ (collections_get (collections d) model = None ->
      resolve_model key model d (VObj props) criteria
      = Throw (TypeError "Cannot read property 'primaryKey' of undefined"))
  /\ (forall referenced,
        collections_get (collections d) model = Some referenced ->
        (obj_get props key = None \/ obj_get props key = Some VUndefined ->
         resolve_model key model d (VObj props) criteria
         = Throw (TypeError ("Cannot read property '"
                             ++ collection_primaryKey referenced
                             ++ "' of undefined")))
        /\ (obj_get props key = Some VNull ->
            resolve_model key model d (VObj props) criteria
            = Throw (TypeError ("Cannot read property '"
                                ++ collection_primaryKey referenced
                                ++ "' of null")))).
Proof.
  refine (conj _ (conj _ _)).
  - unfold resolve_model. cbn [get bind].
    destruct (collections_get (collections d) model) as [referenced|];
      [|split; [discriminate | intros (? & ? & ? & _); discriminate]].
    destruct (obj_get props key) as [value|] eqn:Evalue;
      [|split; [discriminate | intros (? & ? & _ & ? & _); discriminate]].
    split.
    + intros H. exists referenced, value.
      split; [reflexivity|]. split; [reflexivity|].
      destruct value; try discriminate H.
      all: (split; [discriminate|]; split; [discriminate|]).
      all: intros Hnone; revert H; cbn [get bind];
        repeat match goal with
               | |- context [if ?b then _ else _] => destruct b
               end;
        cbn [bind]; rewrite ?Evalue; cbn [bind];
        rewrite modelQueries_resolve_value, Hnone; discriminate.
    + intros (referenced' & value' & [= <-] & [= <-] & H1 & H2 & Hfield).
      destruct (get_of_defined value (collection_primaryKey referenced) H1 H2)
        as [inner ->].
      cbn [bind].
      destruct (negb (truthy inner)); cbn [bind].
      * destruct (negb (truthy _)); cbn [bind]; rewrite ?Evalue; cbn [bind];
          rewrite modelQueries_resolve_value;
          now destruct (obj_get (modelQueries d) (toLowerCase model)).
      * rewrite modelQueries_resolve_value.
        now destruct (obj_get (modelQueries d) (toLowerCase model)).
  - intros H. unfold resolve_model. cbn [get bind]. now rewrite H.
  - intros referenced H. unfold resolve_model. cbn [get bind]. rewrite H.
    split.
    + intros [E|E]; rewrite E; reflexivity.
    + intros E. rewrite E. reflexivity.
Qed.

Lemma In_query_fields (expose : bool) (ts : Obj OutputType)
      (c : Collection) (n : string) :
  In n (keys (query_fields_of expose ts c))
  <-> n <> "__proto__" /\ (n = singular_name c \/ n = plural_name c).
Proof.
  split.
  - intros Hin. split.
    + intros ->. now apply (query_fields_no_proto expose ts c).
    + destruct (string_dec n (singular_name c)) as [E|N1]; [now left|].
      destruct (string_dec n (plural_name c)) as [E|N2]; [now right|].
      apply obj_get_None_iff in Hin; [destruct Hin|].
      now apply query_fields_other.
  - intros [Hplain Hn]. apply hasOwnProperty_true_iff. unfold hasOwnProperty.
    now rewrite (query_fields_named expose ts c n Hn Hplain).
Qed.

(** X15: the names of the root fields after a build whose collections
    are all buildable.  The registry then holds the names that it held
    before the call together with, for every collection of the
    configuration, its lower-case identity and the same with an [s]; a
    name [__proto__] is never among them.  The root fields of a schema
    that the call returns are the registry's, name for name. *)
Theorem root_field_names_after_build
        (config : Config) (w : World)
        (Hvalid : configSchema config = None)
        (Hbuildable : forall c, In c (built_collections config w) ->
                                buildable (built_expose config w) c) :
  (forall n,
      In n (keys (modelQueries (defaults (after config w))))
      <-> In n (keys (modelQueries (defaults w)))
          \/ exists c,
              In c (built_collections config w)
              /\ n <> "__proto__"
              /\ (n = toLowerCase (identity c)
                  \/ n = (toLowerCase (identity c) ++ "s")%string))
  /\ (forall schema w',
        getGraphQlSchema config w = (Value schema, w') ->
        field_names schema = keys (modelQueries (defaults (after config w)))).
Proof.
  destruct (after_built config w Hvalid Hbuildable) as [Hschema Hafter].
  split;
    [|intros schema w' Hrun; rewrite (Hschema schema w' Hrun), Hafter;
      reflexivity].
  intros n. rewrite Hafter.
  unfold built. cbv zeta. cbn [modelQueries set_modelQueries].
  destruct (configSchema_None config Hvalid) as (_ & Hmq & _).
  assert (Hregistry : modelQueries (lodash_defaults config (defaults w))
                      = modelQueries (defaults w)).
  { unfold lodash_defaults. cbn [modelQueries]. now rewrite Hmq. }
  rewrite Hregistry.
  set (expose := exposeQueryLanguage (lodash_defaults config (defaults w))).
  set (ts := fold_left register_type _ _).
  rewrite (fold_assign_keys (query_fields_of expose ts)
             (query_fields_NoDup expose ts) (query_fields_no_proto expose ts)).
  unfold built_collections.
  assert (Hnames : forall c,
             (n = singular_name c \/ n = plural_name c)
             <-> (n = toLowerCase (identity c)
                  \/ n = (toLowerCase (identity c) ++ "s")%string)).
  { intros c. unfold singular_name, plural_name.
    now rewrite toLowerCase_capitalize. }
  split.
  - intros [H|(c & Hc & Hn)]; [now left|]. right. exists c.
    apply In_query_fields in Hn. rewrite <- Hnames. tauto.
  - intros [H|(c & Hc & Hplain & Hn)]; [now left|]. right. exists c.
    split; [assumption|]. apply In_query_fields. rewrite Hnames. tauto.
Qed.

Lemma root_field_names_after_build_witness :
  option_map field_names (schema_of (config_of blog) initial_world)
  = Some ["user"; "users"; "article"; "articles"]
  /\ In "articles"
        (keys (modelQueries (defaults (after (config_of blog) initial_world)))).
Proof.
  split; [reflexivity|].
  refine (proj2 (proj1 (root_field_names_after_build
                          (config_of blog) initial_world eq_refl _)
                       "articles") _).
  - intros c [<-|[<-|[]]]; [apply User_buildable | apply Article_buildable].
  - right. exists Article.
    split; [cbn; tauto|]. split; [discriminate | now right].
Defined.

(** X16: the resolver of a [model] attribute, after a build that got
    through.  The primary key is that of the collection filed under the
    [model] name in the configuration; the query goes to the last
    collection whose lower-case identity is the lower-case [model] name.
    With a record under the attribute that has a truthy primary key,
    the resolver asks that collection for the one record with this key,
    added to the criteria it was given. *)
Theorem resolve_model_after_build
        (config : Config) (w : World) (key model : string)
        (keyed queried : Collection)
        (object value identifier : JsVal) (criteria : Obj JsVal)
        (Hvalid : configSchema config = None)
        (Hbuildable : forall c, In c (built_collections config w) ->
                                buildable (built_expose config w) c)
        (Hkeyed : collections_get
                    (collections (lodash_defaults config (defaults w))) model
                  = Some keyed)
        (Hlast : last_such
                   (fun c => toLowerCase model = singular_name c
                             \/ toLowerCase model = plural_name c)
                   (built_collections config w) queried)
        (Hsingular : toLowerCase (identity queried) = toLowerCase model)
        (Hname : toLowerCase model <> "__proto__")
        (Hvalue : get object key = Value value)
        (Hidentifier : get value (collection_primaryKey keyed) = Value identifier)
        (Htruthy : truthy identifier = true) :
  resolve_model key model (defaults (after config w)) object criteria
  = Value (findOne queried
                   (obj_set criteria (collection_primaryKey keyed) identifier)).
Proof.
  destruct (after_built config w Hvalid Hbuildable) as [_ Hafter].
  pose proof (built_fields_last_registered config (defaults w) queried
                (toLowerCase model) Hlast Hname) as Hfield.
  assert (Hs : singular_name queried = toLowerCase model).
  { unfold singular_name. now rewrite toLowerCase_capitalize. }
  rewrite Hs, String.eqb_refl in Hfield.
  unfold resolve_model. rewrite Hvalue. cbn [bind].
  rewrite Hafter.
  replace (collections (built config (defaults w)))
    with (collections (lodash_defaults config (defaults w))) by reflexivity.
  rewrite Hkeyed, Hidentifier. cbn [bind]. rewrite Htruthy. cbn [negb bind].
  unfold modelQueries_resolve. rewrite Hfield. reflexivity.
Qed.

Lemma resolve_model_after_build_witness :
  resolve_model "author" "user"
    (defaults (after (config_of blog) initial_world))
    (VObj [("id", VNum 10%float); ("title", VStr "On maps");
           ("author", VObj [("id", VNum 3%float)])])
    []
  = Value (findOne User [("id", VNum 3%float)]).
Proof.
  refine (resolve_model_after_build
            (config_of blog) initial_world "author" "user" User User
            (VObj [("id", VNum 10%float); ("title", VStr "On maps");
                   ("author", VObj [("id", VNum 3%float)])])
            (VObj [("id", VNum 3%float)]) (VNum 3%float) []
            eq_refl _ eq_refl _ eq_refl _ eq_refl eq_refl eq_refl).
  - intros c [<-|[<-|[]]]; [apply User_buildable | apply Article_buildable].
  - exists [], [Article]. split; [reflexivity|]. split; [now left|].
    intros c' [<-|[]]. vm_compute. intuition discriminate.
  - discriminate.
Defined.

(** X17: the resolver of a [collection] attribute, after a build that
    got through.  It asks the last collection whose lower-case identity
    is the lower-case [collection] name for the records that match the
    criteria it was given, extended under the lower-case [via] name with
    the parent's primary-key value and wrapped in [where]. *)
Theorem resolve_collection_after_build
        (config : Config) (w : World) (owner queried : Collection)
        (rules : Rules) (name f : string)
        (parent parentKey : JsVal) (criteria : Obj JsVal)
        (Hvalid : configSchema config = None)
        (Hbuildable : forall c, In c (built_collections config w) ->
                                buildable (built_expose config w) c)
        (Hcollection : collection rules = Some name)
        (Hvia : via rules = Some f)
        (Hlast : last_such
                   (fun c => (toLowerCase name ++ "s")%string = singular_name c
                             \/ (toLowerCase name ++ "s")%string = plural_name c)
                   (built_collections config w) queried)
        (Hplural : toLowerCase (identity queried) = toLowerCase name)
        (Hparent : get parent (collection_primaryKey owner) = Value parentKey) :
  resolve_collection owner rules (defaults (after config w)) parent criteria
  = Value (find queried
                [("where", VObj (obj_set criteria (toLowerCase f) parentKey))]).
Proof.
  destruct (after_built config w Hvalid Hbuildable) as [_ Hafter].
  assert (Hp : plural_name queried = (toLowerCase name ++ "s")%string).
  { unfold plural_name. now rewrite toLowerCase_capitalize, Hplural. }
  assert (Hplain : (toLowerCase name ++ "s")%string <> "__proto__")
    by (rewrite <- Hp; apply plural_name_not_proto).
  pose proof (built_fields_last_registered config (defaults w) queried
                _ Hlast Hplain) as Hfield.
  assert (E : String.eqb (toLowerCase name ++ "s") (singular_name queried)
              = false).
  { apply String.eqb_neq. rewrite <- Hp. intros E.
    now apply (singular_name_not_plural queried). }
  rewrite E in Hfield.
  unfold resolve_collection. rewrite Hvia, Hparent. cbn [bind].
  rewrite Hcollection. unfold modelQueries_resolve.
  rewrite Hafter, Hfield. reflexivity.
Qed.

Lemma resolve_collection_after_build_witness :
  resolve_collection User (hasMany "article" "author")
    (defaults (after (config_of blog) initial_world))
    (VObj [("id", VNum 3%float)]) []
  = Value (find Article [("where", VObj [("author", VNum 3%float)])]).
Proof.
  refine (resolve_collection_after_build
            (config_of blog) initial_world User Article
            (hasMany "article" "author") "article" "author"
            (VObj [("id", VNum 3%float)]) (VNum 3%float) []
            eq_refl _ eq_refl eq_refl _ eq_refl eq_refl).
  - intros c [<-|[<-|[]]]; [apply User_buildable | apply Article_buildable].
  - exists [User], []. split; [reflexivity|]. split; [now right|].
    intros c' [].
Defined.

End OutputFields.

(* ================================================================= *)
(** ** The adapter: a build that fails *)

Section FailedBuild.

Import MoreExamples.

Lemma forEachS_app {A S} (f : S -> A -> M S) (l1 l2 : list A) :
  forall acc w,
    forEachS f (l1 ++ l2) acc w
    = match forEachS f l1 acc w with
      | (Value acc', w') => forEachS f l2 acc' w'
      | (Throw e, w') => (Throw e, w')
      end.
Proof.
  induction l1 as [|x l1 IH]; intros acc w; cbn [app forEachS].
  - reflexivity.
  - unfold bindM. destruct (f acc x w) as [[acc'|e] w']; [apply IH | reflexivity].
Qed.

Lemma forEach_app {A} (f : A -> M unit) (l1 l2 : list A) :
  forall w,
    forEach f (l1 ++ l2) w
    = match forEach f l1 w with
      | (Value _, w') => forEach f l2 w'
      | (Throw e, w') => (Throw e, w')
      end.
Proof.
  induction l1 as [|x l1 IH]; intros w; cbn [app forEach].
  - reflexivity.
  - unfold bindM. destruct (f x w) as [[[]|e] w']; [apply IH | reflexivity].
Qed.

Lemma plain_names_prefix (pre post : list string) :
  plain_names (pre ++ post) -> plain_names pre.
Proof.
  intros (Hnd & Hproto & Hhop & Hidx). repeat split.
  - now apply NoDup_app_remove_r in Hnd.
  - intros I. apply Hproto, in_app_iff. now left.
  - intros I. apply Hhop, in_app_iff. now left.
  - unfold insertion_ordered in *. now apply Forall_app in Hidx.
Qed.

(** The round of the loop that meets an argument without a type. *)
Lemma classify_attribute_untyped (ci : string) (expose : bool)
      (one many : Obj Arg) (k : string) (rules : Rules) (w : World) :
  ~ In "hasOwnProperty" (keys many) ->
  ~ In k (keys many) ->
  collection rules = None ->
  type rules = None ->
  classify_attribute ci expose (one, many) (k, rules) w
  = (Throw (TypeError "Cannot read property 'toLowerCase' of undefined"), w).
Proof.
  intros Hown Hk Hc Ht.
  unfold classify_attribute, findManyArgs_hasOwnProperty, bindM, lift.
  cbv zeta. cbn [fst snd].
  apply hasOwnProperty_false_iff in Hown, Hk. rewrite Hown, Hk.
  cbn [negb]. now rewrite Hc, Ht.
Qed.

Lemma is_argument_spec (expose : bool) (k : string) (rules : Rules) :
  is_argument expose (k, rules) = true ->
  collides expose k = false /\ collection rules = None.
Proof.
  unfold is_argument. cbn [fst snd]. intros H.
  apply andb_true_iff in H. destruct H as [H1 H2].
  split; [now apply negb_true_iff in H1|].
  now destruct (collection rules).
Qed.

Lemma classify_attributes_fail (ci : string) (expose : bool)
      (pre post : Obj Rules) (k : string) (rules : Rules) (w : World) :
  plain_names (keys (pre ++ (k, rules) :: post)) ->
  arguments_typed expose pre ->
  is_argument expose (k, rules) = true ->
  type rules = None ->
  forEachS (classify_attribute ci expose) (pre ++ (k, rules) :: post)
           ([], builtin_findManyArgs expose) w
  = (Throw (TypeError "Cannot read property 'toLowerCase' of undefined"),
     logged (if expose
             then map (collision_warning ci)
                      (filter (collides expose) (keys pre))
             else []) w).
Proof.
  intros Hplain Htyped Harg Ht.
  destruct (is_argument_spec _ _ _ Harg) as [Hcollides Hc].
  assert (Hpre : plain_names (keys pre)).
  { unfold keys in *. rewrite map_app in Hplain.
    now apply plain_names_prefix in Hplain. }
  destruct Hplain as (Hnd & Hproto & Hhop & _).
  unfold keys in Hnd, Hhop. rewrite map_app in Hnd, Hhop. cbn [map fst] in Hnd, Hhop.
  rewrite forEachS_app.
  rewrite (classify_attributes_loop ci expose pre [] _ w Hpre Htyped).
  - cbn [forEachS]. unfold bindM.
    rewrite classify_attribute_untyped; try assumption; try reflexivity.
    + unfold keys. rewrite map_app, in_app_iff. intros [I|I].
      * now apply builtin_has_no_hasOwnProperty in I.
      * apply Hhop, in_app_iff. left.
        rewrite map_map in I. apply in_map_iff in I.
        destruct I as (a & Ea & Ia). apply filter_In in Ia.
        apply in_map_iff. exists a. split; [exact Ea | tauto].
    + unfold keys. rewrite map_app, in_app_iff. intros [I|I].
      * apply collides_iff in I. congruence.
      * apply NoDup_remove_2 in Hnd. apply Hnd, in_app_iff. left.
        rewrite map_map in I. apply in_map_iff in I.
        destruct I as (a & Ea & Ia). apply filter_In in Ia.
        apply in_map_iff. exists a. split; [exact Ea | tauto].
  - apply builtin_has_no_hasOwnProperty.
  - intros k' _ [].
  - intros k' _. symmetry. apply collides_iff.
Qed.

Lemma buildQueryFields_fails (c : Collection) (w : World)
      (pre post : Obj Rules) (k : string) (rules : Rules) :
  _attributes c = pre ++ (k, rules) :: post ->
  plain_names (keys (_attributes c)) ->
  arguments_typed (exposeQueryLanguage (defaults w)) pre ->
  is_argument (exposeQueryLanguage (defaults w)) (k, rules) = true ->
  type rules = None ->
  buildQueryFields c w
  = (Throw (TypeError "Cannot read property 'toLowerCase' of undefined"),
     logged (if exposeQueryLanguage (defaults w)
             then map (collision_warning (capitalize (identity c)))
                      (filter (collides (exposeQueryLanguage (defaults w)))
                              (keys pre))
             else []) w).
Proof.
  intros Hattrs Hplain Htyped Harg Ht.
  unfold buildQueryFields, bindM, read. cbv zeta.
  rewrite Hattrs in Hplain |- *.
  now rewrite (classify_attributes_fail _ _ pre post k rules w Hplain Htyped Harg Ht).
Qed.

Lemma forEach_buildQueryFields_fails (before after : list Collection)
      (c : Collection) (w : World)
      (pre post : Obj Rules) (k : string) (rules : Rules) :
  (forall c', In c' before -> buildable (exposeQueryLanguage (defaults w)) c') ->
  (forall c', In c' before -> list_made (defaults w) c') ->
  _attributes c = pre ++ (k, rules) :: post ->
  plain_names (keys (_attributes c)) ->
  arguments_typed (exposeQueryLanguage (defaults w)) pre ->
  is_argument (exposeQueryLanguage (defaults w)) (k, rules) = true ->
  type rules = None ->
  forEach buildQueryFields (before ++ c :: after) w
  = (Throw (TypeError "Cannot read property 'toLowerCase' of undefined"),
     logged
       (flat_map (warnings_of (exposeQueryLanguage (defaults w))) before
        ++ (if exposeQueryLanguage (defaults w)
            then map (collision_warning (capitalize (identity c)))
                     (filter (collides (exposeQueryLanguage (defaults w)))
                             (keys pre))
            else []))
       (updated (fun d =>
                   set_modelQueries
                     (fold_left
                        (register_queries (exposeQueryLanguage d) (types d))
                        before (modelQueries d)) d) w)).
Proof.
  intros Hbefore Hmade Hattrs Hplain Htyped Harg Ht.
  rewrite forEach_app, (forEach_buildQueryFields before w Hbefore Hmade).
  cbn [forEach]. unfold bindM.
  rewrite (buildQueryFields_fails c _ pre post k rules Hattrs Hplain);
    [|exact Htyped | exact Harg | exact Ht].
  now rewrite logged_logged.
Qed.

(** X18: a build that meets an argument without a type.  When the
    collections before [c] are buildable and [c] has an attribute that
    would become an argument but has no [type], after attributes that
    have one, [getGraphQlSchema] throws a TypeError and returns no
    schema.  The call is not undone: the configuration has replaced the
    defaults, the types of all the collections are registered, and so
    are the query fields of the collections before [c]; the console has
    the warnings given until then. *)
Theorem build_fails_on_untyped_argument
        (config : Config) (w : World)
        (before after : list Collection) (c : Collection)
        (pre post : Obj Rules) (key : string) (rules : Rules)
        (Hvalid : configSchema config = None)
        (Hcs : built_collections config w = before ++ c :: after)
        (Hbefore : forall c', In c' before ->
                              buildable (built_expose config w) c')
        (Hattrs : _attributes c = pre ++ (key, rules) :: post)
        (Hplain : plain_names (keys (_attributes c)))
        (Hpre : arguments_typed (built_expose config w) pre)
        (Hargument : is_argument (built_expose config w) (key, rules) = true)
        (Huntyped : type rules = None) :
  let expose := built_expose config w in
  let d := lodash_defaults config (defaults w) in
  let ts := fold_left register_type (before ++ c :: after) (types d) in
  getGraphQlSchema config w
  = (Throw (TypeError "Cannot read property 'toLowerCase' of undefined"),
     {| defaults :=
          set_modelQueries
            (fold_left (register_queries expose ts) before (modelQueries d))
            (set_types ts d);
        console :=
          console w
          ++ flat_map (warnings_of expose) before
          ++ (if expose
              then map (collision_warning (capitalize (identity c)))
                       (filter (collides expose) (keys pre))
              else []) |}).
Proof.
  intros expose d ts.
  unfold getGraphQlSchema. rewrite Hvalid.
  unfold bindM at 1, read at 1. unfold bindM at 1, write at 1.
  unfold getQueries. unfold bindM at 1. unfold bindM at 1, read at 1.
  cbn [defaults].
  unfold bindM at 1. rewrite forEach_buildType.
  unfold bindM at 1, read at 1. unfold bindM at 1.
  unfold built_collections, built_expose in *.
  cbn [updated defaults set_types collections].
  rewrite Hcs.
  rewrite (forEach_buildQueryFields_fails before after c _ pre post key rules);
    try assumption; [reflexivity|].
  intros c' Hc'. cbn [defaults]. rewrite <- Hcs.
  apply registered_after_first_pass. rewrite Hcs.
  apply in_or_app. now left.
Qed.

Lemma build_fails_on_untyped_argument_witness :
  fst (getGraphQlSchema (config_with notebook true) initial_world)
  = Throw (TypeError "Cannot read property 'toLowerCase' of undefined")
  /\ keys (types (defaults (after (config_with notebook true) initial_world)))
     = ["User"; "Note"; "Article"]
  /\ keys (modelQueries
             (defaults (after (config_with notebook true) initial_world)))
     = ["user"; "users"]
  /\ console (after (config_with notebook true) initial_world)
     = ["Field 'note.sort' will not be individually queryable. Use 'where' instead"].
Proof.
  unfold after.
  rewrite (build_fails_on_untyped_argument
             (config_with notebook true) initial_world
             [User] [Article] Note
             [("id", key_of "integer"); ("sort", scalar "string")]
             [("author", belongsTo "user" "integer")]
             "body"
             {| model := None; collection := None; via := None; type := None;
                required := false; primaryKey := None; unique := None |}
             eq_refl eq_refl).
  - repeat split; reflexivity.
  - intros c' [<-|[]]. prove_buildable.
  - reflexivity.
  - repeat split; try (repeat constructor; cbn; intuition discriminate);
      cbn; intuition discriminate.
  - intros a [<-|[<-|[]]] _; reflexivity.
  - reflexivity.
  - reflexivity.
Defined.

(** X19: an attribute named [hasOwnProperty].  When such an attribute
    is filed among the plural field's arguments (it is no [collection],
    has a type and is neither primary key nor unique) and another
    attribute follows, the test of line 183 finds the argument in place
    of the method: [buildQueryFields] throws a TypeError at the next
    attribute and registers nothing. *)
Theorem attribute_named_hasOwnProperty_breaks_loop
        (c : Collection) (w : World) (pre post : Obj Rules)
        (rules : Rules) (next : string * Rules) (tag : string)
        (Hattrs : _attributes c
                  = pre ++ ("hasOwnProperty", rules) :: next :: post)
        (Hplain : plain_names (keys pre))
        (Hpre : arguments_typed (exposeQueryLanguage (defaults w)) pre)
        (Hcollection : collection rules = None)
        (Htype : type rules = Some tag)
        (Hfilterable : identifying rules = false) :
  buildQueryFields c w
  = (Throw (TypeError "findManyArgs.hasOwnProperty is not a function"),
     logged (if exposeQueryLanguage (defaults w)
             then map (collision_warning (capitalize (identity c)))
                      (filter (collides (exposeQueryLanguage (defaults w)))
                              (keys pre))
             else []) w).
Proof.
  set (expose := exposeQueryLanguage (defaults w)) in *.
  assert (Hcollides : collides expose "hasOwnProperty" = false)
    by now destruct expose.
  assert (Harg : is_argument expose ("hasOwnProperty", rules) = true).
  { unfold is_argument. cbn [fst snd]. now rewrite Hcollides, Hcollection. }
  assert (Hfresh : forall (p : string * Rules -> bool),
             ~ In "hasOwnProperty" (keys (map arg_of (filter p pre)))).
  { intros p I. destruct Hplain as (_ & _ & Hhop & _). apply Hhop.
    unfold keys in *. rewrite map_map in I. apply in_map_iff in I.
    destruct I as (a & Ea & Ia). apply filter_In in Ia.
    apply in_map_iff. exists a. split; [exact Ea | tauto]. }
  unfold buildQueryFields, bindM, read. cbv zeta. fold expose.
  rewrite Hattrs, forEachS_app.
  rewrite (classify_attributes_loop _ expose pre [] _ w Hplain Hpre);
    [|apply builtin_has_no_hasOwnProperty
     |intros k _ []
     |intros k _; symmetry; apply collides_iff].
  cbn [forEachS app]. unfold bindM.
  rewrite classify_attribute_step.
  - rewrite Harg, Hfilterable, Hcollides. cbn [andb negb].
    rewrite andb_false_r, logged_nil.
    unfold classify_attribute at 1, findManyArgs_hasOwnProperty, bindM, lift.
    cbv zeta. cbn [fst snd].
    replace (hasOwnProperty _ "hasOwnProperty") with true; [reflexivity|].
    symmetry. apply hasOwnProperty_true_iff.
    unfold keys. rewrite !map_app, !in_app_iff. right. now left.
  - unfold keys. rewrite map_app, in_app_iff. intros [I|I].
    + now apply builtin_has_no_hasOwnProperty in I.
    + now apply (Hfresh _) in I.
  - rewrite Hcollides. split; [|discriminate].
    unfold keys. rewrite map_app, in_app_iff. intros [I|I].
    + now apply builtin_has_no_hasOwnProperty in I.
    + now apply (Hfresh _) in I.
  - cbn [app]. apply Hfresh.
  - discriminate.
  - intros _. unfold has_type. now rewrite Htype.
Qed.

Lemma attribute_named_hasOwnProperty_breaks_loop_witness :
  buildQueryFields Thing initial_world
  = (Throw (TypeError "findManyArgs.hasOwnProperty is not a function"),
     initial_world).
Proof.
  rewrite (attribute_named_hasOwnProperty_breaks_loop
             Thing initial_world [("id", key_of "integer")] []
             (scalar "boolean") ("label", scalar "string") "boolean"
             eq_refl).
  - reflexivity.
  - repeat split; try (repeat constructor; cbn; intuition discriminate);
      cbn; intuition discriminate.
  - intros a [<-|[]] _; reflexivity.
  - reflexivity.
  - reflexivity.
  - reflexivity.
Defined.

End FailedBuild.

(* ================================================================= *)
(** ** The [JSON] scalar: repeated fields, and the literals it parses *)

Section LiteralFacts.
Context {scalars : Scalars}.

Import Literals.

Section LastWins.
Context {A V : Type} (g : string * A -> Outcome V).

Let step (o : Obj V) (entry : string * A) : Outcome (Obj V) :=
  v <- g entry ;; Value (obj_set o (fst entry) v).

(** The property under a name is what the loop body made of the last
    entry of that name. *)
Lemma reduceM_set_last (before after : list (string * A)) (k : string) (a : A) :
  ~ In k (keys after) ->
  k <> "__proto__" ->
  forall acc res,
    reduceM step (before ++ (k, a) :: after) acc = Value res ->
    exists v, g (k, a) = Value v /\ obj_get res k = Some v.
Proof.
  intros Hafter Hk.
  induction before as [|y before IH]; intros acc res; cbn [app reduceM].
  - unfold step at 1. destruct (g (k, a)) as [v|e]; [|discriminate].
    cbn [bind fst]. intros H. exists v. split; [reflexivity|].
    rewrite (reduceM_set_untouched g after k Hafter _ _ H).
    now apply obj_get_set_same.
  - unfold step at 1. destruct (g y) as [v|e]; [|discriminate].
    cbn [bind]. apply IH.
Qed.

Lemma reduceM_set_NoDup (entries : list (string * A)) :
  forall acc res,
    NoDup (keys acc) ->
    reduceM step entries acc = Value res -> NoDup (keys res).
Proof.
  induction entries as [|y entries IH]; intros acc res Hnd; cbn [reduceM].
  - now intros [= <-].
  - unfold step at 1. destruct (g y) as [v|e]; [|discriminate].
    cbn [bind]. apply IH. now apply NoDup_keys_set.
Qed.

Lemma isValue_reduceM_set (entries : list (string * A)) :
  forall acc,
    isValue (reduceM step entries acc)
    = forallb (fun entry => isValue (g entry)) entries.
Proof.
  induction entries as [|y entries IH]; intros acc; cbn [reduceM forallb].
  - reflexivity.
  - unfold step at 1. destruct (g y) as [v|e]; cbn [bind isValue andb];
      [apply IH | reflexivity].
Qed.

End LastWins.

Lemma isValue_mapM {A B} (f : A -> Outcome B) (l : list A) :
  isValue (mapM f l) = forallb (fun x => isValue (f x)) l.
Proof.
  induction l as [|x l IH]; cbn [mapM forallb]; [reflexivity|].
  destruct (f x) as [y|e]; cbn [bind isValue andb]; [|reflexivity].
  rewrite <- IH. now destruct (mapM f l).
Qed.

Lemma isValue_fmap {A B} (f : A -> B) (m : Outcome A) :
  isValue (fmap f m) = isValue m.
Proof. now destruct m. Qed.

Lemma forallb_ext_in {A} (p q : A -> bool) (l : list A) :
  (forall x, In x l -> p x = q x) -> forallb p l = forallb q l.
Proof.
  induction l as [|x l IH]; cbn [forallb]; intros H; [reflexivity|].
  rewrite (H x) by now left. rewrite IH; [reflexivity|].
  intros y Hy. apply H. now right.
Qed.

(** X20: an object literal with a field name written more than once.
    The value it parses to has one property under the name, holding the
    value of the last field of that name; no property is ever named
    [__proto__]; and the properties are exactly the other field names. *)
Theorem parseLiteral_object_last_field_wins
        (before after : list (string * Node)) (name : string) (node : Node)
        (result : JsVal)
        (Hlast : ~ In name (map fst after))
        (Hname : name <> "__proto__")
        (Hresult : GraphQLJson_parseLiteral
                     (ObjectValue (before ++ (name, node) :: after))
                   = Value result) :
  exists props v,
    result = VObj props
    /\ GraphQLJson_parseLiteral node = Value v
    /\ obj_get props name = Some v
    /\ NoDup (keys props)
    /\ forall k, In k (keys props)
                 <-> In k (map fst (before ++ (name, node) :: after))
                     /\ k <> "__proto__".
Proof.
  rewrite parseLiteral_ObjectValue in Hresult.
  match type of Hresult with
  | fmap VObj ?m = _ => destruct m as [props|e] eqn:E
  end; [|discriminate Hresult].
  cbn [fmap bind] in Hresult. injection Hresult as <-.
  destruct (reduceM_set_last
              (fun field => GraphQLJson_parseLiteral (snd field))
              before after name node Hlast Hname _ _ E) as (v & Hv & Hget).
  exists props, v. repeat split; try assumption.
  - refine (reduceM_set_NoDup
              (fun field => GraphQLJson_parseLiteral (snd field))
              (before ++ (name, node) :: after) [] props _ E).
    constructor.
  - apply (reduceM_set_keys
             (fun field => GraphQLJson_parseLiteral (snd field))
             _ k _ _ E) in H. cbn in H. tauto.
  - apply (reduceM_set_keys
             (fun field => GraphQLJson_parseLiteral (snd field))
             _ k _ _ E) in H. cbn in H. tauto.
  - intros [H1 H2].
    apply (reduceM_set_keys
             (fun field => GraphQLJson_parseLiteral (snd field))
             _ k _ _ E). right. now split.
Qed.

Lemma parseable_within (n : nat) :
  forall tree,
    depth tree < n ->
    well_kinded tree = true ->
    isValue (GraphQLJson_parseLiteral tree) = parseable tree.
Proof.
  induction n as [|n IH]; intros tree Hdepth Hkinds; [lia|].
  destruct tree as [v|v|b|v|v|nodes|fs|k].
  - now rewrite parseLiteral_IntValue.
  - now rewrite parseLiteral_FloatValue.
  - now rewrite parseLiteral_BooleanValue.
  - now rewrite parseLiteral_StringValue.
  - now rewrite parseLiteral_EnumValue.
  - rewrite parseLiteral_ListValue, isValue_fmap, isValue_mapM.
    cbn [parseable well_kinded] in *.
    apply forallb_ext_in. intros node Hnode. apply IH.
    + pose proof (depth_ListValue nodes node Hnode). lia.
    + rewrite forallb_forall in Hkinds. now apply Hkinds.
  - rewrite parseLiteral_ObjectValue, isValue_fmap.
    rewrite (isValue_reduceM_set
               (fun field => GraphQLJson_parseLiteral (snd field))).
    cbn [parseable well_kinded] in *.
    apply forallb_ext_in. intros field Hfield. apply IH.
    + pose proof (depth_ObjectValue fs field Hfield). lia.
    + rewrite forallb_forall in Hkinds. now apply Hkinds.
  - cbn [parseable well_kinded] in *.
    rewrite parseLiteral_unsupported; [reflexivity|].
    cbn [kind]. intros Hin.
    apply negb_true_iff in Hkinds.
    assert (existsb (String.eqb k) supported_kinds = true).
    { apply existsb_exists. exists k. split; [assumption | apply String.eqb_refl]. }
    congruence.
Qed.

(** X21: the literals that the [JSON] scalar parses.  Parsing returns a
    value exactly when every node of the literal, at any depth, is of
    one of the seven kinds and the built-in scalar accepts each number,
    boolean and string in it; enum values always pass.  One node of
    another kind, however deep, makes the whole literal fail. *)
Theorem parseLiteral_succeeds_iff_parseable
        (tree : Node) (Hkinds : well_kinded tree = true) :
  isValue (GraphQLJson_parseLiteral tree) = parseable tree.
Proof. apply (parseable_within (S (depth tree))); [lia | assumption]. Qed.

End LiteralFacts.

Lemma parseLiteral_object_last_field_wins_witness :
  @GraphQLJson_parseLiteral Reference.scalars Literals.repeated_literal
  = Value (VObj [("a", VArr [VNum 3%float]); ("b", VNum 2%float)])
  /\ exists props v,
      Value (VObj [("a", VArr [VNum 3%float]); ("b", VNum 2%float)])
      = Value (A := JsVal) (VObj props)
      /\ obj_get props "a" = Some v
      /\ v = VArr [VNum 3%float].
Proof.
  split; [reflexivity|].
  destruct (@parseLiteral_object_last_field_wins Reference.scalars
              [("a", IntValue "1"); ("b", IntValue "2")] []
              "a" (ListValue [IntValue "3"])
              (VObj [("a", VArr [VNum 3%float]); ("b", VNum 2%float)])
              ltac:(intros [])
              ltac:(discriminate)
              eq_refl) as (props & v & Hprops & Hv & Hget & _).
  exists props, v. split; [now rewrite Hprops|]. split; [exact Hget|].
  change (@GraphQLJson_parseLiteral Reference.scalars (ListValue [IntValue "3"]))
    with (Value (A := JsVal) (VArr [VNum 3%float])) in Hv.
  now injection Hv as <-.
Defined.

Lemma parseLiteral_succeeds_iff_parseable_witness :
  isValue (@GraphQLJson_parseLiteral Reference.scalars Literals.open_literal)
  = false
  /\ isValue (@GraphQLJson_parseLiteral Reference.scalars sample_literal)
     = true.
Proof.
  split.
  - exact (@parseLiteral_succeeds_iff_parseable Reference.scalars
             Literals.open_literal eq_refl).
  - exact (@parseLiteral_succeeds_iff_parseable Reference.scalars
             sample_literal eq_refl).
Defined.
